(** * OneTrueAddress: the address reconciliation pipeline

    A shallow embedding of [golden_source.py] (schema mapper, street-address
    decomposition), [address_agent.py] (exact-match verifier, response
    recovery, adjudication review, result assembly) and the reporting part
    of [main_alt.py], followed by the properties of the specification.

    Modelling conventions.
    - Python [str] is [string], one character per code point: the
      character [ascii_of_nat n] is the code point [n], so a text is a
      sequence of code points below 256 (ASCII and Latin-1). On these the
      text primitives are the ones of Python 3: whitespace includes
      U+001C..U+001F, U+0085 and U+00A0, [str.lower] lowers the accented
      capitals, [str.isdigit] accepts the superscript digits and the
      pattern class [\d] does not. The literals of this file are ASCII.
    - A Python [dict] is an insertion-ordered association list with unique
      keys: [dict_set] overwrites in place or appends.
    - Python values that cross the text channel or sit in result
      dictionaries are [PyVal]; floats are rationals (NaN and the
      infinities are outside the model).
    - Candidate records are objects in a store and the candidate lists hold
      references, since [match_address] mutates the records it returns.
    - Exceptions are an explicit error result; the side effects (requests
      sent to the reasoning model, record mutation) are state passing. *)

From Stdlib Require Import String Ascii List ZArith QArith Bool Lia.
From Stdlib Require Import DecimalString.
From Stdlib Require Import Permutation Sorted.
Import ListNotations.

Local Close Scope Q_scope.
Local Open Scope string_scope.
Local Open Scope list_scope.
Local Open Scope nat_scope.

(* ================================================================== *)
(** ** Python text primitives *)
(* ================================================================== *)

Module PyStr.

(** The whitespace of [str.strip], [str.split] and the pattern class
    [\s]: TAB..CR, FS..US, SPACE, NEL (U+0085) and NO-BREAK SPACE
    (U+00A0). *)
Definition is_space (c : ascii) : bool :=
  let n := nat_of_ascii c in
  ((9 <=? n) && (n <=? 13)) || ((28 <=? n) && (n <=? 32))
  || (n =? 133) || (n =? 160).

(** The pattern class [\d]: the decimal digits 0..9. *)
Definition is_decimal (c : ascii) : bool :=
  let n := nat_of_ascii c in (48 <=? n) && (n <=? 57).

(** The characters [str.isdigit] accepts: the decimal digits and the
    superscripts two, three (U+00B2, U+00B3) and one (U+00B9). *)
Definition is_digit (c : ascii) : bool :=
  let n := nat_of_ascii c in
  ((48 <=? n) && (n <=? 57)) || (n =? 178) || (n =? 179) || (n =? 185).

Definition is_newline (c : ascii) : bool := (nat_of_ascii c =? 10).

(** The letters [str.lower] changes: A..Z and the accented capitals
    U+00C0..U+00DE without the multiplication sign U+00D7. *)
Definition is_upper_letter (c : ascii) : bool :=
  let n := nat_of_ascii c in
  ((65 <=? n) && (n <=? 90))
  || ((192 <=? n) && (n <=? 222) && negb (n =? 215)).

Definition lower_char (c : ascii) : ascii :=
  if is_upper_letter c then ascii_of_nat (nat_of_ascii c + 32) else c.

(** The upper-case form of the letters a..z; the other characters are
    kept. *)
Definition upper_char (c : ascii) : ascii :=
  let n := nat_of_ascii c in
  if (97 <=? n) && (n <=? 122) then ascii_of_nat (n - 32) else c.

(** [s.lower()], and the text with its letters a..z in upper case. *)
Fixpoint lower (s : string) : string :=
  match s with
  | EmptyString => EmptyString
  | String c t => String (lower_char c) (lower t)
  end.

Fixpoint upper (s : string) : string :=
  match s with
  | EmptyString => EmptyString
  | String c t => String (upper_char c) (upper t)
  end.

Definition is_empty (s : string) : bool :=
  match s with EmptyString => true | _ => false end.

(** [pat in s] *)
Fixpoint contains (pat s : string) : bool :=
  String.prefix pat s ||
  match s with
  | EmptyString => false
  | String _ t => contains pat t
  end.

(** [s[len(p):]] when [s.startswith(p)] *)
Fixpoint strip_prefix (p s : string) : option string :=
  match p, s with
  | EmptyString, _ => Some s
  | String a p', String b s' =>
      if Ascii.eqb a b then strip_prefix p' s' else None
  | String _ _, EmptyString => None
  end.

(** [s.lstrip()], [s.rstrip()], [s.strip()] *)
Fixpoint lstrip (s : string) : string :=
  match s with
  | EmptyString => EmptyString
  | String c t => if is_space c then lstrip t else s
  end.

Fixpoint rstrip_by (drop : ascii -> bool) (s : string) : string :=
  match s with
  | EmptyString => EmptyString
  | String c t =>
      let t' := rstrip_by drop t in
      if drop c && is_empty t' then EmptyString else String c t'
  end.

Definition rstrip (s : string) : string := rstrip_by is_space s.
Definition strip (s : string) : string := rstrip (lstrip s).

(** [s.rstrip('.')] *)
Definition rstrip_dot (s : string) : string :=
  rstrip_by (fun c => Ascii.eqb c ".") s.

(** The longest prefix of characters satisfying [p], and the rest. *)
Fixpoint span (p : ascii -> bool) (s : string) : string * string :=
  match s with
  | EmptyString => (EmptyString, EmptyString)
  | String c t =>
      if p c then let '(a, b) := span p t in (String c a, b)
      else (EmptyString, s)
  end.

(** [s.split()] : maximal runs of non-whitespace. *)
Fixpoint split (s : string) : list string :=
  match s with
  | EmptyString => []
  | String c t =>
      if is_space c then split t
      else match t with
           | EmptyString => [String c EmptyString]
           | String c' _ =>
               if is_space c' then String c EmptyString :: split t
               else match split t with
                    | w :: ws => String c w :: ws
                    | [] => [String c EmptyString]
                    end
           end
  end.

(** [s.split(None, 1)] : the first token, and what follows the
    whitespace after it (kept verbatim) when there is anything. *)
Definition split_once (s : string) : list string :=
  let s1 := lstrip s in
  if is_empty s1 then []
  else
    let '(first, rest) := span (fun c => negb (is_space c)) s1 in
    let rest' := lstrip rest in
    if is_empty rest' then [first] else [first; rest'].

(** [sep.join(parts)] *)
Fixpoint join (sep : string) (parts : list string) : string :=
  match parts with
  | [] => EmptyString
  | [w] => w
  | w :: ws => (w ++ sep ++ join sep ws)%string
  end.

(** [s.isdigit()] *)
Definition isdigit (s : string) : bool :=
  negb (is_empty s) && is_empty (snd (span is_digit s)).

(** [str(n)] for an integer. *)
Definition str_of_Z (z : Z) : string := NilZero.string_of_int (Z.to_int z).

End PyStr.

(* ================================================================== *)
(** ** Python dictionaries *)
(* ================================================================== *)

Definition dict (V : Type) : Type := list (string * V).

(** [d.get(k)] *)
Fixpoint dict_get {V} (d : dict V) (k : string) : option V :=
  match d with
  | [] => None
  | (k', v) :: rest => if String.eqb k' k then Some v else dict_get rest k
  end.

(** [d.get(k, default)] *)
Definition dict_get_or {V} (d : dict V) (k : string) (default : V) : V :=
  match dict_get d k with Some v => v | None => default end.

(** [d[k] = v] : an existing key keeps its position. *)
Fixpoint dict_set {V} (d : dict V) (k : string) (v : V) : dict V :=
  match d with
  | [] => [(k, v)]
  | (k', v') :: rest =>
      if String.eqb k' k then (k', v) :: rest else (k', v') :: dict_set rest k v
  end.

(** [k in d] *)
Definition dict_mem {V} (d : dict V) (k : string) : bool :=
  match dict_get d k with Some _ => true | None => false end.

(* ================================================================== *)
(** ** golden_source.py : schema mapper *)
(* ================================================================== *)

Module SchemaMapper.
Import PyStr.

Record ColumnMapping := mkMapping {
  address : option string;
  city : option string;
  state : option string;
  zip : option string
}.

(** [columns_lower = {col.lower(): col for col in columns}] *)
Definition columns_lower (columns : list string) : dict string :=
  fold_left (fun d col => dict_set d (lower col) col) columns [].

Definition address_patterns : list string :=
  ["address"; "street"; "addr"; "street_address"; "address1"; "address_1"].
Definition city_patterns : list string :=
  ["city"; "mailing_city"; "mail_city"; "town"].
Definition state_patterns : list string := ["state"; "st"; "province"].
Definition zip_patterns : list string :=
  ["zip"; "zipcode"; "zip_code"; "postal"; "postalcode"; "postal_code"].

(** [pattern in col_lower] *)
Definition substring_test (pattern col_lower : string) : bool :=
  contains pattern col_lower.

(** [col_lower == pattern or
     (pattern in col_lower and 'estate' not in col_lower)] *)
Definition state_test (pattern col_lower : string) : bool :=
  String.eqb col_lower pattern ||
  (contains pattern col_lower && negb (contains "estate" col_lower)).

(** Truthiness of [mapping[field]]. *)
Definition truthy (m : option string) : bool :=
  match m with
  | Some s => negb (is_empty s)
  | None => false
  end.

Definition is_none (m : option string) : bool :=
  match m with None => true | Some _ => false end.

(** The inner loop [for col_lower, col_actual in columns_lower.items()]:
    the first item passing the test while the field is unbound binds it
    and leaves the loop. *)
Fixpoint scan_columns (test : string -> bool) (items : dict string)
         (bound : option string) : option string :=
  match items with
  | [] => bound
  | (col_lower, col_actual) :: rest =>
      if test col_lower && is_none bound then Some col_actual
      else scan_columns test rest bound
  end.

(** The outer loop [for pattern in patterns], left as soon as the field
    is truthy. *)
Fixpoint scan_patterns (test : string -> string -> bool)
         (patterns : list string) (items : dict string)
         (bound : option string) : option string :=
  match patterns with
  | [] => bound
  | pattern :: rest =>
      let bound' := scan_columns (test pattern) items bound in
      if truthy bound' then bound' else scan_patterns test rest items bound'
  end.

(** [_get_pinellas_column_mapping], from the column list the schema
    query returned (in ordinal order). *)
Definition _get_pinellas_column_mapping (columns : list string)
  : ColumnMapping * list string :=
  let items := columns_lower columns in
  ({| address := scan_patterns substring_test address_patterns items None;
      city := scan_patterns substring_test city_patterns items None;
      state := scan_patterns state_test state_patterns items None;
      zip := scan_patterns substring_test zip_patterns items None |},
   columns).

(** What the mapper recognises as a column of each kind. *)
Definition like (test : string -> string -> bool) (patterns : list string)
           (col : string) : bool :=
  existsb (fun p => test p (lower col)) patterns.

Definition address_like := like substring_test address_patterns.
Definition city_like := like substring_test city_patterns.
Definition state_like := like state_test state_patterns.
Definition zip_like := like substring_test zip_patterns.

End SchemaMapper.

(* ================================================================== *)
(** ** golden_source.py : street-address decomposition *)
(* ================================================================== *)

Module Decomposer.
Import PyStr.

Record DecomposedAddress := mkDecomposed {
  street_number : string;
  street_name_full : string;
  street_name_core : string
}.

Definition street_types : list string :=
  ["street"; "st"; "avenue"; "ave"; "road"; "rd"; "drive"; "dr";
   "lane"; "ln"; "court"; "ct"; "circle"; "cir"; "boulevard"; "blvd";
   "way"; "place"; "pl"; "terrace"; "ter"; "parkway"; "pkwy";
   "highway"; "hwy"; "trail"; "trl"; "plaza"; "plz"; "alley"; "aly";
   "loop"; "square"; "sq"; "crossing"; "xing"; "run"; "point"; "pt";
   "pike"; "row"; "path"; "walk"; "commons"; "green"; "crescent"; "cres"].

(** [word in street_types] *)
Definition is_street_type (word : string) : bool :=
  existsb (String.eqb word) street_types.

(** [(.+)$] : a non-empty run without newline reaching the end of the
    text, or the newline that ends it. *)
Definition dot_plus_eol (r : string) : option string :=
  let '(x, tl) := span (fun c => negb (is_newline c)) r in
  if is_empty x then None
  else match tl with
       | EmptyString => Some x
       | String _ EmptyString => Some x
       | _ => None
       end.

(** [\s+(.+)$] with the greedy whitespace run giving back characters
    only when the rest cannot match otherwise. *)
Fixpoint ws_then_rest (r : string) : option string :=
  match r with
  | EmptyString => None
  | String c t =>
      if is_space c then
        match ws_then_rest t with
        | Some g => Some g
        | None => dot_plus_eol t
        end
      else None
  end.

(** [re.match(r'^(\d+)\s+(.+)$', s)] : groups 1 and 2. *)
Definition re_match_number_name (s : string) : option (string * string) :=
  let '(digits, r) := span is_decimal s in
  if is_empty digits then None
  else match ws_then_rest r with
       | Some name => Some (digits, name)
       | None => None
       end.

(** The suffix-stripping block of [get_pinellas_matches]. *)
Definition strip_street_type (street_name_full : string) : string :=
  let street_name_parts := split (strip street_name_full) in
  if (1 <? length street_name_parts)%nat then
    let last_word := rstrip_dot (lower (last street_name_parts EmptyString)) in
    if is_street_type last_word
    then join " " (removelast street_name_parts)
    else street_name_full
  else street_name_full.

(** The decomposition performed by [get_pinellas_matches] on
    [str(address1)]; [None] is the early [return []]. *)
Definition decompose (address1 : string) : option DecomposedAddress :=
  let s := strip address1 in
  let groups :=
    match re_match_number_name s with
    | Some g => Some g
    | None =>
        match split_once s with
        | p0 :: p1 :: _ => if isdigit p0 then Some (p0, p1) else None
        | _ => None
        end
    end in
  match groups with
  | Some (number, name_full) =>
      Some {| street_number := number;
              street_name_full := name_full;
              street_name_core := strip_street_type name_full |}
  | None => None
  end.

End Decomposer.

(* ================================================================== *)
(** ** address_agent.py : exact-match verifier *)
(* ================================================================== *)

Module ExactMatch.
Import PyStr.

(** A value held by a row: NULL, a boolean, an integer or text. *)
Inductive Cell :=
| CNone
| CBool (b : bool)
| CInt (z : Z)
| CStr (s : string).

(** [str(value)] *)
Definition py_str (c : Cell) : string :=
  match c with
  | CNone => "None"
  | CBool true => "True"
  | CBool false => "False"
  | CInt z => str_of_Z z
  | CStr s => s
  end.

Definition Row := dict Cell.

Record Sniffed := mkSniffed {
  address_col : option string;
  city_col : option string;
  state_col : option string;
  zip_col : option string
}.

Definition first_binding (old : option string) (key : string) : option string :=
  match old with
  | None => Some key
  | Some _ => old
  end.

(** The canonical field a key stands for, by the [if]/[elif] chain of the
    sniffing loop. *)
Inductive Field := FAddress | FCity | FState | FZip.

Definition key_field (key_lower : string) : option Field :=
  if contains "address" key_lower || contains "street" key_lower then
    Some FAddress
  else if contains "city" key_lower || contains "town" key_lower then
    Some FCity
  else if String.eqb key_lower "state" || String.eqb key_lower "st" then
    Some FState
  else if contains "zip" key_lower || contains "postal" key_lower then
    Some FZip
  else None.

(** One turn of [for key in sample_record.keys()]. *)
Definition sniff_key (acc : Sniffed) (key : string) : Sniffed :=
  match key_field (lower key) with
  | Some FAddress =>
      mkSniffed (first_binding (address_col acc) key)
                (city_col acc) (state_col acc) (zip_col acc)
  | Some FCity =>
      mkSniffed (address_col acc) (first_binding (city_col acc) key)
                (state_col acc) (zip_col acc)
  | Some FState =>
      mkSniffed (address_col acc) (city_col acc)
                (first_binding (state_col acc) key) (zip_col acc)
  | Some FZip =>
      mkSniffed (address_col acc) (city_col acc) (state_col acc)
                (first_binding (zip_col acc) key)
  | None => acc
  end.

Definition sniff_columns (sample_record : Row) : Sniffed :=
  fold_left sniff_key (map fst sample_record) (mkSniffed None None None None).

(** [str(golden_address.get(key, '')).strip().lower()] *)
Definition golden_field (golden_address : Row) (key : string) : string :=
  lower (strip (py_str (dict_get_or golden_address key (CStr EmptyString)))).

(** [str(internal_record.get(col, '')).strip().lower() if col else ''] *)
Definition internal_field (internal_record : Row) (col : option string)
  : string :=
  match col with
  | Some c =>
      if is_empty c then EmptyString
      else lower (strip (py_str (dict_get_or internal_record c (CStr EmptyString))))
  | None => EmptyString
  end.

Record Verdict := mkVerdict {
  is_exact_match : bool;
  matched_record : option Row
}.

(** The four-field comparison of one internal record. *)
Definition all_fields_match (golden_address : Row) (cols : Sniffed)
           (internal_record : Row) : bool :=
  String.eqb (golden_field golden_address "address1")
             (internal_field internal_record (address_col cols)) &&
  String.eqb (golden_field golden_address "Mailing City")
             (internal_field internal_record (city_col cols)) &&
  String.eqb (golden_field golden_address "state")
             (internal_field internal_record (state_col cols)) &&
  String.eqb (golden_field golden_address "zipcode")
             (internal_field internal_record (zip_col cols)).

(** [for internal_record in internal_matches] *)
Fixpoint scan_internal (golden_address : Row) (cols : Sniffed)
         (internal_matches : list Row) : Verdict :=
  match internal_matches with
  | [] => mkVerdict false None
  | internal_record :: rest =>
      if all_fields_match golden_address cols internal_record
      then mkVerdict true (Some internal_record)
      else scan_internal golden_address cols rest
  end.

Definition _check_exact_match (golden_address : Row)
           (internal_matches : list Row) : Verdict :=
  match internal_matches with
  | [] => mkVerdict false None
  | sample_record :: _ =>
      scan_internal golden_address (sniff_columns sample_record)
                    internal_matches
  end.

End ExactMatch.

(* ================================================================== *)
(** ** Python values, exceptions and the collaborators *)
(* ================================================================== *)

#[local] Set Warnings "-register-all".

(** Values produced by [json.loads] and held by the result dictionaries.
    [PRec r] is a candidate record, the object at address [r] of the
    store. *)
Inductive PyVal :=
| PNone
| PBool (b : bool)
| PInt (z : Z)
| PFloat (q : Q)
| PStr (s : string)
| PList (l : list PyVal)
| PDict (d : list (string * PyVal))
| PRec (r : nat).

Inductive ExnKind :=
| TypeError | AttributeError | IndexError | KeyError | ValueError
| OverflowError | ClientError.

(** An exception with [str(e)]. *)
Record Exn := mkExn { exn_kind : ExnKind; exn_str : string }.

Definition Qltb (a b : Q) : bool := negb (Qle_bool b a).

Definition type_name (v : PyVal) : string :=
  match v with
  | PNone => "NoneType"
  | PBool _ => "bool"
  | PInt _ => "int"
  | PFloat _ => "float"
  | PStr _ => "str"
  | PList _ => "list"
  | PDict _ => "dict"
  | PRec _ => "dict"
  end.

(** Truth value of a Python value. *)
Definition py_truthy (v : PyVal) : bool :=
  match v with
  | PNone => false
  | PBool b => b
  | PInt z => negb (z =? 0)%Z
  | PFloat q => negb (Qeq_bool q 0)
  | PStr s => negb (PyStr.is_empty s)
  | PList l => match l with [] => false | _ => true end
  | PDict d => match d with [] => false | _ => true end
  | PRec _ => true
  end.

(** [v == 'text'] *)
Definition py_eq_str (v : PyVal) (text : string) : bool :=
  match v with
  | PStr s => String.eqb s text
  | _ => false
  end.

(** The numeric value of an [int], [bool] or [float]. *)
Definition num_of (v : PyVal) : option Q :=
  match v with
  | PBool b => Some (inject_Z (if b then 1 else 0))
  | PInt z => Some (inject_Z z)
  | PFloat q => Some q
  | _ => None
  end.

(** [v - 1] *)
Definition py_sub1 (v : PyVal) : Exn + PyVal :=
  match v with
  | PInt z => inr (PInt (z - 1))
  | PBool b => inr (PInt ((if b then 1 else 0) - 1))
  | PFloat q => inr (PFloat (q - 1))
  | _ => inl (mkExn TypeError
                ("unsupported operand type(s) for -: '" ++ type_name v
                 ++ "' and 'int'"))
  end.

(** [0 <= idx < n] *)
Definition in_range (idx : PyVal) (n : nat) : bool :=
  match idx with
  | PInt z => (0 <=? z)%Z && (z <? Z.of_nat n)%Z
  | PFloat q => Qle_bool 0 q && Qltb q (inject_Z (Z.of_nat n))
  | _ => false
  end.

(** [l[idx]] on a list of candidate records; a negative index counts
    from the end. *)
Definition py_index (l : list nat) (idx : PyVal) : Exn + PyVal :=
  match idx with
  | PInt z =>
      let i := (if z <? 0 then z + Z.of_nat (length l) else z)%Z in
      match (if (i <? 0)%Z then None else nth_error l (Z.to_nat i)) with
      | Some r => inr (PRec r)
      | None => inl (mkExn IndexError "list index out of range")
      end
  | _ => inl (mkExn TypeError
                ("list indices must be integers or slices, not "
                 ++ type_name idx))
  end.

(** Modelled from the spec: the retriever ([fuzzy_match_addresses]) that
    builds the candidates is not part of the sources. Section 3 gives every
    AddressRecord the canonical text and the metadata [_similarity_score],
    [_source_type] and [_source_table]; [_ai_analysis] is the entry
    [match_address] attaches. *)
Record AddressRecord := mkRecord {
  MasterAddress : string;
  similarity_score : Q;
  source_type : string;
  source_table : string;
  ai_analysis : option PyVal
}.

(** One line [GS-n. [score%] address] or [INT-n. ...] of the prompt. *)
Record PromptLine := mkLine {
  line_index : nat;
  line_score : Q;
  line_address : string
}.

(** The request: the prompt is the fixed instruction text around these
    three parts. *)
Record Prompt := mkPrompt {
  prompt_input : string;
  prompt_gs : list PromptLine;
  prompt_int : list PromptLine
}.

(** What [fuzzy_match_addresses] returned. *)
Record MatchResults := mkResults {
  golden_source_matches : list nat;
  internal_matches : list nat;
  total_matches : Z
}.

(** The collaborators of the agent: the JSON parser, [int()] on text, the
    reasoning-model client (the text of [message.content[0].text], or the
    exception raised on the way) and the two settings [address_agent.py]
    imports from [config]: [CONFIDENCE_THRESHOLD] at the top of the module
    and [FUZZY_MATCH_THRESHOLD] inside [match_address]. *)
Record Collaborators := mkCollab {
  json_loads : string -> option PyVal;
  py_int : string -> option Z;
  messages_create : Prompt -> Exn + string;
  CONFIDENCE_THRESHOLD : Q;
  FUZZY_MATCH_THRESHOLD : Q
}.

(** The mutable world: the candidate objects and the requests sent. *)
Record World := mkWorld {
  store : nat -> AddressRecord;
  requests : list Prompt
}.

(** Computations that read and change the world and may raise. *)
Definition M (A : Type) : Type := World -> (Exn + A) * World.

Definition ret {A} (a : A) : M A := fun w => (inr a, w).

Definition bind {A B} (m : M A) (k : A -> M B) : M B :=
  fun w =>
    match m w with
    | (inr a, w') => k a w'
    | (inl e, w') => (inl e, w')
    end.

Definition raise {A} (e : Exn) : M A := fun w => (inl e, w).

Definition lift {A} (r : Exn + A) : M A := fun w => (r, w).

(** [try: body except Exception as e: handler(e)] *)
Definition try_except {A} (body : M A) (handler : Exn -> M A) : M A :=
  fun w =>
    match body w with
    | (inr a, w') => (inr a, w')
    | (inl e, w') => handler e w'
    end.

Definition get_store : M (nat -> AddressRecord) :=
  fun w => (inr (store w), w).

Declare Scope py_scope.
Delimit Scope py_scope with py.
Notation "x <- m ;; k" := (bind m (fun x => k))
  (at level 61, m at next level, right associativity) : py_scope.

(** Sequencing of pure steps that may raise. *)
Definition ebind {A B} (r : Exn + A) (k : A -> Exn + B) : Exn + B :=
  match r with
  | inl e => inl e
  | inr a => k a
  end.

Notation "x <-? r ;; k" := (ebind r (fun x => k))
  (at level 61, r at next level, right associativity) : py_scope.
Local Open Scope py_scope.

(* ================================================================== *)
(** ** address_agent.py : recovery of the verdict from the response *)
(* ================================================================== *)

Module Parser.
Import PyStr.

Definition quote_char : ascii := ascii_of_nat 34.

(** The lazy body [.*?\}\s*```] read after the opening brace: the
    shortest text ending in a closing brace that whitespace and a fence
    follow. *)
Fixpoint body_to_fence (s : string) : option string :=
  match s with
  | EmptyString => None
  | String c t =>
      if Ascii.eqb c "}" && String.prefix "```" (lstrip t)
      then Some (String c EmptyString)
      else option_map (String c) (body_to_fence t)
  end.

(** The pattern [```(?:json)?\s*(\{.*?\})\s*```] anchored at the start of
    [s]: group 1. *)
Definition code_block_at (s : string) : option string :=
  match strip_prefix "```" s with
  | None => None
  | Some r =>
      let r1 := match strip_prefix "json" r with
                | Some r' => r'
                | None => r
                end in
      match lstrip r1 with
      | String c t =>
          if Ascii.eqb c "{" then option_map (String c) (body_to_fence t)
          else None
      | EmptyString => None
      end
  end.

(** [re.search(pattern, response_text, re.DOTALL)] : the leftmost match. *)
Fixpoint search_code_block (s : string) : option string :=
  match code_block_at s with
  | Some g => Some g
  | None =>
      match s with
      | EmptyString => None
      | String _ t => search_code_block t
      end
  end.

(** [response_text[response_text.find('{'):]] *)
Fixpoint from_first_brace (s : string) : option string :=
  match s with
  | EmptyString => None
  | String c t => if Ascii.eqb c "{" then Some s else from_first_brace t
  end.

(** The bracket-counting loop, from the first brace on: the text up to
    the brace that brings the count back to zero. *)
Fixpoint balanced_prefix (s : string) (bracket_count : Z)
         (in_string escape_next : bool) : option string :=
  match s with
  | EmptyString => None
  | String char t =>
      if escape_next then
        option_map (String char) (balanced_prefix t bracket_count in_string false)
      else if Ascii.eqb char "\" then
        option_map (String char) (balanced_prefix t bracket_count in_string true)
      else if Ascii.eqb char quote_char then
        option_map (String char)
                   (balanced_prefix t bracket_count (negb in_string) false)
      else if negb in_string then
        if Ascii.eqb char "{" then
          option_map (String char)
                     (balanced_prefix t (bracket_count + 1) in_string false)
        else if Ascii.eqb char "}" then
          if (bracket_count - 1 =? 0)%Z then Some (String char EmptyString)
          else option_map (String char)
                          (balanced_prefix t (bracket_count - 1) in_string false)
        else option_map (String char)
                        (balanced_prefix t bracket_count in_string false)
      else option_map (String char)
                      (balanced_prefix t bracket_count in_string false)
  end.

(** The three candidate texts handed to [json.loads], in order. *)
Definition tier1 (response_text : string) : option string :=
  Some (strip response_text).

Definition tier2 (response_text : string) : option string :=
  search_code_block response_text.

Definition tier3 (response_text : string) : option string :=
  match from_first_brace response_text with
  | Some s => balanced_prefix s 0 false false
  | None => None
  end.

Definition sentinel (response_text : string) : PyVal :=
  PDict [("raw_text", PStr response_text);
         ("note", PStr "Could not parse JSON from Claude response")].

Section WithJson.
Variable loads : string -> option PyVal.

Definition try_loads (candidate : option string) : option PyVal :=
  match candidate with
  | Some text => loads text
  | None => None
  end.

Definition _parse_claude_response (response_text : string) : PyVal :=
  match try_loads (tier1 response_text) with
  | Some v => v
  | None =>
      match try_loads (tier2 response_text) with
      | Some v => v
      | None =>
          match try_loads (tier3 response_text) with
          | Some v => v
          | None => sentinel response_text
          end
      end
  end.

End WithJson.

End Parser.

(* ================================================================== *)
(** ** address_agent.py : adjudication review and result assembly *)
(* ================================================================== *)

Module Agent.
Import PyStr.

(** [l.sort(key=..., reverse=True)] : stable, descending. *)
Fixpoint insert_desc (key : nat -> Q) (x : nat) (l : list nat) : list nat :=
  match l with
  | [] => [x]
  | y :: t =>
      if Qltb (key x) (key y) then y :: insert_desc key x t
      else x :: y :: t
  end.

Fixpoint sort_desc (key : nat -> Q) (l : list nat) : list nat :=
  match l with
  | [] => []
  | x :: t => insert_desc key x (sort_desc key t)
  end.

(** [match.get('_similarity_score', 0)] on the object at [r]. *)
Definition score_of (st : nat -> AddressRecord) (r : nat) : Q :=
  similarity_score (st r).

(** [l[:10]] *)
Definition top10 {A} (l : list A) : list A := firstn 10 l.

(** The summary lines [enumerate(matches, 1)]. *)
Fixpoint summary_lines (st : nat -> AddressRecord) (idx : nat)
         (matches : list nat) : list PromptLine :=
  match matches with
  | [] => []
  | r :: t =>
      mkLine idx (score_of st r) (MasterAddress (st r))
      :: summary_lines st (S idx) t
  end.

Definition build_prompt (st : nat -> AddressRecord) (input_address : string)
           (gs ints : list nat) : Prompt :=
  mkPrompt input_address (summary_lines st 1 gs) (summary_lines st 1 ints).

(** [all_matches[0]] *)
Definition first_match (all_matches : list nat) : Exn + nat :=
  match all_matches with
  | r :: _ => inr r
  | [] => inl (mkExn IndexError "list index out of range")
  end.

(** [match['_ai_analysis'] = analysis] *)
Definition set_ai_analysis (r : nat) (analysis : PyVal) : M unit :=
  fun w =>
    (inr tt,
     mkWorld (fun r' => if Nat.eqb r' r
                        then let rec := store w r' in
                             mkRecord (MasterAddress rec) (similarity_score rec)
                                      (source_type rec) (source_table rec)
                                      (Some analysis)
                        else store w r')
             (requests w)).

Section WithCollaborators.
Variable env : Collaborators.

(** [self.claude_client.client.messages.create(...)] followed by
    [message.content[0].text]; the request is recorded. *)
Definition create_message (prompt : Prompt) : M string :=
  fun w =>
    (messages_create env prompt, mkWorld (store w) (requests w ++ [prompt])).

(** [len(analyses)] then [analyses.items()] *)
Definition analyses_items (analyses : PyVal) : Exn + list (string * PyVal) :=
  match analyses with
  | PDict items => inr items
  | PList _ | PStr _ =>
      inl (mkExn AttributeError
             ("'" ++ type_name analyses ++ "' object has no attribute 'items'"))
  | _ =>
      inl (mkExn TypeError
             ("object of type '" ++ type_name analyses ++ "' has no len()"))
  end.

(** The loop [for idx_str, analysis in analyses.items()] filling
    [converted_analyses] under the keys [gs_<idx>] or [int_<idx>]. *)
Fixpoint convert_items (tag : string) (items : list (string * PyVal))
         (converted : dict PyVal) : Exn + dict PyVal :=
  match items with
  | [] => inr converted
  | (idx_str, analysis) :: rest =>
      match py_int env idx_str with
      | None => convert_items tag rest converted
      | Some n =>
          let converted' :=
            dict_set converted (tag ++ str_of_Z (n - 1)) analysis in
          match analysis with
          | PDict _ => convert_items tag rest converted'
          | _ =>
              inl (mkExn AttributeError
                     ("'" ++ type_name analysis
                      ++ "' object has no attribute 'get'"))
          end
      end
  end.

Definition convert_analyses (tag : string) (analyses : PyVal)
           (converted : dict PyVal) : Exn + dict PyVal :=
  items <-? analyses_items analyses ;;
  convert_items tag items converted.

(** The dictionary returned when the review is not used: the first of
    [all_matches] with its own score. *)
Definition fallback_dict (st : nat -> AddressRecord) (top : nat)
           (reasoning : string) : dict PyVal :=
  [("match_found", PBool true);
   ("best_match", PRec top);
   ("confidence", PFloat (score_of st top));
   ("reasoning", PStr reasoning);
   ("concerns", PNone);
   ("fuzzy_score", PFloat (score_of st top));
   ("match_analyses", PDict [])].

Definition fallback_review (st : nat -> AddressRecord) (all_matches : list nat)
           (reasoning : string) : Exn + dict PyVal :=
  top <-? first_match all_matches ;;
  inr (fallback_dict st top reasoning).

(** [all_matches[0].get('_similarity_score', 0) if all_matches else 0] *)
Definition top_score_or_zero (st : nat -> AddressRecord)
           (all_matches : list nat) : PyVal :=
  match all_matches with
  | r :: _ => PFloat (score_of st r)
  | [] => PInt 0
  end.

(** The [if]/[elif] chain choosing [recommended_match]. *)
Definition recommended_match_of (best_match_source best_match_index : PyVal)
           (all_matches golden_source_matches internal_matches : list nat)
  : Exn + PyVal :=
  if py_eq_str best_match_source "golden_source"
     && in_range best_match_index (length golden_source_matches)
  then py_index golden_source_matches best_match_index
  else if py_eq_str best_match_source "internal"
          && in_range best_match_index (length internal_matches)
  then py_index internal_matches best_match_index
  else match all_matches with
       | r :: _ => inr (PRec r)
       | [] => inr (PDict [])
       end.

(** The dictionary returned from a parsed response. *)
Definition reviewed_dict (parsed_response : dict PyVal)
           (st : nat -> AddressRecord) (all_matches : list nat)
           (recommended_match : PyVal) (converted_analyses : dict PyVal)
  : dict PyVal :=
  [("match_found", dict_get_or parsed_response "match_found" (PBool true));
   ("best_match", recommended_match);
   ("confidence",
    dict_get_or parsed_response "confidence"
                (top_score_or_zero st all_matches));
   ("reasoning",
    dict_get_or parsed_response "reasoning"
                (PStr "Claude reviewed the matches"));
   ("concerns", dict_get_or parsed_response "concerns" PNone);
   ("fuzzy_score", top_score_or_zero st all_matches);
   ("match_analyses", PDict converted_analyses)].

(** The branch [isinstance(parsed_response, dict)]. *)
Definition review_parsed (st : nat -> AddressRecord)
           (parsed_response : dict PyVal)
           (all_matches golden_source_matches internal_matches : list nat)
  : Exn + dict PyVal :=
  let best_match_source :=
    dict_get_or parsed_response "best_match_source" (PStr "golden_source") in
  best_match_index <-?
    py_sub1 (dict_get_or parsed_response "best_match_index" (PInt 1)) ;;
  recommended_match <-?
    recommended_match_of best_match_source best_match_index all_matches
                         golden_source_matches internal_matches ;;
  converted_gs <-?
    convert_analyses "gs_"
      (dict_get_or parsed_response "golden_source_analyses" (PDict [])) [] ;;
  converted_analyses <-?
    convert_analyses "int_"
      (dict_get_or parsed_response "internal_analyses" (PDict []))
      converted_gs ;;
  inr (reviewed_dict parsed_response st all_matches recommended_match
                     converted_analyses).

Definition unavailable_reasoning : string :=
  "Using fuzzy match result (Claude review unavailable)".

(** [f"Using fuzzy match result (Claude review failed: {str(e)})"] *)
Definition failed_reasoning (e : Exn) : string :=
  "Using fuzzy match result (Claude review failed: " ++ exn_str e ++ ")".

(** The body of the [try] block. *)
Definition review_body (input_address : string)
           (all_matches golden_source_matches internal_matches : list nat)
  : M (dict PyVal) :=
  st <- get_store ;;
  response_text <-
    create_message
      (build_prompt st input_address golden_source_matches internal_matches) ;;
  match Parser._parse_claude_response (json_loads env) response_text with
  | PDict parsed_response =>
      lift (review_parsed st parsed_response all_matches golden_source_matches
                          internal_matches)
  | _ => lift (fallback_review st all_matches unavailable_reasoning)
  end.

Definition _review_fuzzy_matches_with_claude (input_address : string)
           (all_matches golden_source_matches internal_matches : list nat)
  : M (dict PyVal) :=
  try_except
    (review_body input_address all_matches golden_source_matches
                 internal_matches)
    (fun e =>
       st <- get_store ;;
       lift (fallback_review st all_matches (failed_reasoning e))).

(** The two loops attaching [_ai_analysis] to the first ten candidates of
    a source. *)
Fixpoint attach_analyses (tag : string) (match_analyses : dict PyVal)
         (idx : nat) (matches : list nat) : M unit :=
  match matches with
  | [] => ret tt
  | r :: rest =>
      _ <- match dict_get match_analyses (tag ++ str_of_Z (Z.of_nat idx)) with
           | Some analysis => set_ai_analysis r analysis
           | None => ret tt
           end ;;
      attach_analyses tag match_analyses (S idx) rest
  end.

(** [best_match.get(key, default)] for a record or the empty dict. *)
Definition best_match_text (st : nat -> AddressRecord) (best_match : PyVal)
           (field : AddressRecord -> string) (default : string)
  : Exn + string :=
  match best_match with
  | PRec r => inr (field (st r))
  | PDict _ => inr default
  | _ => inl (mkExn AttributeError
                ("'" ++ type_name best_match
                 ++ "' object has no attribute 'get'"))
  end.

(** [f"{best_score:.2f}"] : the number that is printed. An [int] is
    converted to a float first, which fails from 2^1024 - 2^970 on; text
    knows no format code [f]; the other values take no format string. *)
Definition format_2f (best_score : PyVal) : Exn + Q :=
  match best_score with
  | PInt z =>
      if (Z.abs z <? 2 ^ 1024 - 2 ^ 970)%Z then inr (inject_Z z)
      else inl (mkExn OverflowError "int too large to convert to float")
  | PBool b => inr (inject_Z (if b then 1 else 0))
  | PFloat q => inr q
  | PStr _ =>
      inl (mkExn ValueError "Unknown format code 'f' for object of type 'str'")
  | _ =>
      inl (mkExn TypeError
             ("unsupported format string passed to " ++ type_name best_score
              ++ ".__format__"))
  end.

Definition no_match_reasoning : string :=
  "No addresses found matching the search criteria with sufficient similarity in either table.".

(** The choice between the reviewed match and the fuzzy result: best
    match, score and reasoning. *)
Definition choose_best (st : nat -> AddressRecord) (claude_review : dict PyVal)
           (all_matches : list nat) : Exn + (PyVal * PyVal * PyVal) :=
  if py_truthy (dict_get_or claude_review "match_found" PNone) then
    match first_match all_matches with
    | inl e => inl e
    | inr top =>
        inr (dict_get_or claude_review "best_match" (PRec top),
             dict_get_or claude_review "confidence" (PFloat (score_of st top)),
             dict_get_or claude_review "reasoning"
               (PStr "Claude reviewed and confirmed the match"))
    end
  else
    match first_match all_matches with
    | inl e => inl e
    | inr top =>
        inr (PRec top,
             PFloat (score_of st top),
             dict_get_or claude_review "reasoning" (PStr "Fuzzy match result"))
    end.

(** The dictionary returned when nothing was retrieved. *)
Definition no_match_result (input_address : string) : dict PyVal :=
  [("input_address", PStr input_address);
   ("match_found", PBool false);
   ("golden_source_matches", PList []);
   ("internal_matches", PList []);
   ("reasoning", PStr no_match_reasoning);
   ("candidates_searched", PInt 0);
   ("search_method", PStr "fuzzy_match");
   ("has_golden_source", PBool false);
   ("has_internal", PBool false)].

(** The dictionary returned after the review. *)
Definition match_result (threshold : Q) (input_address : string)
           (match_results : MatchResults)
           (best_match best_score claude_reasoning : PyVal)
           (claude_review : dict PyVal) (business_rule_exception : bool)
  : dict PyVal :=
  [("input_address", PStr input_address);
   ("match_found", PBool true);
   ("best_match", best_match);
   ("golden_source_matches",
    PList (map PRec (golden_source_matches match_results)));
   ("internal_matches", PList (map PRec (internal_matches match_results)));
   ("has_golden_source",
    PBool (0 <? length (golden_source_matches match_results)));
   ("has_internal", PBool (0 <? length (internal_matches match_results)));
   ("similarity_score", best_score);
   ("confidence", best_score);
   ("reasoning", claude_reasoning);
   ("claude_review", PDict claude_review);
   ("business_rule_exception", PBool business_rule_exception);
   ("confidence_threshold", PFloat threshold);
   ("candidates_searched", PInt (total_matches match_results));
   ("search_method", PStr "fuzzy_match_with_ai");
   ("matched_address", best_match)].

(** The merged ranking [all_matches] after the sort. *)
Definition merged_ranking (st : nat -> AddressRecord)
           (match_results : MatchResults) : list nat :=
  sort_desc (score_of st)
            (golden_source_matches match_results
             ++ internal_matches match_results).

(** [claude_review.get('match_analyses', {})] *)
Definition match_analyses_of (claude_review : dict PyVal) : dict PyVal :=
  match dict_get_or claude_review "match_analyses" (PDict []) with
  | PDict d => d
  | _ => []
  end.

(** The statements of [match_address] after the analyses are attached:
    the choice of the best match, the formatting of its score and the
    returned dictionary. *)
Definition assemble (st : nat -> AddressRecord) (input_address : string)
           (match_results : MatchResults) (claude_review : dict PyVal)
           (all_matches : list nat) : Exn + dict PyVal :=
  chosen <-? choose_best st claude_review all_matches ;;
  let '(best_match, best_score, claude_reasoning) := chosen in
  _ <-? best_match_text st best_match source_type "unknown" ;;
  _ <-? best_match_text st best_match source_table "Unknown" ;;
  score <-? format_2f best_score ;;
  _ <-? best_match_text st best_match MasterAddress "N/A" ;;
  let business_rule_exception := Qltb score (FUZZY_MATCH_THRESHOLD env) in
  inr (match_result (FUZZY_MATCH_THRESHOLD env) input_address match_results
                    best_match best_score claude_reasoning claude_review
                    business_rule_exception).

Definition match_address (input_address : string)
           (match_results : MatchResults) : M (dict PyVal) :=
  if (total_matches match_results =? 0)%Z then
    ret (no_match_result input_address)
  else
    st0 <- get_store ;;
    let all_matches := merged_ranking st0 match_results in
    claude_review <-
      _review_fuzzy_matches_with_claude input_address (top10 all_matches)
        (top10 (golden_source_matches match_results))
        (top10 (internal_matches match_results)) ;;
    let match_analyses := match_analyses_of claude_review in
    _ <- attach_analyses "gs_" match_analyses 0
           (top10 (golden_source_matches match_results)) ;;
    _ <- attach_analyses "int_" match_analyses 0
           (top10 (internal_matches match_results)) ;;
    st <- get_store ;;
    lift (assemble st input_address match_results claude_review all_matches).

End WithCollaborators.

End Agent.

(* ================================================================== *)
(** ** main_alt.py : the command line entry point *)
(* ================================================================== *)

Module Cli.
Import PyStr.

(** A printed line: fixed text, possibly followed by a formatted value. *)
Inductive Out :=
| Line (text : string)
| LineVal (text : string) (v : PyVal).

Record Run := mkRun { stdout : list Out; exit_code : Z }.

(** [d[k]] *)
Definition getitem (d : dict PyVal) (k : string) : Exn + PyVal :=
  match dict_get d k with
  | Some v => inr v
  | None => inl (mkExn KeyError ("'" ++ k ++ "'"))
  end.

Definition table_keywords : list string :=
  ["addresses"; "table"; "backup"; "_alt"].

(** The argument parsing of [main]: the address and the table name, or
    [None] when the usage text is printed and the process exits with 1. *)
Definition parse_args (argv : list string) (table_alt : option string)
  : option (string * string) :=
  if length argv <? 2 then None
  else
    let args := tl argv in
    let '(input_address, table_name) :=
      if 3 <=? length argv then
        let potential_table := last argv EmptyString in
        if contains "." potential_table
           || existsb (fun keyword => contains keyword (lower potential_table))
                      table_keywords
        then (join " " (removelast args), Some potential_table)
        else (join " " args, None)
      else (hd EmptyString args, None) in
    let table :=
      match table_name with
      | Some t => if is_empty t then None else Some t
      | None => None
      end in
    Some (input_address,
          match table with
          | Some t => t
          | None =>
              match table_alt with
              | Some t => if is_empty t then "addresses_backup" else t
              | None => "addresses_backup"
              end
          end).

(** [isinstance(confidence, (int, float))] *)
Definition is_number (v : PyVal) : bool :=
  match v with
  | PBool _ | PInt _ | PFloat _ => true
  | _ => false
  end.

Definition rule : Out := Line "============================================================".

(** The statements of the [try] block after [match_address] returned:
    what was printed, and the exception that ended the block if any. *)
Definition report (result : dict PyVal) : list Out * option Exn :=
  let out0 := [rule; Line "MATCH RESULT"; rule] in
  match getitem result "input_address" with
  | inl e => (out0, Some e)
  | inr input_address =>
      let out1 :=
        out0 ++ [LineVal "Input Address: " input_address]
        ++ match dict_get result "candidates_searched" with
           | Some n => [LineVal "Candidates Searched: " n]
           | None => []
           end
        ++ [Line "Claude's Analysis:"] in
      match getitem result "claude_response" with
      | inl e => (out1, Some e)
      | inr (PDict claude_response) =>
          let confidence :=
            dict_get_or claude_response "confidence" (PStr "N/A") in
          let business_rule_exception :=
            dict_get_or claude_response "business_rule_exception"
                        (PBool false) in
          let confidence_threshold :=
            dict_get_or result "confidence_threshold" (PFloat 90) in
          let reasoning :=
            LineVal "Reasoning: "
                    (dict_get_or claude_response "reasoning" (PStr "N/A")) in
          if py_truthy (dict_get_or claude_response "match_found" PNone) then
            let out2 :=
              out1 ++ [Line "Match Found!"; LineVal "Confidence: " confidence]
              ++ (if py_truthy business_rule_exception
                  then [LineVal "BUSINESS RULE EXCEPTION: Confidence below threshold"
                                confidence_threshold;
                        Line "This match requires manual review."]
                  else [])
              ++ [Line "Matched Address:"] in
            match dict_get_or claude_response "matched_address" (PDict []) with
            | PDict matched =>
                (out2 ++ map (fun kv => LineVal (fst kv) (snd kv)) matched
                 ++ [reasoning; rule], None)
            | PRec r => (out2 ++ [LineVal "record" (PRec r); reasoning; rule], None)
            | other =>
                (out2,
                 Some (mkExn AttributeError
                         ("'" ++ type_name other
                          ++ "' object has no attribute 'items'")))
            end
          else
            (out1 ++ [Line "No Match Found"]
             ++ (if negb (py_eq_str confidence "N/A") && is_number confidence
                 then [LineVal "Confidence: " confidence]
                 else [])
             ++ [reasoning; rule], None)
      | inr _ =>
          match getitem result "raw_response" with
          | inl e => (out1, Some e)
          | inr raw => (out1 ++ [LineVal EmptyString raw; rule], None)
          end
      end
  end.

Section WithCollaborators.
Variable env : Collaborators.
(** The retriever of the agent, [fuzzy_match_addresses]. *)
Variable fuzzy_match_addresses : string -> MatchResults.

(** [main], from [sys.argv] and the value of [GOLDEN_SOURCE_TABLE_ALT]. *)
Definition main (argv : list string) (table_alt : option string)
  : World -> Run * World :=
  fun w =>
    match parse_args argv table_alt with
    | None =>
        (mkRun [Line "Usage: python main_alt.py '<address to match>' [table_name]"] 1,
         w)
    | Some (input_address, table_name) =>
        let banner :=
          [rule;
           Line "OneTrueAddress Agent - Address Matching (Alternative Table)";
           rule; LineVal "Using Table: " (PStr table_name)] in
        match Agent.match_address env input_address
                (fuzzy_match_addresses input_address) w with
        | (inl e, w') =>
            (mkRun (banner ++ [LineVal "Error: " (PStr (exn_str e))]) 1, w')
        | (inr result, w') =>
            match report result with
            | (out, Some e) =>
                (mkRun (banner ++ out ++ [LineVal "Error: " (PStr (exn_str e))]) 1,
                 w')
            | (out, None) => (mkRun (banner ++ out) 0, w')
            end
        end
    end.

End WithCollaborators.

End Cli.

(* ================================================================== *)
(** ** golden_source.py : rows, queries and the three retrieval functions *)
(* ================================================================== *)

Module Retrieval.
Import PyStr ExactMatch.

(** Truth value of a cell. *)
Definition cell_truthy (c : Cell) : bool :=
  match c with
  | CNone => false
  | CBool b => b
  | CInt z => negb (z =? 0)%Z
  | CStr s => negb (is_empty s)
  end.

(** [{columns[i]: row[i] for i in range(len(columns))}] : the row is read
    at every index of the column list. *)
Fixpoint row_dict (columns : list string) (row : list Cell) (acc : Row)
  : Exn + Row :=
  match columns with
  | [] => inr acc
  | column :: columns' =>
      match row with
      | [] => inl (mkExn IndexError "tuple index out of range")
      | value :: row' => row_dict columns' row' (dict_set acc column value)
      end
  end.

Definition row_to_dict (columns : list string) (row : list Cell) : Exn + Row :=
  row_dict columns row [].

(** The loop [for row in rows] building the list of dictionaries. *)
Fixpoint rows_to_dicts (columns : list string) (rows : list (list Cell))
  : Exn + list Row :=
  match rows with
  | [] => inr []
  | row :: rest =>
      d <-? row_to_dict columns row ;;
      ds <-? rows_to_dicts columns rest ;;
      inr (d :: ds)
  end.

(** [s.split(sep)] for a one-character separator. *)
Fixpoint split_on (sep : ascii) (s : string) : list string :=
  match s with
  | EmptyString => [EmptyString]
  | String c t =>
      if Ascii.eqb c sep then EmptyString :: split_on sep t
      else match split_on sep t with
           | w :: ws => String c w :: ws
           | [] => [String c EmptyString]
           end
  end.

(** A name between double quotes. *)
Definition dq (name : string) : string :=
  (String Parser.quote_char name ++ String Parser.quote_char EmptyString)%string.

(** The parsing of a table setting: schema and table name when the
    setting has exactly one dot, else no schema and the setting itself. *)
Definition table_parts (table_setting : string) : option string * string :=
  match split_on "." table_setting with
  | [schema_name; table_name] => (Some schema_name, table_name)
  | _ => (None, table_setting)
  end.

(** The schema where the code tests [if schema_name:]. *)
Definition schema_if_truthy (schema_name : option string) : option string :=
  match schema_name with
  | Some s => if is_empty s then None else Some s
  | None => None
  end.

(** [f'"{schema_name}"."{table_name}"'] or [f'"{table_name}"'] *)
Definition quoted_table (schema_name : option string) (table_name : string)
  : string :=
  match schema_name with
  | Some s => (dq s ++ "." ++ dq table_name)%string
  | None => dq table_name
  end.

(** What is sent to the cursor. *)
Inductive Statement :=
| InfoSchemaColumns (table_schema : option string) (table_name : string)
| Describe (table : string)
| PragmaTableInfo (table : string)
| Select (query : string) (params : list Cell).

(** The database behind the connection: whether [connection.cursor()]
    raises, the column names an introspection statement yields (the list
    comprehension over [fetchall()]), and the rows of a select. *)
Record Database := mkDatabase {
  cursor_error : option Exn;
  column_names : Statement -> Exn + list string;
  fetchall : Statement -> Exn + list (list Cell)
}.

(** The settings read from [config]. *)
Record Settings := mkSettings {
  db_type : string;
  GOLDEN_SOURCE_TABLE : string;
  PINELLAS_TABLE : string
}.

(** The outcome of a call together with the statements it executed. *)
Definition Logged (A : Type) : Type := A * list Statement.

Section WithDatabase.
Variable cfg : Settings.
Variable db : Database.

(** The introspection statement chosen by the database type. *)
Definition introspection (schema_name : option string) (table_name : string)
           (table_setting : string) : Statement :=
  if String.eqb (lower (db_type cfg)) "postgresql" then
    InfoSchemaColumns (schema_if_truthy schema_name) table_name
  else if String.eqb (lower (db_type cfg)) "mysql" then
    Describe table_setting
  else PragmaTableInfo table_setting.

(** [get_all_addresses] *)
Definition get_all_addresses : Logged (Exn + list Row) :=
  match cursor_error db with
  | Some e => (inl e, [])
  | None =>
      let '(schema_name, table_name) := table_parts (GOLDEN_SOURCE_TABLE cfg) in
      let describe :=
        introspection schema_name table_name (GOLDEN_SOURCE_TABLE cfg) in
      match column_names db describe with
      | inl e => (inl e, [describe])
      | inr columns =>
          let select :=
            Select ("SELECT * FROM "
                    ++ quoted_table (schema_if_truthy schema_name) table_name)
                   [] in
          match fetchall db select with
          | inl e => (inl e, [describe; select])
          | inr rows => (rows_to_dicts columns rows, [describe; select])
          end
      end
  end.

Definition target_columns : list string :=
  ["address1"; "address2"; "Mailing City"; "state"; "zipcode"].

(** [f'%{value}%'] *)
Definition like_pattern (value : Cell) : Cell :=
  CStr ("%" ++ py_str value ++ "%").

(** One filter of [get_filtered_addresses]: the condition text and its
    parameter when the criterion is truthy. *)
Definition criterion (search_criteria : dict Cell) (key column : string)
  : list (string * Cell) :=
  let value := dict_get_or search_criteria key CNone in
  if cell_truthy value
  then [((dq column ++ "::text ILIKE %s")%string, like_pattern value)]
  else [].

Definition and_conditions (search_criteria : dict Cell) : list (string * Cell) :=
  criterion search_criteria "state" "state"
  ++ criterion search_criteria "city" "Mailing City".

Definition address1_or_conditions (search_criteria : dict Cell)
  : list (string * Cell) :=
  criterion search_criteria "street_name" "address1"
  ++ criterion search_criteria "street_type" "address1".

(** [params], in the order the conditions were appended. *)
Definition filter_params (search_criteria : dict Cell) : list Cell :=
  map snd (and_conditions search_criteria)
  ++ map snd (address1_or_conditions search_criteria).

(** [where_parts] *)
Definition where_parts (search_criteria : dict Cell) : list string :=
  map fst (and_conditions search_criteria)
  ++ match map fst (address1_or_conditions search_criteria) with
     | [] => []
     | [single] => [single]
     | several => [("(" ++ join " OR " several ++ ")")%string]
     end.

(** [where_clause], empty when there is no criterion. *)
Definition where_clause (search_criteria : dict Cell) : string :=
  match where_parts search_criteria with
  | [] => EmptyString
  | parts => (" WHERE " ++ join " AND " parts)%string
  end.

Definition filter_query (search_criteria : dict Cell) (limit : Z) : string :=
  let '(schema_name, table_name) := table_parts (GOLDEN_SOURCE_TABLE cfg) in
  ("SELECT " ++ join ", " (map dq target_columns) ++ " FROM "
   ++ quoted_table schema_name table_name
   ++ where_clause search_criteria ++ " LIMIT " ++ str_of_Z limit)%string.

(** [raise ValueError(f"Database query error: {error_msg}")] *)
Definition query_error (e : Exn) : Exn :=
  mkExn ValueError ("Database query error: " ++ exn_str e).

(** [get_filtered_addresses] *)
Definition get_filtered_addresses (search_criteria : dict Cell) (limit : Z)
  : Logged (Exn + list Row) :=
  match cursor_error db with
  | Some e => (inl (query_error e), [])
  | None =>
      let select :=
        Select (filter_query search_criteria limit)
               (filter_params search_criteria) in
      match fetchall db select with
      | inl e => (inl (query_error e), [select])
      | inr rows =>
          (match rows_to_dicts target_columns rows with
           | inl e => inl (query_error e)
           | inr addresses => inr addresses
           end,
           [select])
      end
  end.

(** The query built by [get_pinellas_matches] from the mapped columns, the
    decomposed address and the state. *)
Definition pinellas_select (quoted address_col state_col : string)
           (d : Decomposer.DecomposedAddress) (state : Cell) : Statement :=
  Select
    ("SELECT * FROM " ++ quoted ++ " WHERE "
     ++ join " AND " [(dq address_col ++ "::text ILIKE %s")%string;
                      (dq address_col ++ "::text ILIKE %s")%string;
                      (dq state_col ++ "::text ILIKE %s")%string])
    [CStr (Decomposer.street_number d ++ "%");
     CStr ("%" ++ Decomposer.street_name_core d ++ "%");
     state].

(** [get_pinellas_matches] : every exception ends in the empty list. *)
Definition get_pinellas_matches (golden_address : Row) : Logged (list Row) :=
  match cursor_error db with
  | Some _ => ([], [])
  | None =>
      let '(schema_name, table_name) := table_parts (PINELLAS_TABLE cfg) in
      let describe :=
        introspection schema_name table_name (PINELLAS_TABLE cfg) in
      match column_names db describe with
      | inl _ => ([], [describe])
      | inr all_columns =>
          let column_mapping :=
            fst (SchemaMapper._get_pinellas_column_mapping all_columns) in
          if negb (SchemaMapper.truthy (SchemaMapper.address column_mapping))
          then ([], [describe])
          else if negb (SchemaMapper.truthy (SchemaMapper.state column_mapping))
          then ([], [describe])
          else
            let address1 := dict_get_or golden_address "address1" (CStr EmptyString) in
            let state := dict_get_or golden_address "state" (CStr EmptyString) in
            if negb (cell_truthy address1) || negb (cell_truthy state)
            then ([], [describe])
            else
              match Decomposer.decompose (py_str address1) with
              | None => ([], [describe])
              | Some d =>
                  let select :=
                    pinellas_select
                      (quoted_table schema_name table_name)
                      (match SchemaMapper.address column_mapping with
                       | Some c => c | None => EmptyString end)
                      (match SchemaMapper.state column_mapping with
                       | Some c => c | None => EmptyString end)
                      d state in
                  match fetchall db select with
                  | inl _ => ([], [describe; select])
                  | inr rows =>
                      (match rows_to_dicts all_columns rows with
                       | inl _ => []
                       | inr matches => matches
                       end,
                       [describe; select])
                  end
              end
      end
  end.

End WithDatabase.

End Retrieval.

(* ================================================================== *)
(** ** golden_source.py : opening the connection *)
(* ================================================================== *)

Module Connector.
Import PyStr.

(** The connection settings read from [config]; an unset variable is
    [None]. *)
Record Credentials := mkCredentials {
  GOLDEN_SOURCE_DB_TYPE : string;
  GOLDEN_SOURCE_HOST : option string;
  GOLDEN_SOURCE_PORT : string;
  GOLDEN_SOURCE_DATABASE : option string;
  GOLDEN_SOURCE_USER : option string;
  GOLDEN_SOURCE_PASSWORD : option string
}.

(** An exception raised by a driver: [type(e).__name__], [str(type(e))],
    [str(e)] and whether it is a [mysql.connector.Error]. *)
Record DriverError := mkDriverError {
  type_name : string;
  type_str : string;
  error_msg : string;
  is_mysql_error : bool
}.

Record Connection := mkConnection { handle : nat; autocommit : bool }.

(** The keyword arguments of a [connect] call. *)
Record ConnectArgs := mkArgs {
  arg_host : string;
  arg_port : string;
  arg_database : string;
  arg_user : string;
  arg_password : string
}.

(** The installed drivers and what their [connect] answers. *)
Record Drivers := mkDrivers {
  psycopg2_installed : bool;
  psycopg2_connect : ConnectArgs -> DriverError + nat;
  mysql_installed : bool;
  mysql_connect : ConnectArgs -> DriverError + nat;
  sqlite3_installed : bool;
  sqlite3_connect : option string -> DriverError + nat
}.

Inductive ConnectFailure :=
| ImportError (text : string)
| ValueError (text : string)
| Propagated (e : DriverError).

(** A connect call that was made. *)
Inductive Attempt :=
| Psycopg2 (args : ConnectArgs)
| MySql (args : ConnectArgs)
| Sqlite3 (database : option string).

(** [not VALUE] for a setting. *)
Definition unset (v : option string) : bool :=
  match v with
  | Some s => is_empty s
  | None => true
  end.

Definition text_of (v : option string) : string :=
  match v with Some s => s | None => "None" end.

Definition nl : string := String (ascii_of_nat 10) EmptyString.

(** The first credential that is not set, as the message of the
    [ValueError]. *)
Definition missing_credential (c : Credentials) : option string :=
  if unset (GOLDEN_SOURCE_HOST c) then
    Some "GOLDEN_SOURCE_HOST environment variable is not set"
  else if unset (GOLDEN_SOURCE_DATABASE c) then
    Some "GOLDEN_SOURCE_DATABASE environment variable is not set"
  else if unset (GOLDEN_SOURCE_USER c) then
    Some "GOLDEN_SOURCE_USER environment variable is not set"
  else if unset (GOLDEN_SOURCE_PASSWORD c) then
    Some "GOLDEN_SOURCE_PASSWORD environment variable is not set"
  else None.

Definition connect_args (c : Credentials) : ConnectArgs :=
  mkArgs (text_of (GOLDEN_SOURCE_HOST c)) (GOLDEN_SOURCE_PORT c)
         (text_of (GOLDEN_SOURCE_DATABASE c)) (text_of (GOLDEN_SOURCE_USER c))
         (text_of (GOLDEN_SOURCE_PASSWORD c)).

(** The message raised for a failed PostgreSQL connection. *)
Definition postgresql_failure (c : Credentials) (e : DriverError) : string :=
  let user := text_of (GOLDEN_SOURCE_USER c) in
  let host := text_of (GOLDEN_SOURCE_HOST c) in
  let port := GOLDEN_SOURCE_PORT c in
  let database := text_of (GOLDEN_SOURCE_DATABASE c) in
  if String.eqb (type_name e) "OperationalError"
     || contains "OperationalError" (type_str e) then
    if contains "password authentication failed" (lower (error_msg e)) then
      ("PostgreSQL authentication failed for user '" ++ user ++ "'." ++ nl
       ++ "Connection details: host=" ++ host ++ ", port=" ++ port
       ++ ", database=" ++ database ++ nl
       ++ "Please verify:" ++ nl
       ++ "  1. The password in GOLDEN_SOURCE_PASSWORD is correct" ++ nl
       ++ "  2. The user '" ++ user
       ++ "' exists and has access to the database" ++ nl
       ++ "  3. The database server allows connections from your IP address"
       ++ nl
       ++ "  4. Check your .env file or environment variables" ++ nl
       ++ nl ++ "Original error: " ++ error_msg e)%string
    else if contains "could not connect" (lower (error_msg e))
            || contains "connection refused" (lower (error_msg e)) then
      ("Could not connect to PostgreSQL server at " ++ host ++ ":" ++ port
       ++ "." ++ nl
       ++ "Please verify:" ++ nl
       ++ "  1. The server is running and accessible" ++ nl
       ++ "  2. The host and port are correct" ++ nl
       ++ "  3. Your firewall allows connections to this server" ++ nl
       ++ nl ++ "Original error: " ++ error_msg e)%string
    else ("PostgreSQL connection error: " ++ error_msg e)%string
  else ("Failed to connect to PostgreSQL database: " ++ error_msg e)%string.

(** The message raised for a failed MySQL connection. *)
Definition mysql_failure (c : Credentials) (e : DriverError) : string :=
  let user := text_of (GOLDEN_SOURCE_USER c) in
  let host := text_of (GOLDEN_SOURCE_HOST c) in
  let port := GOLDEN_SOURCE_PORT c in
  let database := text_of (GOLDEN_SOURCE_DATABASE c) in
  if is_mysql_error e then
    if contains "access denied" (lower (error_msg e))
       || contains "authentication" (lower (error_msg e)) then
      ("MySQL authentication failed for user '" ++ user ++ "'." ++ nl
       ++ "Connection details: host=" ++ host ++ ", port=" ++ port
       ++ ", database=" ++ database ++ nl
       ++ "Please verify your credentials in the .env file or environment variables."
       ++ nl
       ++ nl ++ "Original error: " ++ error_msg e)%string
    else ("MySQL connection error: " ++ error_msg e)%string
  else ("Failed to connect to MySQL database: " ++ error_msg e)%string.

(** [_connect] : the connection or the exception raised, and the connect
    calls made. *)
Definition _connect (c : Credentials) (drivers : Drivers)
  : (ConnectFailure + Connection) * list Attempt :=
  let kind := lower (GOLDEN_SOURCE_DB_TYPE c) in
  if String.eqb kind "postgresql" then
    if negb (psycopg2_installed drivers) then
      (inl (ImportError
              "psycopg2 is required for PostgreSQL. Install with: pip install psycopg2-binary"),
       [])
    else
      match missing_credential c with
      | Some text => (inl (ValueError text), [])
      | None =>
          match psycopg2_connect drivers (connect_args c) with
          | inr h => (inr (mkConnection h true), [Psycopg2 (connect_args c)])
          | inl e =>
              (inl (ValueError (postgresql_failure c e)),
               [Psycopg2 (connect_args c)])
          end
      end
  else if String.eqb kind "mysql" then
    if negb (mysql_installed drivers) then
      (inl (ImportError
              "mysql-connector-python is required for MySQL. Install with: pip install mysql-connector-python"),
       [])
    else
      match missing_credential c with
      | Some text => (inl (ValueError text), [])
      | None =>
          match mysql_connect drivers (connect_args c) with
          | inr h => (inr (mkConnection h false), [MySql (connect_args c)])
          | inl e =>
              (inl (ValueError (mysql_failure c e)), [MySql (connect_args c)])
          end
      end
  else if String.eqb kind "sqlite" then
    if negb (sqlite3_installed drivers) then
      (inl (ImportError "sqlite3 should be included with Python"), [])
    else
      match sqlite3_connect drivers (GOLDEN_SOURCE_DATABASE c) with
      | inr h =>
          (inr (mkConnection h false), [Sqlite3 (GOLDEN_SOURCE_DATABASE c)])
      | inl e => (inl (Propagated e), [Sqlite3 (GOLDEN_SOURCE_DATABASE c)])
      end
  else
    (inl (ValueError ("Unsupported database type: " ++ GOLDEN_SOURCE_DB_TYPE c)),
     []).

End Connector.

(* ================================================================== *)
(** * Vocabulary of the properties *)
(* ================================================================== *)

(** The four normal forms the verifier computes for an internal record
    equal the four it computes for the golden record. *)
Definition fields_agree (golden_address : ExactMatch.Row)
           (cols : ExactMatch.Sniffed) (internal_record : ExactMatch.Row)
  : Prop :=
  ExactMatch.golden_field golden_address "address1" =
  ExactMatch.internal_field internal_record (ExactMatch.address_col cols) /\
  ExactMatch.golden_field golden_address "Mailing City" =
  ExactMatch.internal_field internal_record (ExactMatch.city_col cols) /\
  ExactMatch.golden_field golden_address "state" =
  ExactMatch.internal_field internal_record (ExactMatch.state_col cols) /\
  ExactMatch.golden_field golden_address "zipcode" =
  ExactMatch.internal_field internal_record (ExactMatch.zip_col cols).

(** The columns sniffed for a candidate list: those of its first record. *)
Definition sniffed_of (internal_matches : list ExactMatch.Row)
  : ExactMatch.Sniffed :=
  ExactMatch.sniff_columns (hd [] internal_matches).

(** The column sniffed for a canonical field, and the key of the golden
    record it is compared with. *)
Definition sniffed_col (f : ExactMatch.Field) (cols : ExactMatch.Sniffed)
  : option string :=
  match f with
  | ExactMatch.FAddress => ExactMatch.address_col cols
  | ExactMatch.FCity => ExactMatch.city_col cols
  | ExactMatch.FState => ExactMatch.state_col cols
  | ExactMatch.FZip => ExactMatch.zip_col cols
  end.

Definition golden_key (f : ExactMatch.Field) : string :=
  match f with
  | ExactMatch.FAddress => "address1"
  | ExactMatch.FCity => "Mailing City"
  | ExactMatch.FState => "state"
  | ExactMatch.FZip => "zipcode"
  end.

(** Every character of the text satisfies the test. *)
Fixpoint all_chars (p : ascii -> bool) (s : string) : bool :=
  match s with
  | EmptyString => true
  | String c t => p c && all_chars p t
  end.

(** The comparison of the exact-match verifier in the words of the
    specification, section 4.6: four fields compared case-insensitively
    after whitespace trimming, two empty texts being equal. These
    definitions say what trimming and ignoring the case mean without the
    functions of the verifier; the properties relate the two. *)
Module VerifierSpec.

(** The text is whitespace only. *)
Definition blank (s : string) : Prop := all_chars PyStr.is_space s = true.

(** Neither the first nor the last character of the text is whitespace. *)
Definition unpadded (core : string) : Prop :=
  forall c rest,
    core = String c rest \/ core = (rest ++ String c EmptyString)%string ->
    PyStr.is_space c = false.

(** [core] is the text [s] without the whitespace around it. *)
Definition trimmed (s core : string) : Prop :=
  unpadded core /\
  exists l r, blank l /\ blank r /\ s = (l ++ core ++ r)%string.

(** The code points of the capital letters: A..Z and the accented
    capitals of Latin-1. The small letter is 32 code points higher. *)
Definition capital (n : nat) : Prop :=
  (65 <= n /\ n <= 90) \/ (192 <= n /\ n <= 222 /\ n <> 215).

(** The same character up to letter case. *)
Definition same_letter (c d : ascii) : Prop :=
  c = d \/
  (capital (nat_of_ascii c) /\ nat_of_ascii d = nat_of_ascii c + 32) \/
  (capital (nat_of_ascii d) /\ nat_of_ascii c = nat_of_ascii d + 32).

Inductive same_letters : string -> string -> Prop :=
| same_end : same_letters EmptyString EmptyString
| same_next c d s t :
    same_letter c d -> same_letters s t ->
    same_letters (String c s) (String d t).

(** Equal case-insensitively after whitespace trimming. *)
Definition same_text (a b : string) : Prop :=
  exists core_a core_b,
    trimmed a core_a /\ trimmed b core_b /\ same_letters core_a core_b.

(** The text a stored value is compared as: the text itself, the decimal
    numeral of an integer, the words None, True and False. *)
Definition text_of (v : ExactMatch.Cell) : string :=
  match v with
  | ExactMatch.CStr s => s
  | ExactMatch.CInt z => NilZero.string_of_int (Z.to_int z)
  | ExactMatch.CNone => "None"
  | ExactMatch.CBool b => if b then "True" else "False"
  end.

(** The text of a field of a record: the value under the column of the
    field; the empty text when the field has no column or the record holds
    nothing under it. *)
Definition field_text (record : ExactMatch.Row) (col : option string)
  : string :=
  match col with
  | Some key =>
      match dict_get record key with
      | Some v => text_of v
      | None => EmptyString
      end
  | None => EmptyString
  end.

(** The candidate agrees with the golden record on the four fields. *)
Definition agrees (golden : ExactMatch.Row) (cols : ExactMatch.Sniffed)
           (candidate : ExactMatch.Row) : Prop :=
  forall f : ExactMatch.Field,
    same_text (field_text golden (Some (golden_key f)))
              (field_text candidate (sniffed_col f cols)).

End VerifierSpec.

(** Concrete records used to run the verifier. *)
Module Tampa.
Import ExactMatch.

(** The characters U+00C9, U+00E9 (E with acute, capital and small) and
    U+00A0 (no-break space). *)
Definition E_acute : string := String (ascii_of_nat 201) EmptyString.
Definition e_acute : string := String (ascii_of_nat 233) EmptyString.
Definition nbsp : string := String (ascii_of_nat 160) EmptyString.

Definition golden_record (address1 city state zipcode : Cell) : Row :=
  [("address1", address1); ("Mailing City", city); ("state", state);
   ("zipcode", zipcode)].

Definition golden : Row :=
  golden_record (CStr "100 Main St") (CStr "Tampa") (CStr "FL") (CInt 33601).

Definition candidate (street city st zip : Cell) : Row :=
  [("Street", street); ("City", city); ("St", st); ("Zip", zip)].

(** The golden values under other column names. *)
Definition renamed : Row :=
  [("Address", CStr "100 Main St"); ("Town", CStr "Tampa");
   ("State", CStr "FL"); ("Postal", CStr "33601")].

End Tampa.

(** The world after a request was sent. *)
Definition after_request (w : World) (prompt : Prompt) : World :=
  mkWorld (store w) (requests w ++ [prompt]).

(** The position an index stands for: an [int], or a [bool] counting as
    0 or 1. Text, null, a float, a list or an object is no position. *)
Definition index_value (v : PyVal) : option Z :=
  match v with
  | PInt z => Some z
  | PBool b => Some (if b then 1 else 0)%Z
  | _ => None
  end.

(** The best-match pointer of a parsed verdict cannot be followed: its
    source is neither of the two names, or its index is no position, or
    its 1-based index lies outside the candidate list of the source it
    names ([n_gs] and [n_int] are the lengths of the truncated lists). *)
Definition pointer_invalid (parsed_response : dict PyVal) (n_gs n_int : nat)
  : Prop :=
  let source :=
    dict_get_or parsed_response "best_match_source" (PStr "golden_source") in
  let index := dict_get_or parsed_response "best_match_index" (PInt 1) in
  (source <> PStr "golden_source" /\ source <> PStr "internal") \/
  index_value index = None \/
  (exists i : Z,
      index_value index = Some i /\
      ((source = PStr "golden_source" /\ (i < 1 \/ Z.of_nat n_gs < i)%Z) \/
       (source = PStr "internal" /\ (i < 1 \/ Z.of_nat n_int < i)%Z))).

(** The same collaborators with another value of the setting
    [FUZZY_MATCH_THRESHOLD], and with another value of the setting
    [CONFIDENCE_THRESHOLD]. *)
Definition with_threshold (env : Collaborators) (threshold : Q)
  : Collaborators :=
  mkCollab (json_loads env) (py_int env) (messages_create env)
           (CONFIDENCE_THRESHOLD env) threshold.

Definition with_confidence_threshold (env : Collaborators) (threshold : Q)
  : Collaborators :=
  mkCollab (json_loads env) (py_int env) (messages_create env)
           threshold (FUZZY_MATCH_THRESHOLD env).

(** Concrete candidates, responses and collaborators used to run the
    model. The JSON oracle answers as [json.loads] does on the texts it is
    asked about here: it parses the one verdict below and rejects plain
    prose. *)
Module Demo.

Definition candidates : nat -> AddressRecord :=
  fun r =>
    match r with
    | 0 => mkRecord "100 MAIN ST TAMPA FL" (60 # 1) "golden_source" "golden" None
    | 1 => mkRecord "100 MAIN STREET TAMPA FL" (90 # 1) "internal" "internal" None
    | 2 => mkRecord "100 MAINE ST TAMPA FL" (75 # 1) "golden_source" "golden" None
    | _ => mkRecord "10 MAIN ST TAMPA FL" (50 # 1) "golden_source" "golden" None
    end.

Definition world : World := mkWorld candidates [].

Definition quoted (s : string) : string :=
  (String Parser.quote_char s ++ String Parser.quote_char EmptyString)%string.

(** A verdict pointing at the fifth golden-source candidate. *)
Definition verdict_index5 : string :=
  ("{" ++ quoted "best_match_source" ++ ": " ++ quoted "golden_source" ++ ", "
   ++ quoted "best_match_index" ++ ": 5, " ++ quoted "confidence" ++ ": 70}")%string.

Definition prose : string := "I cannot decide between these candidates.".

Definition loads (text : string) : option PyVal :=
  if String.eqb text verdict_index5 then
    Some (PDict [("best_match_source", PStr "golden_source");
                 ("best_match_index", PInt 5);
                 ("confidence", PInt 70)])
  else None.

(** [int()] on a run of decimal digits. *)
Definition decimal (s : string) : option Z :=
  if negb (PyStr.is_empty s)
     && forallb PyStr.is_decimal (list_ascii_of_string s)
  then Some (fold_left (fun acc c => (10 * acc + Z.of_nat (nat_of_ascii c) - 48)%Z)
                       (list_ascii_of_string s) 0%Z)
  else None.

Definition env_prose : Collaborators :=
  mkCollab loads decimal (fun _ => inr prose) (90 # 1) (80 # 1).

Definition env_index5 : Collaborators :=
  mkCollab loads decimal (fun _ => inr verdict_index5) (90 # 1) (80 # 1).

Definition env_down : Collaborators :=
  mkCollab loads decimal
           (fun _ => inl (mkExn ClientError "Connection error."))
           (90 # 1) (80 # 1).

Definition one_each : MatchResults := mkResults [0] [1] 2.
Definition three_golden : MatchResults := mkResults [0; 2; 3] [1] 4.

End Demo.

(** The result with the advisory flag and the reported threshold
    recomputed for another threshold; a result without a numeric
    confidence is left as it is. *)
Definition with_flag_for (threshold : Q) (result : dict PyVal) : dict PyVal :=
  match dict_get result "confidence" with
  | Some confidence =>
      match num_of confidence with
      | Some c =>
          dict_set
            (dict_set result "business_rule_exception"
                      (PBool (Qltb c threshold)))
            "confidence_threshold" (PFloat threshold)
      | None => result
      end
  | None => result
  end.

(** Two stores that differ at most in the attached analyses. *)
Definition same_but_analysis (st st' : nat -> AddressRecord) : Prop :=
  forall r,
    MasterAddress (st' r) = MasterAddress (st r) /\
    similarity_score (st' r) = similarity_score (st r) /\
    source_type (st' r) = source_type (st r) /\
    source_table (st' r) = source_table (st r).

(** A non-empty text without whitespace. *)
Definition is_token (w : string) : bool :=
  negb (PyStr.is_empty w) && all_chars (fun c => negb (PyStr.is_space c)) w.

(** The text is not empty and its last character is not whitespace. *)
Fixpoint ends_in_text (s : string) : bool :=
  match s with
  | EmptyString => false
  | String c EmptyString => negb (PyStr.is_space c)
  | String _ t => ends_in_text t
  end.

(** The number of positions of the text at which the pattern starts. *)
Fixpoint count_occurrences (pat s : string) : nat :=
  (if String.prefix pat s then 1 else 0)
  + match s with
    | EmptyString => 0
    | String _ t => count_occurrences pat t
    end.

(** [a] is ranked at least as high as [b]. *)
Definition above (key : nat -> Q) (a b : nat) : Prop := (key b <= key a)%Q.

(** More concrete verdicts and candidates used to run the model. The
    oracle parses the two verdicts below as [json.loads] does. *)
Module Demo2.

(** Twelve and more candidates, candidate [r] having score [r]. *)
Definition graded : nat -> AddressRecord :=
  fun r => mkRecord "1 GRADE ST" (inject_Z (Z.of_nat r)) "golden_source"
                    "golden" None.

Definition twelve : MatchResults :=
  mkResults [0; 1; 2; 3; 4; 5; 6] [7; 8; 9; 10; 11] 12.

(** The model answers that nothing matches. *)
Definition verdict_no_match : string :=
  ("{" ++ Demo.quoted "match_found" ++ ": false, "
   ++ Demo.quoted "reasoning" ++ ": " ++ Demo.quoted "None of these is the address"
   ++ "}")%string.

(** The model answers with a confidence in words. *)
Definition verdict_in_words : string :=
  ("{" ++ Demo.quoted "best_match_source" ++ ": " ++ Demo.quoted "internal"
   ++ ", " ++ Demo.quoted "best_match_index" ++ ": 1, "
   ++ Demo.quoted "confidence" ++ ": " ++ Demo.quoted "high" ++ "}")%string.

(** The model answers with analyses of the first and third golden-source
    candidates. *)
Definition verdict_analyses : string :=
  ("{" ++ Demo.quoted "golden_source_analyses" ++ ": {"
   ++ Demo.quoted "1" ++ ": {" ++ Demo.quoted "confidence" ++ ": 60}, "
   ++ Demo.quoted "3" ++ ": {" ++ Demo.quoted "confidence" ++ ": 50}}}")%string.

Definition loads (text : string) : option PyVal :=
  if String.eqb text verdict_no_match then
    Some (PDict [("match_found", PBool false);
                 ("reasoning", PStr "None of these is the address")])
  else if String.eqb text verdict_in_words then
    Some (PDict [("best_match_source", PStr "internal");
                 ("best_match_index", PInt 1);
                 ("confidence", PStr "high")])
  else if String.eqb text verdict_analyses then
    Some (PDict [("golden_source_analyses",
                  PDict [("1", PDict [("confidence", PInt 60)]);
                         ("3", PDict [("confidence", PInt 50)])])])
  else if String.eqb text "[1, 2]" then Some (PList [PInt 1; PInt 2])
  else None.

Definition env_no_match : Collaborators :=
  mkCollab loads Demo.decimal (fun _ => inr verdict_no_match) (90 # 1) (80 # 1).

Definition env_in_words : Collaborators :=
  mkCollab loads Demo.decimal (fun _ => inr verdict_in_words) (90 # 1) (80 # 1).

Definition env_analyses : Collaborators :=
  mkCollab loads Demo.decimal (fun _ => inr verdict_analyses) (90 # 1) (80 # 1).

Definition env_array : Collaborators :=
  mkCollab loads Demo.decimal (fun _ => inr "[1, 2]") (90 # 1) (80 # 1).

End Demo2.

(** A verdict whose confidence lies between the two settings. *)
Module Demo3.

Definition verdict_85 : string :=
  ("{" ++ Demo.quoted "best_match_source" ++ ": " ++ Demo.quoted "internal"
   ++ ", " ++ Demo.quoted "best_match_index" ++ ": 1, "
   ++ Demo.quoted "confidence" ++ ": 85}")%string.

Definition loads (text : string) : option PyVal :=
  if String.eqb text verdict_85 then
    Some (PDict [("best_match_source", PStr "internal");
                 ("best_match_index", PInt 1);
                 ("confidence", PInt 85)])
  else None.

(** [CONFIDENCE_THRESHOLD = 90], [FUZZY_MATCH_THRESHOLD = 80]. *)
Definition env_85 : Collaborators :=
  mkCollab loads Demo.decimal (fun _ => inr verdict_85) (90 # 1) (80 # 1).

End Demo3.

(** The key names the field, for the sniffing of the verifier. *)
Definition names_field (f : ExactMatch.Field) (key : string) : bool :=
  match ExactMatch.key_field (PyStr.lower key), f with
  | Some ExactMatch.FAddress, ExactMatch.FAddress => true
  | Some ExactMatch.FCity, ExactMatch.FCity => true
  | Some ExactMatch.FState, ExactMatch.FState => true
  | Some ExactMatch.FZip, ExactMatch.FZip => true
  | _, _ => false
  end.

(** Character classes of a response text. *)
Definition not_backtick (c : ascii) : bool := negb (Ascii.eqb c "`").
Definition not_open_brace (c : ascii) : bool := negb (Ascii.eqb c "{").

(** Outside a string literal: no brace, quote or backslash. *)
Definition plain_char (c : ascii) : bool :=
  negb (Ascii.eqb c "{") && negb (Ascii.eqb c "}")
  && negb (Ascii.eqb c Parser.quote_char) && negb (Ascii.eqb c "\").

(** Inside a string literal: no quote or backslash; braces are allowed. *)
Definition literal_char (c : ascii) : bool :=
  negb (Ascii.eqb c Parser.quote_char) && negb (Ascii.eqb c "\").

(** The content of a flat object: text outside string literals and string
    literals without escapes. *)
Inductive Piece :=
| Plain (text : string)
| Quoted (text : string).

Definition piece_ok (p : Piece) : bool :=
  match p with
  | Plain text => all_chars plain_char text
  | Quoted text => all_chars literal_char text
  end.

Definition render_piece (p : Piece) : string :=
  match p with
  | Plain text => text
  | Quoted text =>
      String Parser.quote_char (text ++ String Parser.quote_char EmptyString)
  end.

Fixpoint render (pieces : list Piece) : string :=
  match pieces with
  | [] => EmptyString
  | p :: rest => (render_piece p ++ render rest)%string
  end.

(** A text with every character replaced through [f], as [str.upper] and
    [str.lower] do with their character maps. *)
Fixpoint recase (f : ascii -> ascii) (s : string) : string :=
  match s with
  | EmptyString => EmptyString
  | String c t => String (f c) (recase f t)
  end.

(* ================================================================== *)
(** * Properties *)
(* ================================================================== *)

(** ** Dictionaries *)

Lemma dict_set_in {V} (d : dict V) k v k' v' :
  In (k', v') (dict_set d k v) -> (k' = k /\ v' = v) \/ In (k', v') d.
Proof.
  induction d as [| [k0 v0] d IH]; simpl.
  - intros [H | []]. inversion H. auto.
  - destruct (String.eqb k0 k) eqn:E.
    + apply String.eqb_eq in E. subst k0.
      intros [H | H]; [inversion H; auto | auto].
    + intros [H | H]; [auto |].
      destruct (IH H) as [? | ?]; auto.
Qed.

Lemma dict_set_has_key {V} (d : dict V) k v :
  exists v1, In (k, v1) (dict_set d k v).
Proof.
  induction d as [| [k0 v0] d IH]; simpl.
  - eexists; left; reflexivity.
  - destruct (String.eqb k0 k) eqn:E.
    + apply String.eqb_eq in E. subst k0. eexists; left; reflexivity.
    + destruct IH as [v1 H]. exists v1. right. exact H.
Qed.

Lemma dict_set_keeps_key {V} (d : dict V) k v k0 :
  (exists v0, In (k0, v0) d) -> exists v1, In (k0, v1) (dict_set d k v).
Proof.
  induction d as [| [k1 v1] d IH]; simpl; intros [v0 H].
  - destruct H.
  - destruct (String.eqb k1 k) eqn:E.
    + destruct H as [H | H].
      * inversion H; subst. eexists; left; reflexivity.
      * exists v0. right. exact H.
    + destruct H as [H | H].
      * inversion H; subst. eexists; left; reflexivity.
      * destruct IH as [v2 H2]; [eauto |]. exists v2. right. exact H2.
Qed.

(** ** Substrings *)

Module ContainsFacts.
Import PyStr.

Lemma app_assoc (a b c : string) : ((a ++ b) ++ c = a ++ b ++ c)%string.
Proof.
  induction a as [| x a IH]; simpl; [reflexivity | rewrite IH; reflexivity].
Qed.

Lemma prefix_app p b : String.prefix p (p ++ b) = true.
Proof.
  induction p as [| c p IH]; simpl; [destruct b; reflexivity |].
  destruct (Ascii.ascii_dec c c); [exact IH | congruence].
Qed.

Lemma prefix_split p s :
  String.prefix p s = true -> exists b, s = (p ++ b)%string.
Proof.
  revert s. induction p as [| c p IH]; intros s.
  - intros _. exists s. reflexivity.
  - destruct s as [| d s]; [discriminate |]. simpl.
    destruct (Ascii.ascii_dec c d) as [-> | _]; [| discriminate].
    intros H. destruct (IH s H) as [b ->]. exists b. reflexivity.
Qed.

(** [pat in s] holds exactly when [s] is some text, [pat], some text. *)
Lemma contains_split p s :
  contains p s = true -> exists a b, s = (a ++ p ++ b)%string.
Proof.
  induction s as [| c s IH]; cbn [contains].
  - rewrite orb_false_r. intros H. destruct (prefix_split _ _ H) as [b E].
    exists EmptyString, b. exact E.
  - intros H. apply orb_true_iff in H. destruct H as [H | H].
    + destruct (prefix_split _ _ H) as [b E]. exists EmptyString, b. exact E.
    + destruct (IH H) as (a & b & ->). exists (String c a), b. reflexivity.
Qed.

Lemma contains_built p a b : contains p (a ++ p ++ b) = true.
Proof.
  induction a as [| c a IH].
  - change (EmptyString ++ p ++ b)%string with (p ++ b)%string.
    destruct (p ++ b)%string eqn:E; cbn [contains];
      rewrite <- E, prefix_app; reflexivity.
  - change (String c a ++ p ++ b)%string with (String c (a ++ p ++ b)).
    cbn [contains]. rewrite IH. apply orb_true_r.
Qed.

Lemma contains_part q p s :
  contains q p = true -> contains p s = true -> contains q s = true.
Proof.
  intros Hq Hp.
  destruct (contains_split _ _ Hq) as (a1 & b1 & ->).
  destruct (contains_split _ _ Hp) as (a & b & ->).
  rewrite !app_assoc. rewrite <- (app_assoc a a1).
  apply contains_built.
Qed.

Lemma app_empty (p : string) : (p ++ EmptyString)%string = p.
Proof.
  induction p as [| c p IH]; simpl; [reflexivity | rewrite IH; reflexivity].
Qed.

Lemma contains_whole p : contains p p = true.
Proof.
  pose proof (contains_built p EmptyString EmptyString) as H.
  change (EmptyString ++ p ++ EmptyString)%string
    with (p ++ EmptyString)%string in H.
  rewrite app_empty in H. exact H.
Qed.

Lemma contains_nonempty p s :
  p <> EmptyString -> contains p s = true -> s <> EmptyString.
Proof.
  intros Hp H ->. destruct p; [congruence | discriminate].
Qed.

End ContainsFacts.

(** ** Schema mapper *)

Module SchemaMapperFacts.
Import PyStr SchemaMapper.

Lemma dict_set_new {V} (d : dict V) k (v : V) :
  ~ In k (map fst d) -> dict_set d k v = d ++ [(k, v)].
Proof.
  induction d as [| [k0 v0] d IH]; simpl; intros H; [reflexivity |].
  destruct (String.eqb_spec k0 k) as [-> | _]; [tauto |].
  rewrite IH by tauto. reflexivity.
Qed.

(** With names that stay distinct in lower case, the items of
    [columns_lower] are the columns in their order. *)
Lemma columns_lower_distinct columns :
  NoDup (map lower columns) ->
  columns_lower columns = map (fun col => (lower col, col)) columns.
Proof.
  unfold columns_lower.
  assert (H : forall d,
             NoDup (map fst d ++ map lower columns) ->
             fold_left (fun d col => dict_set d (lower col) col) columns d =
             d ++ map (fun col => (lower col, col)) columns).
  { induction columns as [| col columns IH]; intros d Hnd; simpl.
    - rewrite app_nil_r. reflexivity.
    - simpl in Hnd. rewrite dict_set_new.
      + rewrite IH.
        * rewrite <- app_assoc. reflexivity.
        * rewrite map_app. simpl. rewrite <- app_assoc. exact Hnd.
      + apply NoDup_remove_2 in Hnd. intros Hin. apply Hnd.
        apply in_or_app. left. exact Hin. }
  intros Hnd. apply (H []). exact Hnd.
Qed.

Lemma scan_columns_first test before col after :
  (forall c, In c before -> test (lower c) = false) ->
  test (lower col) = true ->
  scan_columns test
    (map (fun col => (lower col, col)) (before ++ col :: after)) None =
  Some col.
Proof.
  intros Hb Hc. induction before as [| x before IH]; simpl.
  - rewrite Hc. reflexivity.
  - rewrite (Hb x) by (left; reflexivity). simpl.
    apply IH. intros c Hin. apply Hb. right. exact Hin.
Qed.

Lemma scan_columns_nowhere test columns :
  (forall c, In c columns -> test (lower c) = false) ->
  scan_columns test (map (fun col => (lower col, col)) columns) None = None.
Proof.
  intros H. induction columns as [| x columns IH]; simpl; [reflexivity |].
  rewrite (H x) by (left; reflexivity). simpl.
  apply IH. intros c Hin. apply H. right. exact Hin.
Qed.

Lemma lower_nonempty col : lower col <> EmptyString -> col <> EmptyString.
Proof. intros H ->. apply H. reflexivity. Qed.

Lemma columns_lower_fold (columns : list string) (d : dict string) :
  let d' := fold_left (fun d col => dict_set d (lower col) col) columns d in
  (forall k v, In (k, v) d' -> In (k, v) d \/ (In v columns /\ lower v = k)) /\
  (forall k, (exists v, In (k, v) d) -> exists v, In (k, v) d') /\
  (forall c, In c columns -> exists v, In (lower c, v) d').
Proof.
  revert d. induction columns as [| col columns IH]; intros d; simpl.
  - repeat split; auto. intros c [].
  - destruct (IH (dict_set d (lower col) col)) as (I1 & I2 & I3).
    repeat split.
    + intros k v H. destruct (I1 k v H) as [H1 | [H1 H2]].
      * destruct (dict_set_in _ _ _ _ _ H1) as [[-> ->] | H3]; auto.
      * auto.
    + intros k H. apply I2. apply dict_set_keeps_key. exact H.
    + intros c [-> | H].
      * apply I2. apply dict_set_has_key.
      * apply I3. exact H.
Qed.

Lemma columns_lower_sound columns k v :
  In (k, v) (columns_lower columns) -> In v columns /\ lower v = k.
Proof.
  intros H. destruct (columns_lower_fold columns []) as (I1 & _ & _).
  destruct (I1 k v H) as [[] | ?]. assumption.
Qed.

Lemma columns_lower_complete columns c :
  In c columns -> exists v, In (lower c, v) (columns_lower columns).
Proof.
  intros H. destruct (columns_lower_fold columns []) as (_ & _ & I3).
  apply I3. exact H.
Qed.

Lemma scan_columns_found test items v :
  scan_columns test items None = Some v ->
  exists k, In (k, v) items /\ test k = true.
Proof.
  induction items as [| [k0 v0] items IH]; simpl; [discriminate |].
  destruct (test k0) eqn:E; simpl.
  - intros H. inversion H; subst. exists k0. auto.
  - intros H. destruct (IH H) as (k & H1 & H2). exists k. auto.
Qed.

Lemma scan_columns_finds test items k v :
  In (k, v) items -> test k = true ->
  exists v', scan_columns test items None = Some v'.
Proof.
  induction items as [| [k0 v0] items IH]; simpl; [intros [] |].
  intros [H | H] T.
  - inversion H; subst. rewrite T. simpl. eauto.
  - destruct (test k0); simpl; eauto.
Qed.

Lemma scan_columns_none_or_some test items :
  scan_columns test items None = None \/
  exists v, scan_columns test items None = Some v.
Proof.
  destruct (scan_columns test items None); eauto.
Qed.

(** When every column a pattern can select is [a], and some pattern
    selects a column, the pattern-major search binds [a]. *)
Lemma scan_patterns_unique test patterns items a :
  a <> EmptyString ->
  (forall p k v, In p patterns -> In (k, v) items -> test p k = true -> v = a) ->
  (exists p k v, In p patterns /\ In (k, v) items /\ test p k = true) ->
  scan_patterns test patterns items None = Some a.
Proof.
  intros Ha. induction patterns as [| p patterns IH]; intros Huniq Hex.
  - destruct Hex as (p & _ & _ & [] & _).
  - simpl. destruct (scan_columns_none_or_some (test p) items) as [E | [v E]].
    + rewrite E. simpl. apply IH.
      * intros p' k v Hp. apply Huniq. right. exact Hp.
      * destruct Hex as (p' & k & v & [-> | Hp] & Hin & Ht).
        -- destruct (scan_columns_finds _ _ _ _ Hin Ht) as [v' E'].
           congruence.
        -- exists p', k, v. auto.
    + rewrite E. destruct (scan_columns_found _ _ _ E) as (k & Hin & Ht).
      assert (v = a) by (eapply Huniq; [left; reflexivity | exact Hin | exact Ht]).
      subst v. simpl. destruct a; [congruence | reflexivity].
Qed.

Lemma like_spec test patterns col :
  like test patterns col = true <->
  exists p, In p patterns /\ test p (lower col) = true.
Proof. unfold like. apply existsb_exists. Qed.

(** The field whose patterns exactly one column satisfies is bound to
    that column. *)
Lemma scan_patterns_one_like test patterns columns a :
  like test patterns EmptyString = false ->
  filter (like test patterns) columns = [a] ->
  scan_patterns test patterns (columns_lower columns) None = Some a.
Proof.
  intros Hempty Hone.
  assert (Hin : In a columns /\ like test patterns a = true).
  { apply filter_In. rewrite Hone. left. reflexivity. }
  destruct Hin as [Hin Hlike].
  apply scan_patterns_unique.
  - intros ->. congruence.
  - intros p k v Hp Hkv Ht.
    destruct (columns_lower_sound _ _ _ Hkv) as [Hv Hk].
    assert (Hf : In v (filter (like test patterns) columns)).
    { apply filter_In. split; [exact Hv |].
      apply like_spec. exists p. rewrite Hk. auto. }
    rewrite Hone in Hf. destruct Hf as [-> | []]. reflexivity.
  - apply like_spec in Hlike. destruct Hlike as (p & Hp & Ht).
    destruct (columns_lower_complete _ _ Hin) as [v Hv].
    exists p, (lower a), v. auto.
Qed.

End SchemaMapperFacts.

(** C2 (code defect). The state patterns are tested as substrings, so
    the pattern [st] is found in the name of a street column. For distinct
    column names of which none contains [state]: the first column whose
    lower-cased name contains [st], when it is a street column (its name
    contains [street] and not [estate]), is bound to the state field,
    although a column named St may follow it; and when no name contains
    [address], the same column is bound to the address field as well. *)
Theorem C2_street_column_is_bound_to_the_state :
  forall before col after,
    let columns := before ++ col :: after in
    NoDup (map PyStr.lower columns) ->
    (forall c, In c columns ->
               PyStr.contains "state" (PyStr.lower c) = false) ->
    (forall c, In c before -> PyStr.contains "st" (PyStr.lower c) = false) ->
    PyStr.contains "street" (PyStr.lower col) = true ->
    PyStr.contains "estate" (PyStr.lower col) = false ->
    let mapping := fst (SchemaMapper._get_pinellas_column_mapping columns) in
    SchemaMapper.state mapping = Some col /\
    ((forall c, In c columns ->
                PyStr.contains "address" (PyStr.lower c) = false) ->
     SchemaMapper.address mapping = Some col).
Proof.
  intros before col after columns Hnd Hstate Hbefore Hstreet Hestate mapping.
  assert (Hst : PyStr.contains "st" (PyStr.lower col) = true).
  { apply (ContainsFacts.contains_part "st" "street"); [reflexivity | exact Hstreet]. }
  assert (Hcol : col <> EmptyString).
  { apply SchemaMapperFacts.lower_nonempty.
    apply (ContainsFacts.contains_nonempty "st"); [discriminate | exact Hst]. }
  assert (Htruthy : SchemaMapper.truthy (Some col) = true).
  { destruct col; [congruence | reflexivity]. }
  subst mapping. unfold SchemaMapper._get_pinellas_column_mapping.
  cbn [fst SchemaMapper.state SchemaMapper.address].
  rewrite (SchemaMapperFacts.columns_lower_distinct columns Hnd).
  split.
  - unfold SchemaMapper.state_patterns. cbn [SchemaMapper.scan_patterns].
    rewrite SchemaMapperFacts.scan_columns_nowhere.
    + cbn [SchemaMapper.truthy].
      unfold columns. rewrite SchemaMapperFacts.scan_columns_first.
      * rewrite Htruthy. reflexivity.
      * intros c Hc. unfold SchemaMapper.state_test.
        rewrite (Hbefore c Hc). cbn [andb]. rewrite orb_false_r.
        destruct (String.eqb_spec (PyStr.lower c) "st") as [E | _];
          [| reflexivity].
        pose proof (Hbefore c Hc) as H. rewrite E in H. discriminate H.
      * unfold SchemaMapper.state_test. rewrite Hst, Hestate.
        apply orb_true_r.
    + intros c Hc. unfold SchemaMapper.state_test.
      rewrite (Hstate c Hc). cbn [andb]. rewrite orb_false_r.
      destruct (String.eqb_spec (PyStr.lower c) "state") as [E | _];
        [| reflexivity].
      pose proof (Hstate c Hc) as H. rewrite E in H. discriminate H.
  - intros Haddress.
    unfold SchemaMapper.address_patterns. cbn [SchemaMapper.scan_patterns].
    rewrite SchemaMapperFacts.scan_columns_nowhere.
    + cbn [SchemaMapper.truthy].
      unfold columns. rewrite SchemaMapperFacts.scan_columns_first.
      * rewrite Htruthy. reflexivity.
      * intros c Hc. unfold SchemaMapper.substring_test.
        destruct (PyStr.contains "street" (PyStr.lower c)) eqn:E;
          [| reflexivity].
        pose proof (ContainsFacts.contains_part "st" "street" _ eq_refl E)
          as H.
        rewrite (Hbefore c Hc) in H. discriminate H.
      * exact Hstreet.
    + intros c Hc. exact (Haddress c Hc).
Qed.

Lemma C2_street_column_is_bound_to_the_state_witness :
  let mapping :=
    fst (SchemaMapper._get_pinellas_column_mapping
           ([] ++ "Street" :: ["City"; "St"; "Zip"])) in
  SchemaMapper.state mapping = Some "Street" /\
  SchemaMapper.address mapping = Some "Street".
Proof.
  destruct (C2_street_column_is_bound_to_the_state
              [] "Street" ["City"; "St"; "Zip"]) as [Hstate Haddress].
  - vm_compute. repeat constructor; simpl; intuition discriminate.
  - intros c Hc. simpl in Hc.
    destruct Hc as [<- | [<- | [<- | [<- | []]]]]; reflexivity.
  - intros c [].
  - reflexivity.
  - reflexivity.
  - split; [exact Hstate |]. apply Haddress.
    intros c Hc. simpl in Hc.
    destruct Hc as [<- | [<- | [<- | [<- | []]]]]; reflexivity.
Defined.

(** C2 (as stated) fails. Reading "address-like, city-like, state-like,
    zip-like" as the kinds the exact-match verifier gives to column names
    (each name has one kind), the schema Street, City, St, Zip has exactly
    one column of each kind, and the mapper binds the state field to the
    street column: the pattern [st] is contained in [street]. The same
    columns in another order bind the state field to St, so the outcome
    also depends on the column order. *)
Lemma C2_counterexample :
  SchemaMapper._get_pinellas_column_mapping ["Street"; "City"; "St"; "Zip"] =
  (SchemaMapper.mkMapping (Some "Street") (Some "City") (Some "Street")
                          (Some "Zip"),
   ["Street"; "City"; "St"; "Zip"])
  /\
  SchemaMapper._get_pinellas_column_mapping ["St"; "Street"; "City"; "Zip"] =
  (SchemaMapper.mkMapping (Some "Street") (Some "City") (Some "St")
                          (Some "Zip"),
   ["St"; "Street"; "City"; "Zip"])
  /\
  ~ (forall (kind := fun col => ExactMatch.key_field (PyStr.lower col))
            (columns : list string) (a c s z : string),
        filter (fun col => match kind col with
                           | Some ExactMatch.FAddress => true | _ => false end)
               columns = [a] ->
        filter (fun col => match kind col with
                           | Some ExactMatch.FCity => true | _ => false end)
               columns = [c] ->
        filter (fun col => match kind col with
                           | Some ExactMatch.FState => true | _ => false end)
               columns = [s] ->
        filter (fun col => match kind col with
                           | Some ExactMatch.FZip => true | _ => false end)
               columns = [z] ->
        SchemaMapper._get_pinellas_column_mapping columns =
        (SchemaMapper.mkMapping (Some a) (Some c) (Some s) (Some z), columns)).
Proof.
  split; [vm_compute; reflexivity |].
  split; [vm_compute; reflexivity |].
  intros H.
  specialize (H ["Street"; "City"; "St"; "Zip"] "Street" "City" "St" "Zip"
                eq_refl eq_refl eq_refl eq_refl).
  vm_compute in H. discriminate H.
Qed.

(** ** Text primitives *)

Module TextFacts.
Import PyStr.

Lemma digit_is_not_space c : is_digit c = true -> is_space c = false.
Proof.
  destruct c as [[] [] [] [] [] [] [] []]; vm_compute; congruence.
Qed.

Lemma decimal_is_digit c : is_decimal c = true -> is_digit c = true.
Proof.
  destruct c as [[] [] [] [] [] [] [] []]; vm_compute; congruence.
Qed.

Lemma newline_is_space c : is_newline c = true -> is_space c = true.
Proof.
  destruct c as [[] [] [] [] [] [] [] []]; vm_compute; congruence.
Qed.

Lemma span_concat p s : (fst (span p s) ++ snd (span p s))%string = s.
Proof.
  induction s as [| c t IH]; simpl; [reflexivity |].
  destruct (p c); [| reflexivity].
  destruct (span p t) as [a b]. simpl in *. rewrite IH. reflexivity.
Qed.

Lemma span_prefix_all p s : all_chars p (fst (span p s)) = true.
Proof.
  induction s as [| c t IH]; simpl; [reflexivity |].
  destruct (p c) eqn:E; [| reflexivity].
  destruct (span p t) as [a b]. simpl in *. rewrite E. exact IH.
Qed.

Lemma span_all p s : all_chars p s = true -> span p s = (s, EmptyString).
Proof.
  induction s as [| c t IH]; simpl; [reflexivity |].
  intros H. apply andb_true_iff in H. destruct H as [Hc Ht].
  rewrite Hc, (IH Ht). reflexivity.
Qed.

Lemma span_all_then p a c t :
  all_chars p a = true -> p c = false ->
  span p (a ++ String c t) = (a, String c t).
Proof.
  induction a as [| x a IH]; simpl; intros Ha Hc.
  - rewrite Hc. reflexivity.
  - apply andb_true_iff in Ha. destruct Ha as [Hx Ha].
    rewrite Hx, (IH Ha Hc). reflexivity.
Qed.

Lemma span_rest_empty_all p s :
  is_empty (snd (span p s)) = true -> all_chars p s = true.
Proof.
  induction s as [| c t IH]; simpl; [reflexivity |].
  destruct (p c); [| discriminate].
  destruct (span p t) as [a b]. simpl in *. exact IH.
Qed.

Lemma isdigit_all s :
  isdigit s = true -> s <> EmptyString /\ all_chars is_digit s = true.
Proof.
  unfold isdigit. intros H. apply andb_true_iff in H. destruct H as [Hne Hall].
  split; [intros ->; discriminate | apply span_rest_empty_all; exact Hall].
Qed.

Lemma all_isdigit s :
  s <> EmptyString -> all_chars is_digit s = true -> isdigit s = true.
Proof.
  intros Hne Hall. unfold isdigit. rewrite (span_all _ _ Hall).
  destruct s; [congruence | reflexivity].
Qed.

Lemma lstrip_head s c t : lstrip s = String c t -> is_space c = false.
Proof.
  induction s as [| x s IH]; simpl; [discriminate |].
  destruct (is_space x) eqn:E; [exact IH |].
  intros H. inversion H; subst. exact E.
Qed.

Lemma rstrip_by_head drop c t :
  rstrip_by drop (String c t) = EmptyString \/
  exists t', rstrip_by drop (String c t) = String c t'.
Proof.
  simpl. destruct (drop c && is_empty (rstrip_by drop t)); eauto.
Qed.

(** A stripped text does not start with whitespace. *)
Lemma strip_head a c t : strip a = String c t -> is_space c = false.
Proof.
  unfold strip, rstrip. destruct (lstrip a) as [| c0 t0] eqn:L.
  - discriminate.
  - destruct (rstrip_by_head is_space c0 t0) as [E | [t' E]]; rewrite E.
    + discriminate.
    + intros H. inversion H; subst. exact (lstrip_head _ _ _ L).
Qed.

Lemma rstrip_ends s : ends_in_text s = true -> rstrip s = s.
Proof.
  unfold rstrip. induction s as [| c t IH]; [discriminate |].
  destruct t as [| c' t'].
  - simpl. intros H. apply negb_true_iff in H. rewrite H. reflexivity.
  - intros H. change (ends_in_text (String c (String c' t')))
      with (ends_in_text (String c' t')) in H.
    cbn [rstrip_by]. cbn [rstrip_by] in IH. rewrite (IH H).
    rewrite andb_false_r. reflexivity.
Qed.

Lemma ends_in_text_app a w :
  ends_in_text w = true -> ends_in_text (a ++ w) = true.
Proof.
  intros Hw. induction a as [| c a IH]; [exact Hw |].
  simpl. destruct (a ++ w)%string eqn:E; [| exact IH].
  simpl in IH. discriminate.
Qed.

Lemma token_ends w : is_token w = true -> ends_in_text w = true.
Proof.
  unfold is_token. induction w as [| c w IH]; [discriminate |].
  simpl. intros H. apply andb_true_iff in H. destruct H as [Hc Hw].
  destruct w as [| c' w']; [exact Hc |].
  apply IH. exact Hw.
Qed.

Lemma token_head w :
  is_token w = true ->
  exists c t, w = String c t /\ is_space c = false.
Proof.
  unfold is_token. destruct w as [| c t]; [discriminate |].
  simpl. intros H. apply andb_true_iff in H. destruct H as [Hc _].
  exists c, t. split; [reflexivity | apply negb_true_iff; exact Hc].
Qed.

Lemma token_tail c t :
  is_token (String c t) = true -> t = EmptyString \/ is_token t = true.
Proof.
  unfold is_token. simpl. intros H.
  apply andb_true_iff in H. destruct H as [_ Ht].
  destruct t; [left; reflexivity | right; exact Ht].
Qed.

Lemma split_nonempty s w : In w (split s) -> w <> EmptyString.
Proof.
  revert w. induction s as [| c t IH]; intros w; simpl; [intros [] |].
  destruct (is_space c); [apply IH |].
  destruct t as [| c' t'].
  - intros [<- | []]. discriminate.
  - destruct (is_space c').
    + intros [<- | H]; [discriminate | exact (IH w H)].
    + destruct (split (String c' t')) as [| w' ws] eqn:E.
      * intros [<- | []]. discriminate.
      * intros [<- | H]; [discriminate |].
        apply IH. right. exact H.
Qed.

Lemma split_token w : is_token w = true -> split w = [w].
Proof.
  induction w as [| c t IH]; [discriminate |].
  intros H. destruct (token_head _ H) as (c0 & t0 & E & Hc).
  inversion E; subst c0 t0. simpl. rewrite Hc.
  destruct (token_tail _ _ H) as [-> | Ht]; [reflexivity |].
  destruct (token_head _ Ht) as (c' & t' & -> & Hc').
  rewrite Hc'. rewrite (IH Ht). reflexivity.
Qed.

Lemma split_token_then_space w s :
  is_token w = true -> split (w ++ String " " s) = w :: split s.
Proof.
  induction w as [| c t IH]; [discriminate |].
  intros H. destruct (token_head _ H) as (c0 & t0 & E & Hc).
  inversion E; subst c0 t0.
  change (String c t ++ String " " s)%string
    with (String c (t ++ String " " s)).
  cbn [split]. rewrite Hc.
  destruct (token_tail _ _ H) as [-> | Ht].
  - reflexivity.
  - destruct (token_head _ Ht) as (c' & t' & -> & Hc').
    change (String c' t' ++ String " " s)%string
      with (String c' (t' ++ String " " s)).
    cbv beta iota. rewrite Hc'.
    change (String c' (t' ++ String " " s))
      with (String c' t' ++ String " " s)%string.
    rewrite (IH Ht). reflexivity.
Qed.

Lemma join_cons2 sep w w2 ws :
  join sep (w :: w2 :: ws) = (w ++ sep ++ join sep (w2 :: ws))%string.
Proof. reflexivity. Qed.

(** Splitting undoes joining tokens with one space. *)
Lemma split_join tokens :
  forallb is_token tokens = true -> split (join " " tokens) = tokens.
Proof.
  induction tokens as [| w tokens IH]; [reflexivity |].
  intros H. simpl in H. apply andb_true_iff in H. destruct H as [Hw Hrest].
  destruct tokens as [| w2 ws].
  - apply split_token. exact Hw.
  - rewrite join_cons2.
    change (" " ++ join " " (w2 :: ws))%string
      with (String " " (join " " (w2 :: ws))).
    rewrite (split_token_then_space _ _ Hw), (IH Hrest). reflexivity.
Qed.

Lemma all_chars_app p a b :
  all_chars p (a ++ b) = all_chars p a && all_chars p b.
Proof.
  induction a as [| c a IH]; simpl; [reflexivity |].
  rewrite IH. apply andb_assoc.
Qed.

Lemma all_chars_weaken (p q : ascii -> bool) s :
  (forall c, p c = true -> q c = true) ->
  all_chars p s = true -> all_chars q s = true.
Proof.
  intros Hpq. induction s as [| c s IH]; simpl; [reflexivity |].
  intros H. apply andb_true_iff in H. destruct H as [Hc Hs].
  rewrite (Hpq c Hc). exact (IH Hs).
Qed.

Lemma join_all_chars p tokens :
  p " "%char = true ->
  forallb (all_chars p) tokens = true ->
  all_chars p (join " " tokens) = true.
Proof.
  intros Hsp. induction tokens as [| w tokens IH]; [reflexivity |].
  intros H. simpl in H. apply andb_true_iff in H. destruct H as [Hw Hrest].
  destruct tokens as [| w2 ws]; [exact Hw |].
  rewrite join_cons2, !all_chars_app, Hw, (IH Hrest).
  simpl. rewrite Hsp. reflexivity.
Qed.

Lemma join_ends tokens :
  tokens <> [] -> forallb is_token tokens = true ->
  ends_in_text (join " " tokens) = true.
Proof.
  induction tokens as [| w tokens IH]; [congruence |].
  intros _ H. simpl in H. apply andb_true_iff in H. destruct H as [Hw Hrest].
  destruct tokens as [| w2 ws]; [apply token_ends; exact Hw |].
  rewrite join_cons2. apply ends_in_text_app. apply ends_in_text_app.
  apply IH; [discriminate | exact Hrest].
Qed.

Lemma join_head tokens :
  tokens <> [] -> forallb is_token tokens = true ->
  exists c t, join " " tokens = String c t /\ is_space c = false.
Proof.
  destruct tokens as [| w tokens]; [congruence |].
  intros _ H. simpl in H. apply andb_true_iff in H. destruct H as [Hw _].
  destruct (token_head _ Hw) as (c & t & -> & Hc).
  destruct tokens as [| w2 ws].
  - exists c, t. auto.
  - rewrite join_cons2. simpl. eauto.
Qed.

(** A text that starts and ends with a character that is not whitespace
    is left as it is by [strip]. *)
Lemma strip_fixed c t :
  is_space c = false -> ends_in_text (String c t) = true ->
  strip (String c t) = String c t.
Proof.
  intros Hc He. unfold strip. simpl lstrip. rewrite Hc.
  apply rstrip_ends. exact He.
Qed.

End TextFacts.

(** ** Trimming and letter case *)

Module NormalFacts.
Import PyStr ExactMatch.

Lemma lower_upper_char c : lower_char (upper_char c) = lower_char c.
Proof. destruct c as [[] [] [] [] [] [] [] []]; reflexivity. Qed.

Lemma lower_lower_char c : lower_char (lower_char c) = lower_char c.
Proof. destruct c as [[] [] [] [] [] [] [] []]; reflexivity. Qed.

Lemma space_upper_char c : is_space (upper_char c) = is_space c.
Proof. destruct c as [[] [] [] [] [] [] [] []]; reflexivity. Qed.

Lemma space_lower_char c : is_space (lower_char c) = is_space c.
Proof. destruct c as [[] [] [] [] [] [] [] []]; reflexivity. Qed.

Section Recasing.
Variable f : ascii -> ascii.
Hypothesis f_space : forall c, is_space (f c) = is_space c.
Hypothesis f_lower : forall c, lower_char (f c) = lower_char c.

Lemma lower_recase s : lower (recase f s) = lower s.
Proof.
  induction s as [| c s IH]; simpl; [reflexivity |].
  rewrite f_lower, IH. reflexivity.
Qed.

Lemma lstrip_recase s : lstrip (recase f s) = recase f (lstrip s).
Proof.
  induction s as [| c s IH]; simpl; [reflexivity |].
  rewrite f_space. destruct (is_space c); [exact IH | reflexivity].
Qed.

Lemma is_empty_recase s : is_empty (recase f s) = is_empty s.
Proof. destruct s; reflexivity. Qed.

Lemma rstrip_recase s : rstrip (recase f s) = recase f (rstrip s).
Proof.
  unfold rstrip. induction s as [| c s IH]; simpl; [reflexivity |].
  rewrite IH, f_space, is_empty_recase.
  destruct (is_space c && is_empty (rstrip_by is_space s)); reflexivity.
Qed.

Lemma norm_recase s : lower (strip (recase f s)) = lower (strip s).
Proof.
  unfold strip. rewrite lstrip_recase, rstrip_recase. apply lower_recase.
Qed.

End Recasing.

Lemma recase_upper s : recase upper_char s = upper s.
Proof. induction s as [| c s IH]; simpl; [| rewrite IH]; reflexivity. Qed.

Lemma recase_lower s : recase lower_char s = lower s.
Proof. induction s as [| c s IH]; simpl; [| rewrite IH]; reflexivity. Qed.

Lemma lstrip_spaces ws s :
  all_chars is_space ws = true -> lstrip (ws ++ s) = lstrip s.
Proof.
  induction ws as [| c ws IH]; intros H; [reflexivity |].
  simpl in H. apply andb_true_iff in H. destruct H as [Hc Hws].
  simpl. rewrite Hc. exact (IH Hws).
Qed.

Lemma lstrip_spaces_only ws :
  all_chars is_space ws = true -> lstrip ws = EmptyString.
Proof.
  induction ws as [| c ws IH]; intros H; [reflexivity |].
  simpl in H. apply andb_true_iff in H. destruct H as [Hc Hws].
  simpl. rewrite Hc. exact (IH Hws).
Qed.

Lemma rstrip_spaces_only ws :
  all_chars is_space ws = true -> rstrip_by is_space ws = EmptyString.
Proof.
  induction ws as [| c ws IH]; intros H; [reflexivity |].
  simpl in H. apply andb_true_iff in H. destruct H as [Hc Hws].
  simpl. rewrite (IH Hws), Hc. reflexivity.
Qed.

Lemma rstrip_app_spaces s ws :
  all_chars is_space ws = true -> rstrip (s ++ ws) = rstrip s.
Proof.
  intros H. unfold rstrip. induction s as [| c s IH].
  - simpl. rewrite (rstrip_spaces_only ws H). reflexivity.
  - simpl. rewrite IH. reflexivity.
Qed.

Lemma strip_padded ws1 s ws2 :
  all_chars is_space ws1 = true -> all_chars is_space ws2 = true ->
  strip (ws1 ++ s ++ ws2) = strip s.
Proof.
  intros H1 H2. unfold strip. rewrite (lstrip_spaces ws1 _ H1).
  induction s as [| c s IH].
  - simpl. rewrite (lstrip_spaces_only ws2 H2). reflexivity.
  - change (String c s ++ ws2)%string with (String c (s ++ ws2)).
    cbn [lstrip]. destruct (is_space c); [exact IH |].
    change (String c (s ++ ws2)) with (String c s ++ ws2)%string.
    apply rstrip_app_spaces. exact H2.
Qed.

(** The normal form used by the comparison cannot tell a text from a
    recased and padded copy of it. *)
Lemma norm_insensitive ws1 s ws2 :
  all_chars is_space ws1 = true -> all_chars is_space ws2 = true ->
  lower (strip (ws1 ++ upper s ++ ws2)) = lower (strip s) /\
  lower (strip (ws1 ++ lower s ++ ws2)) = lower (strip s).
Proof.
  intros H1 H2. rewrite !(strip_padded _ _ _ H1 H2). split.
  - rewrite <- recase_upper.
    apply (norm_recase upper_char space_upper_char lower_upper_char).
  - rewrite <- (recase_lower s).
    apply (norm_recase lower_char space_lower_char lower_lower_char).
Qed.

Lemma dict_get_set_same {V} (d : dict V) k v : dict_get (dict_set d k v) k = Some v.
Proof.
  induction d as [| [k0 v0] d IH]; simpl.
  - rewrite String.eqb_refl. reflexivity.
  - destruct (String.eqb k0 k) eqn:E; simpl; rewrite E; [reflexivity | exact IH].
Qed.

Lemma dict_get_set_other {V} (d : dict V) k v k' :
  k <> k' -> dict_get (dict_set d k v) k' = dict_get d k'.
Proof.
  intros Hne. induction d as [| [k0 v0] d IH]; simpl.
  - destruct (String.eqb_spec k k'); [contradiction | reflexivity].
  - destruct (String.eqb_spec k0 k) as [-> | _]; simpl.
    + destruct (String.eqb_spec k k'); [contradiction | reflexivity].
    + rewrite IH. reflexivity.
Qed.

Lemma golden_field_replaced golden key s s' k :
  dict_get golden key = Some (CStr s) ->
  lower (strip s') = lower (strip s) ->
  golden_field (dict_set golden key (CStr s')) k = golden_field golden k.
Proof.
  intros Hget Hnorm. unfold golden_field, dict_get_or.
  destruct (String.eqb_spec key k) as [<- | Hne].
  - rewrite dict_get_set_same, Hget. simpl. exact Hnorm.
  - rewrite (dict_get_set_other _ _ _ _ Hne). reflexivity.
Qed.

Lemma scan_internal_ext g1 g2 cols l :
  (forall k, golden_field g1 k = golden_field g2 k) ->
  scan_internal g1 cols l = scan_internal g2 cols l.
Proof.
  intros H. induction l as [| r l IH]; simpl; [reflexivity |].
  unfold all_fields_match. rewrite !H, IH. reflexivity.
Qed.

End NormalFacts.

(** ** Exact-match verifier: the comparison as specified *)

Module VerifierSpecFacts.
Import PyStr ExactMatch VerifierSpec.

Lemma capital_spec c : is_upper_letter c = true <-> capital (nat_of_ascii c).
Proof.
  unfold is_upper_letter, capital.
  rewrite orb_true_iff, !andb_true_iff, negb_true_iff, !Nat.leb_le,
    Nat.eqb_neq.
  tauto.
Qed.

Lemma capital_bound n : capital n -> n + 32 < 256 /\ ~ capital (n + 32).
Proof. unfold capital. lia. Qed.

(** Two characters have the same lower-case form exactly when they are
    the same letter. *)
Lemma lower_char_same c d : lower_char c = lower_char d <-> same_letter c d.
Proof.
  unfold lower_char, same_letter.
  destruct (is_upper_letter c) eqn:Uc; destruct (is_upper_letter d) eqn:Ud.
  - apply capital_spec in Uc. apply capital_spec in Ud.
    destruct (capital_bound _ Uc) as [Bc Nc].
    destruct (capital_bound _ Ud) as [Bd Nd].
    split.
    + intros H. apply (f_equal nat_of_ascii) in H.
      rewrite !nat_ascii_embedding in H by assumption.
      left. rewrite <- (ascii_nat_embedding c), <- (ascii_nat_embedding d).
      f_equal. lia.
    + intros [-> | [[_ E] | [_ E]]]; [reflexivity | |].
      * exfalso. apply Nc. rewrite <- E. exact Ud.
      * exfalso. apply Nd. rewrite <- E. exact Uc.
  - apply capital_spec in Uc.
    destruct (capital_bound _ Uc) as [Bc Nc].
    split.
    + intros H. right. left. split; [exact Uc |].
      rewrite <- H. apply nat_ascii_embedding. exact Bc.
    + intros [-> | [[_ E] | [Cd _]]].
      * apply capital_spec in Uc. congruence.
      * rewrite <- E. apply ascii_nat_embedding.
      * apply capital_spec in Cd. congruence.
  - apply capital_spec in Ud.
    destruct (capital_bound _ Ud) as [Bd Nd].
    split.
    + intros H. right. right. split; [exact Ud |].
      rewrite H. apply nat_ascii_embedding. exact Bd.
    + intros [-> | [[Cc _] | [_ E]]].
      * apply capital_spec in Ud. congruence.
      * apply capital_spec in Cc. congruence.
      * rewrite <- E. symmetry. apply ascii_nat_embedding.
  - split.
    + intros ->. left. reflexivity.
    + intros [-> | [[Cc _] | [Cd _]]]; [reflexivity | |].
      * apply capital_spec in Cc. congruence.
      * apply capital_spec in Cd. congruence.
Qed.

Lemma lower_same a b : lower a = lower b <-> same_letters a b.
Proof.
  revert b. induction a as [| c a IH]; intros [| d b]; simpl.
  - split; [intros _; constructor | reflexivity].
  - split; [discriminate | intros H; inversion H].
  - split; [discriminate | intros H; inversion H].
  - split.
    + intros H. inversion H as [[Hc Ht]]. constructor.
      * apply lower_char_same. exact Hc.
      * apply IH. exact Ht.
    + intros H. inversion H as [| ? ? ? ? Hc Ht]; subst.
      apply lower_char_same in Hc. apply IH in Ht.
      rewrite Hc, Ht. reflexivity.
Qed.

(** What [lstrip] and [rstrip] remove is whitespace. *)
Lemma lstrip_removes a : exists l, blank l /\ a = (l ++ lstrip a)%string.
Proof.
  induction a as [| c a IH]; simpl.
  - exists EmptyString. split; reflexivity.
  - destruct (is_space c) eqn:E.
    + destruct IH as (l & Hl & Ha). exists (String c l). split.
      * unfold blank. simpl. rewrite E. exact Hl.
      * simpl. rewrite <- Ha. reflexivity.
    + exists EmptyString. split; reflexivity.
Qed.

Lemma rstrip_removes a : exists r, blank r /\ a = (rstrip a ++ r)%string.
Proof.
  unfold rstrip. induction a as [| c a IH]; simpl.
  - exists EmptyString. split; reflexivity.
  - destruct IH as (r & Hr & Ha).
    destruct (is_space c && is_empty (rstrip_by is_space a)) eqn:E.
    + apply andb_true_iff in E. destruct E as [Ec Ee].
      destruct (rstrip_by is_space a); [| discriminate].
      simpl in Ha. subst a. exists (String c r). split; [| reflexivity].
      unfold blank. simpl. rewrite Ec. exact Hr.
    + exists r. split; [exact Hr |]. simpl. rewrite <- Ha. reflexivity.
Qed.

Lemma rstrip_last a rest c :
  rstrip a = (rest ++ String c EmptyString)%string -> is_space c = false.
Proof.
  unfold rstrip. revert rest. induction a as [| x a IH]; intros rest; simpl.
  - destruct rest; discriminate.
  - destruct (is_space x && is_empty (rstrip_by is_space a)) eqn:E.
    + destruct rest; discriminate.
    + destruct rest as [| y rest]; simpl; intros H; inversion H; subst.
      * match goal with Hr : rstrip_by is_space a = EmptyString |- _ =>
          rewrite Hr in E end.
        simpl in E. rewrite andb_true_r in E. exact E.
      * eapply IH. eassumption.
Qed.

Lemma strip_unpadded a : unpadded (strip a).
Proof.
  intros c rest [H | H].
  - exact (TextFacts.strip_head _ _ _ H).
  - exact (rstrip_last _ _ _ H).
Qed.

Lemma strip_trimmed a : trimmed a (strip a).
Proof.
  split; [apply strip_unpadded |].
  destruct (lstrip_removes a) as (l & Hl & Ha).
  destruct (rstrip_removes (lstrip a)) as (r & Hr & Hb).
  exists l, r. split; [exact Hl |]. split; [exact Hr |].
  unfold strip. rewrite <- Hb. exact Ha.
Qed.

Lemma last_not_space_ends s :
  s <> EmptyString ->
  (forall rest c, s = (rest ++ String c EmptyString)%string ->
                  is_space c = false) ->
  ends_in_text s = true.
Proof.
  induction s as [| c t IH]; [congruence |].
  intros _ H. destruct t as [| c' t'].
  - simpl. rewrite (H EmptyString c eq_refl). reflexivity.
  - change (ends_in_text (String c (String c' t')))
      with (ends_in_text (String c' t')).
    apply IH; [discriminate |].
    intros rest x E. apply (H (String c rest) x). rewrite E. reflexivity.
Qed.

Lemma unpadded_fixed core : unpadded core -> strip core = core.
Proof.
  intros H. destruct core as [| c t]; [reflexivity |].
  apply TextFacts.strip_fixed.
  - apply (H c t). left. reflexivity.
  - apply last_not_space_ends; [discriminate |].
    intros rest x E. apply (H x rest). right. exact E.
Qed.

Lemma trimmed_strip a core : trimmed a core -> strip a = core.
Proof.
  intros (Hu & l & r & Hl & Hr & ->).
  rewrite (NormalFacts.strip_padded l core r Hl Hr).
  apply unpadded_fixed. exact Hu.
Qed.

(** Equality of the normal forms the verifier computes is equality
    case-insensitively after whitespace trimming. *)
Lemma same_text_iff a b : same_text a b <-> lower (strip a) = lower (strip b).
Proof.
  split.
  - intros (ca & cb & Ha & Hb & Hs).
    rewrite (trimmed_strip _ _ Ha), (trimmed_strip _ _ Hb).
    apply lower_same. exact Hs.
  - intros H. exists (strip a), (strip b).
    split; [apply strip_trimmed |]. split; [apply strip_trimmed |].
    apply lower_same. exact H.
Qed.

(** A text whose normal form is empty is blank. *)
Lemma normal_form_empty s : lower (strip s) = EmptyString -> blank s.
Proof.
  intros H.
  assert (Hs : strip s = EmptyString).
  { destruct (strip s); [reflexivity | discriminate]. }
  destruct (strip_trimmed s) as (_ & l & r & Hl & Hr & E).
  rewrite Hs in E. unfold blank in *. rewrite E.
  rewrite TextFacts.all_chars_app. simpl. rewrite Hl, Hr. reflexivity.
Qed.

Lemma text_of_str v : text_of v = py_str v.
Proof. destruct v as [| [] | |]; reflexivity. Qed.

Lemma golden_field_text golden key :
  golden_field golden key = lower (strip (field_text golden (Some key))).
Proof.
  unfold golden_field, field_text, dict_get_or.
  destruct (dict_get golden key) as [v |]; [destruct v as [| [] | |] |];
    reflexivity.
Qed.

Lemma internal_field_text r col :
  col <> Some EmptyString ->
  internal_field r col = lower (strip (field_text r col)).
Proof.
  intros Hcol. unfold internal_field, field_text, dict_get_or.
  destruct col as [[| c k] |]; [congruence | | reflexivity].
  cbn [is_empty].
  destruct (dict_get r (String c k)) as [v |]; [destruct v as [| [] | |] |];
    reflexivity.
Qed.

(** The sniffing never binds a field to the empty key. *)
Lemma sniff_key_nonempty acc key :
  (forall f, sniffed_col f acc <> Some EmptyString) ->
  forall f, sniffed_col f (sniff_key acc key) <> Some EmptyString.
Proof.
  intros Hacc f. unfold sniff_key.
  destruct key as [| c k].
  - cbn. apply Hacc.
  - destruct (key_field (lower (String c k))) as [[] |];
      destruct f; cbn [sniffed_col address_col city_col state_col zip_col];
      try apply (Hacc FAddress); try apply (Hacc FCity);
      try apply (Hacc FState); try apply (Hacc FZip).
    + pose proof (Hacc FAddress) as H. cbn in H.
      destruct (address_col acc); cbn; [exact H | discriminate].
    + pose proof (Hacc FCity) as H. cbn in H.
      destruct (city_col acc); cbn; [exact H | discriminate].
    + pose proof (Hacc FState) as H. cbn in H.
      destruct (state_col acc); cbn; [exact H | discriminate].
    + pose proof (Hacc FZip) as H. cbn in H.
      destruct (zip_col acc); cbn; [exact H | discriminate].
Qed.

Lemma sniffed_nonempty l f : sniffed_col f (sniffed_of l) <> Some EmptyString.
Proof.
  unfold sniffed_of, sniff_columns.
  assert (H : forall keys acc,
             (forall f, sniffed_col f acc <> Some EmptyString) ->
             forall f, sniffed_col f (fold_left sniff_key keys acc)
                       <> Some EmptyString).
  { induction keys as [| key keys IH]; intros acc Hacc; simpl.
    - exact Hacc.
    - apply IH. apply sniff_key_nonempty. exact Hacc. }
  apply H. intros []; discriminate.
Qed.

(** The four-field comparison of the verifier decides the agreement of
    the specification. *)
Lemma agrees_iff golden l r :
  agrees golden (sniffed_of l) r <->
  all_fields_match golden (sniffed_of l) r = true.
Proof.
  unfold agrees, all_fields_match.
  rewrite !andb_true_iff, !String.eqb_eq.
  assert (F : forall f,
             same_text (field_text golden (Some (golden_key f)))
                       (field_text r (sniffed_col f (sniffed_of l))) <->
             golden_field golden (golden_key f) =
             internal_field r (sniffed_col f (sniffed_of l))).
  { intros f. rewrite same_text_iff, golden_field_text.
    rewrite (internal_field_text _ _ (sniffed_nonempty l f)). tauto. }
  split.
  - intros H.
    pose proof (proj1 (F FAddress) (H FAddress)).
    pose proof (proj1 (F FCity) (H FCity)).
    pose proof (proj1 (F FState) (H FState)).
    pose proof (proj1 (F FZip) (H FZip)). auto.
  - intros (((A & C) & S) & Z) f. apply F. destruct f; assumption.
Qed.

End VerifierSpecFacts.

(** ** Exact-match verifier *)

Module ExactMatchFacts.
Import PyStr ExactMatch.

Lemma all_fields_match_iff golden cols r :
  all_fields_match golden cols r = true <-> fields_agree golden cols r.
Proof.
  unfold all_fields_match, fields_agree.
  rewrite !andb_true_iff, !String.eqb_eq. tauto.
Qed.

Lemma scan_internal_hit golden cols l :
  is_exact_match (scan_internal golden cols l) = true ->
  exists before r after,
    l = before ++ r :: after /\
    matched_record (scan_internal golden cols l) = Some r /\
    all_fields_match golden cols r = true /\
    forall x, In x before -> all_fields_match golden cols x = false.
Proof.
  induction l as [| r l IH]; simpl; [discriminate |].
  destruct (all_fields_match golden cols r) eqn:E; simpl.
  - intros _. exists [], r, l. repeat split; auto. intros x [].
  - intros H. destruct (IH H) as (before & r' & after & -> & Hm & Hr & Hb).
    exists (r :: before), r', after. repeat split; auto.
    intros x [<- | Hx]; auto.
Qed.

Lemma scan_internal_complete golden cols l r :
  In r l -> all_fields_match golden cols r = true ->
  is_exact_match (scan_internal golden cols l) = true.
Proof.
  induction l as [| r0 l IH]; simpl; [intros [] |].
  intros [-> | Hin] Hr.
  - rewrite Hr. reflexivity.
  - destruct (all_fields_match golden cols r0); [reflexivity | auto].
Qed.

Lemma scan_internal_miss golden cols l :
  is_exact_match (scan_internal golden cols l) = false ->
  matched_record (scan_internal golden cols l) = None.
Proof.
  induction l as [| r l IH]; simpl; [reflexivity |].
  destruct (all_fields_match golden cols r); simpl; [discriminate | exact IH].
Qed.

Lemma check_is_scan golden l :
  _check_exact_match golden l = scan_internal golden (sniffed_of l) l.
Proof. destruct l; reflexivity. Qed.

Lemma scan_internal_first golden cols l before r after :
  l = before ++ r :: after ->
  all_fields_match golden cols r = true ->
  (forall x, In x before -> all_fields_match golden cols x = false) ->
  scan_internal golden cols l = mkVerdict true (Some r).
Proof.
  intros -> Hr. induction before as [| x before IH]; intros Hb; simpl.
  - rewrite Hr. reflexivity.
  - rewrite (Hb x) by (left; reflexivity).
    apply IH. intros y Hy. apply Hb. right. exact Hy.
Qed.

End ExactMatchFacts.

(** C7. The verifier answers [is_exact_match = true] exactly when some
    internal candidate agrees with the golden record on address, city,
    state and zip -- the candidate's fields read under the columns sniffed
    from the first candidate, the golden record's under address1, Mailing
    City, state and zipcode, compared case-insensitively after whitespace
    trimming, an absent field being the empty text and two empty texts
    being equal. The record returned is the first such candidate of the
    list. The golden record 100 Main St / Tampa / FL / 33601 is matched by
    a candidate with the columns Street, City, St, Zip holding the same
    values in another casing, and by no candidate that differs in the
    state, in the zip code or in the whitespace inside the street; a
    candidate that holds the values under column names other than those
    of the first candidate is not matched. Texts are sequences of code
    points below 256. *)
Theorem C7_exact_match_is_first_agreeing_candidate :
  (forall golden internal_matches,
      let verdict := ExactMatch._check_exact_match golden internal_matches in
      let cols := sniffed_of internal_matches in
      (ExactMatch.is_exact_match verdict = true <->
       exists r, In r internal_matches /\ VerifierSpec.agrees golden cols r) /\
      (forall before r after,
          internal_matches = before ++ r :: after ->
          VerifierSpec.agrees golden cols r ->
          (forall x, In x before -> ~ VerifierSpec.agrees golden cols x) ->
          verdict = ExactMatch.mkVerdict true (Some r)) /\
      (ExactMatch.is_exact_match verdict = false ->
       ExactMatch.matched_record verdict = None)) /\
  (let same :=
     Tampa.candidate (ExactMatch.CStr "100 MAIN ST") (ExactMatch.CStr "tampa")
                     (ExactMatch.CStr "fl") (ExactMatch.CStr "33601") in
   ExactMatch._check_exact_match Tampa.golden [same] =
   ExactMatch.mkVerdict true (Some same)) /\
  (let candidate := [("Owner", ExactMatch.CStr "Smith")] in
   ExactMatch._check_exact_match [] [candidate] =
   ExactMatch.mkVerdict true (Some candidate)) /\
  ExactMatch._check_exact_match Tampa.golden [Tampa.renamed] =
  ExactMatch.mkVerdict true (Some Tampa.renamed) /\
  ExactMatch._check_exact_match Tampa.golden
    [Tampa.candidate (ExactMatch.CStr "7 Elm Ct") (ExactMatch.CStr "Tampa")
                     (ExactMatch.CStr "FL") (ExactMatch.CStr "33601");
     Tampa.renamed] =
  ExactMatch.mkVerdict false None /\
  ExactMatch._check_exact_match Tampa.golden
    [Tampa.candidate (ExactMatch.CStr "100 Main St") (ExactMatch.CStr "Tampa")
                     (ExactMatch.CStr "GA") (ExactMatch.CStr "33601")] =
  ExactMatch.mkVerdict false None /\
  ExactMatch._check_exact_match Tampa.golden
    [Tampa.candidate (ExactMatch.CStr "100 Main St") (ExactMatch.CStr "Tampa")
                     (ExactMatch.CStr "FL") (ExactMatch.CStr "33602")] =
  ExactMatch.mkVerdict false None /\
  ExactMatch._check_exact_match Tampa.golden
    [Tampa.candidate (ExactMatch.CStr "100  Main St") (ExactMatch.CStr "Tampa")
                     (ExactMatch.CStr "FL") (ExactMatch.CStr "33601")] =
  ExactMatch.mkVerdict false None /\
  ExactMatch._check_exact_match
    (Tampa.golden_record (ExactMatch.CStr EmptyString) (ExactMatch.CStr "Tampa")
                         (ExactMatch.CStr "FL") ExactMatch.CNone)
    [Tampa.candidate (ExactMatch.CStr EmptyString) (ExactMatch.CStr "Tampa")
                     (ExactMatch.CStr "FL") (ExactMatch.CStr EmptyString)] =
  ExactMatch.mkVerdict false None /\
  (let accented :=
     Tampa.candidate
       (ExactMatch.CStr "1 first st")
       (ExactMatch.CStr (Tampa.nbsp ++ "san jos" ++ Tampa.e_acute ++ Tampa.nbsp))
       (ExactMatch.CStr "ca") (ExactMatch.CInt 95101) in
   ExactMatch._check_exact_match
     (Tampa.golden_record
        (ExactMatch.CStr "1 First St")
        (ExactMatch.CStr ("SAN JOS" ++ Tampa.E_acute))
        (ExactMatch.CStr "CA") (ExactMatch.CStr "95101"))
     [accented] =
   ExactMatch.mkVerdict true (Some accented)).
Proof.
  split; [| repeat split; vm_compute; reflexivity].
  intros golden l verdict cols. subst verdict cols.
  rewrite ExactMatchFacts.check_is_scan.
  split; [split |]; [| | split].
  - intros H.
    destruct (ExactMatchFacts.scan_internal_hit _ _ _ H)
      as (before & r & after & Hl & _ & Hr & _).
    exists r. split.
    + rewrite Hl. apply in_or_app. right. left. reflexivity.
    + apply VerifierSpecFacts.agrees_iff. exact Hr.
  - intros (r & Hin & Hr).
    apply (ExactMatchFacts.scan_internal_complete _ _ _ r Hin).
    apply VerifierSpecFacts.agrees_iff. exact Hr.
  - intros before r after Hl Hr Hbefore.
    apply ExactMatchFacts.scan_internal_first with (before := before)
                                                   (after := after).
    + exact Hl.
    + apply VerifierSpecFacts.agrees_iff. exact Hr.
    + intros x Hx.
      destruct (ExactMatch.all_fields_match golden (sniffed_of l) x) eqn:E;
        [| reflexivity].
      exfalso. apply (Hbefore x Hx).
      apply VerifierSpecFacts.agrees_iff. exact E.
  - apply ExactMatchFacts.scan_internal_miss.
Qed.

Lemma C7_exact_match_is_first_agreeing_candidate_witness :
  let other :=
    Tampa.candidate (ExactMatch.CStr "7 Elm Ct") (ExactMatch.CStr "Tampa")
                    (ExactMatch.CStr "FL") (ExactMatch.CStr "33601") in
  let same :=
    Tampa.candidate (ExactMatch.CStr " 100 main st ") (ExactMatch.CStr "TAMPA")
                    (ExactMatch.CStr "Fl") (ExactMatch.CStr "33601") in
  let later :=
    Tampa.candidate (ExactMatch.CStr "100 Main St") (ExactMatch.CStr "Tampa")
                    (ExactMatch.CStr "FL") (ExactMatch.CInt 33601) in
  ExactMatch._check_exact_match Tampa.golden [other; same; later] =
  ExactMatch.mkVerdict true (Some same).
Proof.
  intros other same later.
  apply (proj1 (proj2 (proj1 C7_exact_match_is_first_agreeing_candidate
                             Tampa.golden [other; same; later]))
               [other] same [later]).
  - reflexivity.
  - apply VerifierSpecFacts.agrees_iff. vm_compute. reflexivity.
  - intros x [<- | []] H.
    apply VerifierSpecFacts.agrees_iff in H. vm_compute in H. discriminate H.
Defined.

(** ** Street-address decomposition *)

Module DecomposerFacts.
Import PyStr Decomposer.

Lemma decompose_core address1 d :
  decompose address1 = Some d ->
  street_name_core d = strip_street_type (street_name_full d).
Proof.
  unfold decompose.
  destruct (re_match_number_name (strip address1)) as [[n f] |].
  - intros H. inversion H. reflexivity.
  - destruct (split_once (strip address1)) as [| p0 [| p1 l]]; try discriminate.
    destruct (isdigit p0); [| discriminate].
    intros H. inversion H. reflexivity.
Qed.

Lemma is_street_type_iff w : is_street_type w = true <-> In w street_types.
Proof.
  unfold is_street_type. rewrite existsb_exists. split.
  - intros (x & Hx & E). apply String.eqb_eq in E. subst. exact Hx.
  - intros H. exists w. split; [exact H | apply String.eqb_refl].
Qed.

Lemma strip_street_type_many full init w :
  split (strip full) = init ++ [w] -> init <> [] ->
  strip_street_type full =
  if is_street_type (rstrip_dot (lower w)) then join " " init else full.
Proof.
  intros E Hinit. unfold strip_street_type. rewrite E.
  rewrite last_last, removelast_last.
  replace (1 <? length (init ++ [w])) with true; [reflexivity |].
  symmetry. apply Nat.ltb_lt. rewrite length_app. simpl.
  destruct init; [congruence | simpl; lia].
Qed.

Lemma strip_street_type_single full :
  length (split (strip full)) <= 1 -> strip_street_type full = full.
Proof.
  intros H. unfold strip_street_type.
  replace (1 <? length (split (strip full))) with false; [reflexivity |].
  symmetry. apply Nat.ltb_ge. exact H.
Qed.

End DecomposerFacts.

(** C8. Decomposing 123 Oak Ln gives street number 123 and core Oak;
    456 Grand Concourse keeps the core Grand Concourse. In general, when
    the remainder after the street number has several tokens and its last
    token, lower-cased and without trailing periods, is in the street-type
    vocabulary, that one token is removed from the core (whatever its
    casing, as in BLVD. or Road St); otherwise the core is the remainder
    as it is, in particular when the remainder is a single token. The
    tokens are separated by whitespace of any kind: a no-break space
    before Ln separates as a space does, and one before the street number
    is trimmed. Texts are sequences of code points below 256. *)
Theorem C8_street_type_suffix_is_stripped :
  Decomposer.decompose "123 Oak Ln" =
    Some (Decomposer.mkDecomposed "123" "Oak Ln" "Oak") /\
  Decomposer.decompose "456 Grand Concourse" =
    Some (Decomposer.mkDecomposed "456" "Grand Concourse" "Grand Concourse") /\
  Decomposer.decompose "77 Sunset BLVD." =
    Some (Decomposer.mkDecomposed "77" "Sunset BLVD." "Sunset") /\
  Decomposer.decompose "9 Mill Road St" =
    Some (Decomposer.mkDecomposed "9" "Mill Road St" "Mill Road") /\
  Decomposer.decompose "12 Lane" =
    Some (Decomposer.mkDecomposed "12" "Lane" "Lane") /\
  Decomposer.decompose ("12 Oak" ++ Tampa.nbsp ++ "Ln") =
    Some (Decomposer.mkDecomposed "12" ("Oak" ++ Tampa.nbsp ++ "Ln") "Oak") /\
  Decomposer.decompose (Tampa.nbsp ++ "123 Oak Ln") =
    Some (Decomposer.mkDecomposed "123" "Oak Ln" "Oak") /\
  (forall address1 d,
      Decomposer.decompose address1 = Some d ->
      let tokens := PyStr.split (PyStr.strip (Decomposer.street_name_full d)) in
      (forall init w,
          tokens = init ++ [w] -> init <> [] ->
          In (PyStr.rstrip_dot (PyStr.lower w)) Decomposer.street_types ->
          Decomposer.street_name_core d = PyStr.join " " init) /\
      (forall init w,
          tokens = init ++ [w] -> init <> [] ->
          ~ In (PyStr.rstrip_dot (PyStr.lower w)) Decomposer.street_types ->
          Decomposer.street_name_core d = Decomposer.street_name_full d) /\
      (length tokens <= 1 ->
       Decomposer.street_name_core d = Decomposer.street_name_full d)).
Proof.
  do 7 (split; [vm_compute; reflexivity |]).
  intros address1 d Hd tokens. subst tokens.
  rewrite (DecomposerFacts.decompose_core _ _ Hd).
  split; [| split].
  - intros init w E Hinit Hin.
    rewrite (DecomposerFacts.strip_street_type_many _ _ _ E Hinit).
    apply DecomposerFacts.is_street_type_iff in Hin. rewrite Hin. reflexivity.
  - intros init w E Hinit Hnot.
    rewrite (DecomposerFacts.strip_street_type_many _ _ _ E Hinit).
    destruct (Decomposer.is_street_type (PyStr.rstrip_dot (PyStr.lower w))) eqn:T.
    + apply DecomposerFacts.is_street_type_iff in T. contradiction.
    + reflexivity.
  - apply DecomposerFacts.strip_street_type_single.
Qed.

Lemma C8_street_type_suffix_is_stripped_witness :
  Decomposer.street_name_core
    (Decomposer.mkDecomposed "45" "Old Mill   Pkwy." "Old Mill") =
  PyStr.join " " ["Old"; "Mill"].
Proof.
  apply (proj1 (proj2 (proj2 (proj2 (proj2 (proj2 (proj2 (proj2
           C8_street_type_suffix_is_stripped))))))
           "45  Old Mill   Pkwy. "
           (Decomposer.mkDecomposed "45" "Old Mill   Pkwy." "Old Mill")
           eq_refl) ["Old"; "Mill"] "Pkwy.").
  - reflexivity.
  - discriminate.
  - vm_compute. tauto.
Defined.

(** ** Ranking, review and result assembly *)

Module AgentFacts.
Import PyStr Agent.

Lemma Qltb_true a b : Qltb a b = true <-> (a < b)%Q.
Proof.
  unfold Qltb. rewrite negb_true_iff. split.
  - intros H. apply Qnot_le_lt. intros L.
    apply Qle_bool_iff in L. congruence.
  - intros H. destruct (Qle_bool b a) eqn:E; [| reflexivity].
    apply Qle_bool_iff in E. exfalso. exact (Qlt_not_le _ _ H E).
Qed.

Lemma Qltb_false a b : Qltb a b = false -> (b <= a)%Q.
Proof.
  unfold Qltb. rewrite negb_false_iff. apply Qle_bool_iff.
Qed.

Lemma insert_desc_in key x l y :
  In y (insert_desc key x l) <-> y = x \/ In y l.
Proof.
  induction l as [| z l IH]; simpl.
  - intuition.
  - destruct (Qltb (key x) (key z)); simpl; [rewrite IH |]; intuition.
Qed.

Lemma sort_desc_in key l y : In y (sort_desc key l) <-> In y l.
Proof.
  induction l as [| x l IH]; simpl; [tauto |].
  rewrite insert_desc_in, IH. intuition.
Qed.

(** The head of the ranking has the highest score. *)
Lemma sort_desc_head_max key l top rest :
  sort_desc key l = top :: rest ->
  forall r, In r l -> (key r <= key top)%Q.
Proof.
  revert top rest. induction l as [| x l IH]; intros top rest E r Hr.
  - destruct Hr.
  - simpl in E. destruct (sort_desc key l) as [| y s] eqn:S.
    + simpl in E. inversion E; subst.
      destruct Hr as [-> | Hr]; [apply Qle_refl |].
      apply (sort_desc_in key) in Hr. rewrite S in Hr. destruct Hr.
    + simpl in E. destruct (Qltb (key x) (key y)) eqn:C.
      * inversion E; subst.
        destruct Hr as [-> | Hr].
        -- apply Qlt_le_weak. apply Qltb_true. exact C.
        -- exact (IH top s eq_refl r Hr).
      * inversion E; subst.
        destruct Hr as [-> | Hr]; [apply Qle_refl |].
        apply Qle_trans with (key y).
        -- exact (IH y s eq_refl r Hr).
        -- apply Qltb_false. exact C.
Qed.

Lemma in_top10 {A} (l : list A) x : In x (top10 l) -> In x l.
Proof.
  unfold top10. generalize 10. intros n. revert l.
  induction n as [| n IH]; intros [| y l]; simpl; try tauto.
  intros [-> | H]; auto.
Qed.

Lemma top10_cons {A} (x : A) l : top10 (x :: l) = x :: firstn 9 l.
Proof. reflexivity. Qed.

Lemma py_eq_str_true v text : py_eq_str v text = true -> v = PStr text.
Proof.
  destruct v; simpl; try discriminate.
  intros H. apply String.eqb_eq in H. congruence.
Qed.

Lemma py_index_in l idx v :
  py_index l idx = inr v -> exists r, v = PRec r /\ In r l.
Proof.
  destruct idx; simpl; try discriminate.
  set (i := (if (z <? 0)%Z then (z + Z.of_nat (length l))%Z else z)).
  destruct (i <? 0)%Z; [discriminate |].
  destruct (nth_error l (Z.to_nat i)) as [r |] eqn:E; [| discriminate].
  intros H. inversion H. exists r. split; [reflexivity |].
  eapply nth_error_In. exact E.
Qed.

(** Inside the range the element is read and no exception is raised. *)
Lemma py_index_in_range l idx :
  in_range idx (length l) = true ->
  (exists r, py_index l idx = inr (PRec r)) \/
  (exists e, py_index l idx = inl e /\ exn_kind e = TypeError).
Proof.
  destruct idx; simpl; try discriminate.
  - intros H. apply andb_true_iff in H. destruct H as [H0 Hn].
    apply Z.leb_le in H0. apply Z.ltb_lt in Hn.
    assert (Hz : (z <? 0)%Z = false) by (apply Z.ltb_ge; lia).
    rewrite !Hz.
    destruct (nth_error l (Z.to_nat z)) as [r |] eqn:E.
    + left. exists r. reflexivity.
    + exfalso. apply nth_error_None in E. lia.
  - intros _. right. eexists. split; reflexivity.
Qed.

Lemma recommended_is_candidate source index top rest gs ints v :
  recommended_match_of source index (top :: rest) gs ints = inr v ->
  exists r, v = PRec r /\ In r ((top :: rest) ++ gs ++ ints).
Proof.
  unfold recommended_match_of.
  destruct (py_eq_str source "golden_source" && in_range index (length gs)).
  - intros H. destruct (py_index_in _ _ _ H) as (r & -> & Hr).
    exists r. split; [reflexivity |].
    apply in_or_app. right. apply in_or_app. left. exact Hr.
  - destruct (py_eq_str source "internal" && in_range index (length ints)).
    + intros H. destruct (py_index_in _ _ _ H) as (r & -> & Hr).
      exists r. split; [reflexivity |].
      apply in_or_app. right. apply in_or_app. right. exact Hr.
    + intros H. inversion H. exists top. split; [reflexivity |].
      left. reflexivity.
Qed.

(** A position below 1 or above the length is outside the range of the
    range check. *)
Lemma in_range_sub1_out index i idx0 n :
  index_value index = Some i ->
  (i < 1 \/ Z.of_nat n < i)%Z ->
  py_sub1 index = inr idx0 ->
  in_range idx0 n = false.
Proof.
  intros Hval Hout Hsub.
  assert (Hz : idx0 = PInt (i - 1)).
  { destruct index; simpl in Hval, Hsub; try discriminate;
      injection Hval as <-; injection Hsub as <-; reflexivity. }
  subst idx0. simpl. apply andb_false_iff.
  destruct Hout as [H | H].
  - left. apply Z.leb_gt. lia.
  - right. apply Z.ltb_ge. lia.
Qed.

(** What is no position is a float after the subtraction, or raises. *)
Lemma no_position_sub1 index idx0 :
  index_value index = None -> py_sub1 index = inr idx0 ->
  exists q, idx0 = PFloat q.
Proof.
  destruct index; simpl; try discriminate.
  intros _ H. injection H as <-. eexists. reflexivity.
Qed.

(** The chain never reads a list outside its range: when it raises, the
    exception is the [TypeError] of a float used as index. *)
Lemma recommended_error source index all gs ints e :
  recommended_match_of source index all gs ints = inl e ->
  exn_kind e = TypeError.
Proof.
  unfold recommended_match_of.
  destruct (py_eq_str source "golden_source" && in_range index (length gs))
    eqn:C1.
  - apply andb_true_iff in C1. destruct C1 as [_ R].
    destruct (py_index_in_range _ _ R) as [[r E] | (e' & E & K)]; rewrite E.
    + discriminate.
    + intros H. inversion H; subst. exact K.
  - destruct (py_eq_str source "internal" && in_range index (length ints))
      eqn:C2.
    + apply andb_true_iff in C2. destruct C2 as [_ R].
      destruct (py_index_in_range _ _ R) as [[r E] | (e' & E & K)]; rewrite E.
      * discriminate.
      * intros H. inversion H; subst. exact K.
    + destruct all; discriminate.
Qed.

(** With an invalid pointer the chain selects the first of
    [all_matches] whenever it returns, and it returns for every index that
    is not a float. *)
Lemma recommended_invalid parsed top rest gs ints index :
  pointer_invalid parsed (length gs) (length ints) ->
  py_sub1 (dict_get_or parsed "best_match_index" (PInt 1)) = inr index ->
  (forall v,
      recommended_match_of
        (dict_get_or parsed "best_match_source" (PStr "golden_source"))
        index (top :: rest) gs ints = inr v -> v = PRec top) /\
  ((forall q, index <> PFloat q) ->
   recommended_match_of
     (dict_get_or parsed "best_match_source" (PStr "golden_source"))
     index (top :: rest) gs ints = inr (PRec top)).
Proof.
  unfold pointer_invalid.
  set (source := dict_get_or parsed "best_match_source" (PStr "golden_source")).
  set (raw := dict_get_or parsed "best_match_index" (PInt 1)).
  intros Hinv Hsub.
  assert (Hthird : py_eq_str source "golden_source"
                   && in_range index (length gs) = false ->
                   py_eq_str source "internal"
                   && in_range index (length ints) = false ->
                   recommended_match_of source index (top :: rest) gs ints =
                   inr (PRec top)).
  { intros C1 C2. unfold recommended_match_of. rewrite C1, C2. reflexivity. }
  assert (Hint : (forall q, index <> PFloat q) ->
                 recommended_match_of source index (top :: rest) gs ints =
                 inr (PRec top)).
  { intros Hnf.
    destruct Hinv as [[Hg Hi] | [Hno | (i & Ei & [[Es Hout] | [Es Hout]])]].
    - apply Hthird.
      + destruct (py_eq_str source "golden_source") eqn:E; [| reflexivity].
        apply py_eq_str_true in E. contradiction.
      + destruct (py_eq_str source "internal") eqn:E; [| reflexivity].
        apply py_eq_str_true in E. contradiction.
    - destruct (no_position_sub1 _ _ Hno Hsub) as [q Eq].
      exfalso. exact (Hnf q Eq).
    - apply Hthird; rewrite Es.
      + rewrite (in_range_sub1_out _ _ _ _ Ei Hout Hsub).
        apply andb_false_r.
      + reflexivity.
    - apply Hthird; rewrite Es.
      + reflexivity.
      + rewrite (in_range_sub1_out _ _ _ _ Ei Hout Hsub).
        apply andb_false_r. }
  split; [| exact Hint].
  intros v Hv.
  destruct index as [| | | q | | | |];
    try (rewrite Hint in Hv by (intros; discriminate);
         inversion Hv; reflexivity).
  unfold recommended_match_of in Hv.
  destruct (py_eq_str source "golden_source"
            && in_range (PFloat q) (length gs));
    [cbn in Hv; discriminate Hv |].
  destruct (py_eq_str source "internal"
            && in_range (PFloat q) (length ints));
    [cbn in Hv; discriminate Hv |].
  inversion Hv. reflexivity.
Qed.

Section WithEnv.
Variable env : Collaborators.

Lemma review_parsed_shape st parsed top rest gs ints d :
  review_parsed env st parsed (top :: rest) gs ints = inr d ->
  exists r converted,
    d = reviewed_dict parsed st (top :: rest) (PRec r) converted /\
    In r ((top :: rest) ++ gs ++ ints).
Proof.
  unfold review_parsed, ebind.
  destruct (py_sub1 _) as [e | index]; [discriminate |].
  destruct (recommended_match_of _ _ _ _ _) as [e | v] eqn:R; [discriminate |].
  destruct (convert_analyses _ _ _) as [e | c1]; [discriminate |].
  destruct (convert_analyses _ _ _) as [e | c2]; [discriminate |].
  intros H. inversion H.
  destruct (recommended_is_candidate _ _ _ _ _ _ _ R) as (r & -> & Hr).
  exists r, c2. auto.
Qed.

Lemma review_parsed_invalid st parsed top rest gs ints d :
  pointer_invalid parsed (length gs) (length ints) ->
  review_parsed env st parsed (top :: rest) gs ints = inr d ->
  exists converted,
    d = reviewed_dict parsed st (top :: rest) (PRec top) converted.
Proof.
  intros Hinv. unfold review_parsed, ebind.
  destruct (py_sub1 _) as [e | index] eqn:S; [discriminate |].
  destruct (recommended_match_of _ _ _ _ _) as [e | v] eqn:R; [discriminate |].
  rewrite (proj1 (recommended_invalid _ _ _ _ _ _ Hinv S) v R).
  destruct (convert_analyses _ _ _) as [e | c1]; [discriminate |].
  destruct (convert_analyses _ _ _) as [e | c2]; [discriminate |].
  intros H. inversion H. exists c2. reflexivity.
Qed.

Lemma convert_items_error tag items converted e :
  convert_items env tag items converted = inl e ->
  exn_kind e = AttributeError.
Proof.
  revert converted. induction items as [| [idx_str analysis] items IH];
    intros converted; simpl; [discriminate |].
  destruct (py_int env idx_str); [| apply IH].
  destruct analysis; try apply IH;
    intros H; inversion H; reflexivity.
Qed.

(** No statement of the branch for a parsed response reads a list outside
    its range: what the branch can raise is a [TypeError] or an
    [AttributeError]. *)
Lemma review_parsed_error st parsed all gs ints e :
  review_parsed env st parsed all gs ints = inl e ->
  exn_kind e <> IndexError.
Proof.
  unfold review_parsed, ebind.
  destruct (py_sub1 _) as [e0 | index] eqn:S.
  { intros H. inversion H; subst.
    destruct (dict_get_or parsed "best_match_index" (PInt 1));
      inversion S; discriminate. }
  destruct (recommended_match_of _ _ _ _ _) as [e0 | v] eqn:R.
  { intros H. inversion H; subst.
    rewrite (recommended_error _ _ _ _ _ _ R). discriminate. }
  assert (Hconv : forall tag analyses converted e0,
             convert_analyses env tag analyses converted = inl e0 ->
             exn_kind e0 <> IndexError).
  { intros tag analyses converted e0. unfold convert_analyses, ebind.
    destruct analyses; simpl;
      try (intros H; inversion H; discriminate).
    intros H. rewrite (convert_items_error _ _ _ _ H). discriminate. }
  destruct (convert_analyses env "gs_" _ _) as [e0 | c1] eqn:C1.
  { intros H. inversion H; subst. exact (Hconv _ _ _ _ C1). }
  destruct (convert_analyses env "int_" _ _) as [e0 | c2] eqn:C2.
  { intros H. inversion H; subst. exact (Hconv _ _ _ _ C2). }
  discriminate.
Qed.

(** The [try] block sends one request and leaves the candidates as they
    are; its result is decided by the reply. *)
Lemma review_body_run input all gs ints w :
  let prompt := build_prompt (store w) input gs ints in
  review_body env input all gs ints w =
  (match messages_create env prompt with
   | inl e => inl e
   | inr text =>
       match Parser._parse_claude_response (json_loads env) text with
       | PDict parsed => review_parsed env (store w) parsed all gs ints
       | _ => fallback_review (store w) all unavailable_reasoning
       end
   end,
   after_request w prompt).
Proof.
  unfold review_body, bind, get_store, create_message, lift, after_request.
  simpl.
  destruct (messages_create env _) as [e | text]; [reflexivity |].
  destruct (Parser._parse_claude_response _ _); reflexivity.
Qed.

Lemma review_run input all gs ints w :
  let prompt := build_prompt (store w) input gs ints in
  _review_fuzzy_matches_with_claude env input all gs ints w =
  (match fst (review_body env input all gs ints w) with
   | inr d => inr d
   | inl e => fallback_review (store w) all (failed_reasoning e)
   end,
   after_request w prompt).
Proof.
  unfold _review_fuzzy_matches_with_claude, try_except.
  rewrite review_body_run. simpl.
  destruct (messages_create env _) as [e | text]; [reflexivity |].
  destruct (Parser._parse_claude_response _ _) as [| | | | | | parsed |];
    try (destruct (fallback_review (store w) all unavailable_reasoning);
         reflexivity).
  destruct (review_parsed env (store w) parsed all gs ints); reflexivity.
Qed.

(** What the review returns when there is a candidate: always a
    dictionary, either the fallback on the first candidate or the reviewed
    dictionary recommending one of the candidates it was given. *)
Lemma review_outcome input top rest gs ints w :
  exists d,
    _review_fuzzy_matches_with_claude env input (top :: rest) gs ints w =
    (inr d, after_request w (build_prompt (store w) input gs ints)) /\
    ((exists reasoning, d = fallback_dict (store w) top reasoning) \/
     (exists parsed r converted,
         d = reviewed_dict parsed (store w) (top :: rest) (PRec r) converted /\
         In r ((top :: rest) ++ gs ++ ints))).
Proof.
  rewrite review_run, review_body_run. simpl.
  destruct (messages_create env _) as [e | text].
  { eexists. split; [reflexivity |]. left. eexists. reflexivity. }
  destruct (Parser._parse_claude_response _ _) as [| | | | | | parsed |];
    try (eexists; split; [reflexivity |]; left; eexists; reflexivity).
  destruct (review_parsed env (store w) parsed (top :: rest) gs ints)
    as [e | d] eqn:R.
  - eexists. split; [reflexivity |]. left. eexists. reflexivity.
  - exists d. split; [reflexivity |]. right.
    destruct (review_parsed_shape _ _ _ _ _ _ _ R) as (r & c & -> & Hr).
    exists parsed, r, c. auto.
Qed.

(** Attaching analyses never raises and never sends a request. *)
Lemma attach_analyses_run tag analyses idx matches w :
  exists st',
    attach_analyses tag analyses idx matches w =
    (inr tt, mkWorld st' (requests w)).
Proof.
  revert idx w. induction matches as [| r matches IH]; intros idx w; simpl.
  - exists (store w). destruct w. reflexivity.
  - unfold bind.
    destruct (dict_get analyses _) as [a |].
    + unfold set_ai_analysis at 1. simpl.
      destruct (IH (S idx) (mkWorld
        (fun r' => if Nat.eqb r' r
                   then mkRecord (MasterAddress (store w r'))
                                 (similarity_score (store w r'))
                                 (source_type (store w r'))
                                 (source_table (store w r')) (Some a)
                   else store w r') (requests w))) as [st' E].
      exists st'. exact E.
    + unfold ret at 1. destruct (IH (S idx) w) as [st' E].
      exists st'. exact E.
Qed.

Lemma choose_best_needs_candidate st review :
  exists e, choose_best st review [] = inl e.
Proof.
  unfold choose_best. simpl.
  destruct (py_truthy _); eexists; reflexivity.
Qed.

(** [match_address] when something was retrieved: the review, the two
    attachment loops, then the assembly on the store they leave. *)
Lemma match_address_run input mr w :
  (total_matches mr =? 0)%Z = false ->
  exists review st',
    let prompt :=
      build_prompt (store w) input (top10 (golden_source_matches mr))
                   (top10 (internal_matches mr)) in
    _review_fuzzy_matches_with_claude env input
      (top10 (merged_ranking (store w) mr))
      (top10 (golden_source_matches mr)) (top10 (internal_matches mr)) w =
    (review, after_request w prompt) /\
    match_address env input mr w =
    match review with
    | inl e => (inl e, after_request w prompt)
    | inr d =>
        (assemble env st' input mr d (merged_ranking (store w) mr),
         mkWorld st' (requests w ++ [prompt]))
    end.
Proof.
  intros Ht. unfold match_address. rewrite Ht.
  unfold bind, get_store, lift.
  rewrite review_run. cbn zeta.
  destruct (match fst (review_body env input _ _ _ w) with
            | inl e => _ | inr d => _ end) as [e | d].
  - exists (inl e), (store w). split; reflexivity.
  - destruct (attach_analyses_run "gs_" (match_analyses_of d) 0
                (top10 (golden_source_matches mr))
                (after_request w
                   (build_prompt (store w) input
                      (top10 (golden_source_matches mr))
                      (top10 (internal_matches mr))))) as [st1 E1].
    rewrite E1.
    destruct (attach_analyses_run "int_" (match_analyses_of d) 0
                (top10 (internal_matches mr))
                (mkWorld st1 (requests w ++
                   [build_prompt (store w) input
                      (top10 (golden_source_matches mr))
                      (top10 (internal_matches mr))])))
      as [st2 E2].
    cbn [after_request requests] in *. rewrite E2.
    exists (inr d), st2. split; reflexivity.
Qed.

Lemma assemble_needs_candidate st input mr review :
  exists e, assemble env st input mr review [] = inl e.
Proof.
  unfold assemble.
  destruct (choose_best_needs_candidate st review) as [e ->].
  exists e. reflexivity.
Qed.

Lemma assemble_result st input mr review all result :
  assemble env st input mr review all = inr result ->
  exists best_match best_score reasoning score,
    choose_best st review all = inr (best_match, best_score, reasoning) /\
    format_2f best_score = inr score /\
    result =
    match_result (FUZZY_MATCH_THRESHOLD env) input mr best_match best_score
                 reasoning review
                 (Qltb score (FUZZY_MATCH_THRESHOLD env)).
Proof.
  unfold assemble, ebind.
  destruct (choose_best st review all)
    as [e1 | [[best_match best_score] reasoning]]; [discriminate |].
  destruct (best_match_text st best_match source_type "unknown");
    [discriminate |].
  destruct (best_match_text st best_match source_table "Unknown");
    [discriminate |].
  destruct (format_2f best_score) as [e2 | score] eqn:F; [discriminate |].
  destruct (best_match_text st best_match MasterAddress "N/A");
    [discriminate |].
  intros H. inversion H.
  exists best_match, best_score, reasoning, score. auto.
Qed.

(** How a result with [match_found = true] was assembled. *)
Lemma match_address_found input mr w result w' :
  (total_matches mr =? 0)%Z = false ->
  match_address env input mr w = (inr result, w') ->
  exists top rest review st' best_match best_score reasoning score,
    let prompt :=
      build_prompt (store w) input (top10 (golden_source_matches mr))
                   (top10 (internal_matches mr)) in
    merged_ranking (store w) mr = top :: rest /\
    _review_fuzzy_matches_with_claude env input (top10 (top :: rest))
      (top10 (golden_source_matches mr)) (top10 (internal_matches mr)) w =
    (inr review, after_request w prompt) /\
    w' = mkWorld st' (requests w ++ [prompt]) /\
    choose_best st' review (top :: rest) =
    inr (best_match, best_score, reasoning) /\
    format_2f best_score = inr score /\
    result =
    match_result (FUZZY_MATCH_THRESHOLD env) input mr best_match best_score
                 reasoning review
                 (Qltb score (FUZZY_MATCH_THRESHOLD env)).
Proof.
  intros Ht H.
  destruct (match_address_run input mr w Ht) as (review & st' & R & E).
  cbn zeta in R, E. rewrite E in H.
  destruct review as [e | d]; [discriminate |].
  inversion H as [[Ha Hw]]. clear H.
  destruct (merged_ranking (store w) mr) as [| top rest] eqn:Hall.
  { destruct (assemble_needs_candidate st' input mr d) as [e Ee].
    rewrite Ee in Ha. discriminate. }
  destruct (assemble_result _ _ _ _ _ _ Ha)
    as (best_match & best_score & reasoning & score & C & F & ->).
  exists top, rest, d, st', best_match, best_score, reasoning, score.
  cbn zeta. auto 10.
Qed.

Lemma match_address_none input mr w :
  (total_matches mr =? 0)%Z = true ->
  match_address env input mr w = (inr (no_match_result input), w).
Proof. intros Ht. unfold match_address. rewrite Ht. reflexivity. Qed.

Lemma match_found_has_candidates input mr w result w' :
  match_address env input mr w = (inr result, w') ->
  dict_get result "match_found" = Some (PBool true) ->
  (total_matches mr =? 0)%Z = false.
Proof.
  intros H Hm. destruct (total_matches mr =? 0)%Z eqn:Ht; [| reflexivity].
  rewrite (match_address_none _ _ _ Ht) in H. inversion H; subst.
  discriminate Hm.
Qed.

Lemma format_2f_num v score : format_2f v = inr score -> num_of v = Some score.
Proof.
  destruct v; unfold format_2f; cbn [num_of type_name]; try discriminate.
  - intros H. inversion H. reflexivity.
  - destruct (Z.abs z <? 2 ^ 1024 - 2 ^ 970)%Z; [| discriminate].
    intros H. inversion H. reflexivity.
  - intros H. inversion H. reflexivity.
Qed.

(** The best match chosen from a review is one of the candidates. *)
Lemma choose_best_candidate st top rest gs ints d best_match best_score reasoning :
  ((exists text, d = fallback_dict st top text) \/
   (exists parsed r converted,
       d = reviewed_dict parsed st (top10 (top :: rest)) (PRec r) converted /\
       In r (top10 (top :: rest) ++ gs ++ ints))) ->
  forall st',
  choose_best st' d (top :: rest) = inr (best_match, best_score, reasoning) ->
  exists r, best_match = PRec r /\ In r ((top :: rest) ++ gs ++ ints).
Proof.
  intros Hd st'. unfold choose_best. simpl first_match.
  destruct (py_truthy _).
  - destruct Hd as [[text ->] | (parsed & r & conv & -> & Hr)].
    + intros H. inversion H. exists top. split; [reflexivity |].
      left. reflexivity.
    + intros H. inversion H. exists r. split; [reflexivity |].
      apply in_app_or in Hr. apply in_or_app.
      destruct Hr as [Hr | Hr]; [left; apply in_top10; exact Hr | right; exact Hr].
  - intros H. inversion H. exists top. split; [reflexivity |].
    left. reflexivity.
Qed.

Lemma assemble_threshold st input mr review all threshold :
  assemble (with_threshold env threshold) st input mr review all =
  match assemble env st input mr review all with
  | inl e => inl e
  | inr result => inr (with_flag_for threshold result)
  end.
Proof.
  unfold assemble, ebind. cbn [FUZZY_MATCH_THRESHOLD with_threshold].
  destruct (choose_best st review all)
    as [e1 | [[best_match best_score] reasoning]]; [reflexivity |].
  destruct (best_match_text st best_match source_type "unknown");
    [reflexivity |].
  destruct (best_match_text st best_match source_table "Unknown");
    [reflexivity |].
  destruct (format_2f best_score) as [e2 | score] eqn:F; [reflexivity |].
  destruct (best_match_text st best_match MasterAddress "N/A");
    [reflexivity |].
  unfold with_flag_for, match_result.
  cbn [dict_get String.eqb Ascii.eqb Bool.eqb].
  rewrite (format_2f_num _ _ F). reflexivity.
Qed.

(** The threshold enters the result through the flag and the reported
    threshold only. *)
Lemma match_address_threshold input mr w threshold :
  match_address (with_threshold env threshold) input mr w =
  (match fst (match_address env input mr w) with
   | inl e => inl e
   | inr result => inr (with_flag_for threshold result)
   end,
   snd (match_address env input mr w)).
Proof.
  unfold match_address.
  destruct (total_matches mr =? 0)%Z; [reflexivity |].
  change (_review_fuzzy_matches_with_claude (with_threshold env threshold))
    with (_review_fuzzy_matches_with_claude env).
  unfold bind, get_store, lift.
  destruct (_review_fuzzy_matches_with_claude env input _ _ _ w)
    as [[e | review] w1]; [reflexivity |].
  destruct (attach_analyses_run "gs_" (match_analyses_of review) 0
              (top10 (golden_source_matches mr)) w1) as [st1 E1].
  rewrite E1.
  destruct (attach_analyses_run "int_" (match_analyses_of review) 0
              (top10 (internal_matches mr)) (mkWorld st1 (requests w1)))
    as [st2 E2].
  rewrite E2. cbn [store fst snd].
  rewrite assemble_threshold. reflexivity.
Qed.

(** When the three tiers fail and there is a golden-source candidate, the
    sentinel is read as a verdict pointing at the first golden-source
    candidate. *)
Lemma unparsed_review_recommends_first_golden input all g gs ints w text :
  messages_create env (build_prompt (store w) input (g :: gs) ints) =
  inr text ->
  Parser._parse_claude_response (json_loads env) text = Parser.sentinel text ->
  _review_fuzzy_matches_with_claude env input all (g :: gs) ints w =
  (inr (reviewed_dict [("raw_text", PStr text);
                       ("note", PStr "Could not parse JSON from Claude response")]
                      (store w) all (PRec g) []),
   after_request w (build_prompt (store w) input (g :: gs) ints)).
Proof.
  intros Hreply Hparse.
  rewrite review_run, review_body_run. cbn zeta.
  rewrite Hreply, Hparse. reflexivity.
Qed.


End WithEnv.

End AgentFacts.

(** C9. When the retriever reports [total_matches == 0], [match_address]
    returns the no-match dictionary -- [match_found] false, the fixed
    reasoning, empty candidate lists -- and the list of requests sent to
    the reasoning model is what it was before the call. *)
Theorem C9_no_candidates_no_adjudication :
  forall env input_address golden internal w,
    exists result,
      Agent.match_address env input_address (mkResults golden internal 0) w =
      (inr result, w) /\
      dict_get result "match_found" = Some (PBool false) /\
      dict_get result "reasoning" = Some (PStr Agent.no_match_reasoning) /\
      dict_get result "golden_source_matches" = Some (PList []) /\
      dict_get result "internal_matches" = Some (PList []) /\
      requests (snd (Agent.match_address env input_address
                       (mkResults golden internal 0) w)) = requests w.
Proof.
  intros env input golden internal w.
  exists (Agent.no_match_result input).
  rewrite (AgentFacts.match_address_none env input
             (mkResults golden internal 0) w eq_refl).
  repeat split; reflexivity.
Qed.

(** C10. In every result returned with [match_found = true], the best
    match is one of the candidate objects of the returned
    [golden_source_matches] or [internal_matches] lists, whatever the
    reasoning-model client and the JSON parser answer. *)
Theorem C10_best_match_is_a_returned_candidate :
  forall env input_address match_results w result w',
    Agent.match_address env input_address match_results w = (inr result, w') ->
    dict_get result "match_found" = Some (PBool true) ->
    exists r,
      dict_get result "best_match" = Some (PRec r) /\
      dict_get result "golden_source_matches" =
      Some (PList (map PRec (golden_source_matches match_results))) /\
      dict_get result "internal_matches" =
      Some (PList (map PRec (internal_matches match_results))) /\
      (In (PRec r) (map PRec (golden_source_matches match_results)) \/
       In (PRec r) (map PRec (internal_matches match_results))).
Proof.
  intros env input mr w result w' H Hfound.
  pose proof (AgentFacts.match_found_has_candidates env _ _ _ _ _ H Hfound) as Ht.
  destruct (AgentFacts.match_address_found env _ _ _ _ _ Ht H)
    as (top & rest & review & st' & bm & bs & reasoning & score
        & Hall & R & _ & C & _ & ->).
  cbn zeta in R.
  destruct (AgentFacts.review_outcome env input top (firstn 9 rest)
              (Agent.top10 (golden_source_matches mr))
              (Agent.top10 (internal_matches mr)) w) as (d & Hd & Hshape).
  change (top :: firstn 9 rest) with (Agent.top10 (top :: rest)) in Hd, Hshape.
  rewrite Hd in R. inversion R. subst d.
  destruct (AgentFacts.choose_best_candidate (store w) top rest _ _ _ _ _ _
              Hshape st' C) as (r & -> & Hr).
  exists r. repeat split.
  assert (Hin : In r (golden_source_matches mr ++ internal_matches mr)).
  { apply in_app_or in Hr. destruct Hr as [Hr | Hr].
    - apply (AgentFacts.sort_desc_in (Agent.score_of (store w))).
      unfold Agent.merged_ranking in Hall. rewrite Hall. exact Hr.
    - apply in_app_or in Hr. apply in_or_app.
      destruct Hr as [Hr | Hr]; [left | right];
        apply AgentFacts.in_top10; exact Hr. }
  apply in_app_or in Hin.
  destruct Hin as [Hin | Hin]; [left | right]; apply in_map; exact Hin.
Qed.

Lemma C10_best_match_is_a_returned_candidate_witness :
  exists result w',
    Agent.match_address Demo.env_index5 "100 main st" Demo.three_golden
                        Demo.world = (inr result, w') /\
    exists r,
      dict_get result "best_match" = Some (PRec r) /\
      dict_get result "golden_source_matches" =
      Some (PList (map PRec (golden_source_matches Demo.three_golden))) /\
      dict_get result "internal_matches" =
      Some (PList (map PRec (internal_matches Demo.three_golden))) /\
      (In (PRec r) (map PRec (golden_source_matches Demo.three_golden)) \/
       In (PRec r) (map PRec (internal_matches Demo.three_golden))).
Proof.
  eexists. eexists. split.
  - vm_compute. reflexivity.
  - eapply (C10_best_match_is_a_returned_candidate
              Demo.env_index5 "100 main st" Demo.three_golden Demo.world).
    + vm_compute. reflexivity.
    + reflexivity.
Defined.

(** C6 (code defect). The flag is not computed from the confidence
    threshold. In every result returned with [match_found = true] the
    reported confidence is a number and [business_rule_exception] is true
    exactly when that number is strictly below the setting
    [FUZZY_MATCH_THRESHOLD], the default similarity threshold of the
    retrieval, which the result also reports under the key
    [confidence_threshold]. The setting [CONFIDENCE_THRESHOLD], which the
    module imports, is never read: with any other value of it
    [match_address] returns the same result. So whenever the confidence
    lies between the two settings, the flag is not "confidence below the
    confidence threshold"; with the settings 90 and 80 a match of
    confidence 85 is returned unflagged. The flag is advisory: with
    another [FUZZY_MATCH_THRESHOLD] the same dictionary is returned up to
    the flag and the reported threshold. *)
Theorem C6_flag_ignores_the_confidence_threshold :
  (forall env input_address match_results w result w',
      Agent.match_address env input_address match_results w
      = (inr result, w') ->
      dict_get result "match_found" = Some (PBool true) ->
      exists confidence c flag,
        dict_get result "confidence" = Some confidence /\
        num_of confidence = Some c /\
        dict_get result "business_rule_exception" = Some (PBool flag) /\
        dict_get result "confidence_threshold" =
        Some (PFloat (FUZZY_MATCH_THRESHOLD env)) /\
        (flag = true <-> (c < FUZZY_MATCH_THRESHOLD env)%Q) /\
        (forall threshold,
            Agent.match_address (with_confidence_threshold env threshold)
                                input_address match_results w =
            (inr result, w')) /\
        (((FUZZY_MATCH_THRESHOLD env <= c /\ c < CONFIDENCE_THRESHOLD env) \/
          (CONFIDENCE_THRESHOLD env <= c /\ c < FUZZY_MATCH_THRESHOLD env))%Q ->
         ~ (flag = true <-> (c < CONFIDENCE_THRESHOLD env)%Q)) /\
        (forall threshold,
            Agent.match_address (with_threshold env threshold) input_address
                                match_results w =
            (inr (dict_set
                    (dict_set result "business_rule_exception"
                              (PBool (Qltb c threshold)))
                    "confidence_threshold" (PFloat threshold)),
             w'))) /\
  (exists result w',
      Agent.match_address Demo3.env_85 "100 main st" Demo.one_each Demo.world
      = (inr result, w') /\
      dict_get result "match_found" = Some (PBool true) /\
      dict_get result "confidence" = Some (PInt 85) /\
      dict_get result "business_rule_exception" = Some (PBool false) /\
      CONFIDENCE_THRESHOLD Demo3.env_85 = (90 # 1)%Q).
Proof.
  split.
  2: { eexists. eexists. split; [vm_compute; reflexivity |].
       repeat split. }
  intros env input mr w result w' H Hfound.
  pose proof (AgentFacts.match_found_has_candidates env _ _ _ _ _ H Hfound) as Ht.
  destruct (AgentFacts.match_address_found env _ _ _ _ _ Ht H)
    as (top & rest & review & st' & bm & bs & reasoning & score
        & _ & _ & _ & _ & F & E).
  pose proof (AgentFacts.format_2f_num _ _ F) as Hnum.
  exists bs, score, (Qltb score (FUZZY_MATCH_THRESHOLD env)).
  subst result.
  split; [reflexivity |]. split; [exact Hnum |].
  split; [reflexivity |]. split; [reflexivity |].
  split; [apply AgentFacts.Qltb_true |].
  split; [intros threshold; exact H |].
  split.
  - intros Hbetween Hiff.
    rewrite AgentFacts.Qltb_true in Hiff.
    destruct Hbetween as [[Hge Hlt] | [Hge Hlt]].
    + apply (Qlt_not_le _ _ (proj2 Hiff Hlt)). exact Hge.
    + apply (Qlt_not_le _ _ (proj1 Hiff Hlt)). exact Hge.
  - intros threshold.
    rewrite AgentFacts.match_address_threshold. rewrite H. cbn [fst snd].
    unfold with_flag_for, Agent.match_result.
    cbn [dict_get String.eqb Ascii.eqb Bool.eqb].
    rewrite Hnum. reflexivity.
Qed.

Lemma C6_flag_ignores_the_confidence_threshold_witness :
  exists result w',
    Agent.match_address Demo3.env_85 "100 main st" Demo.one_each
                        Demo.world = (inr result, w') /\
    exists confidence c flag,
      dict_get result "confidence" = Some confidence /\
      num_of confidence = Some c /\
      dict_get result "business_rule_exception" = Some (PBool flag) /\
      dict_get result "confidence_threshold" = Some (PFloat (80 # 1)) /\
      (flag = true <-> (c < 80 # 1)%Q) /\
      (forall threshold,
          Agent.match_address
            (with_confidence_threshold Demo3.env_85 threshold)
            "100 main st" Demo.one_each Demo.world =
          (inr result, w')) /\
      (((80 # 1 <= c /\ c < 90 # 1) \/ (90 # 1 <= c /\ c < 80 # 1))%Q ->
       ~ (flag = true <-> (c < 90 # 1)%Q)) /\
      (forall threshold,
          Agent.match_address (with_threshold Demo3.env_85 threshold)
                              "100 main st" Demo.one_each Demo.world =
          (inr (dict_set
                  (dict_set result "business_rule_exception"
                            (PBool (Qltb c threshold)))
                  "confidence_threshold" (PFloat threshold)),
           w')).
Proof.
  eexists. eexists. split.
  - vm_compute. reflexivity.
  - apply (proj1 C6_flag_ignores_the_confidence_threshold
             Demo3.env_85 "100 main st" Demo.one_each Demo.world).
    + vm_compute. reflexivity.
    + reflexivity.
Defined.

(** C4. When the response was parsed into a verdict whose
    [best_match_source] is neither [golden_source] nor [internal], or whose
    1-based [best_match_index] is out of range for the truncated list of
    the source it names -- or is no position at all (text, null, a float)
    -- the review returns, without raising, a dictionary whose best match
    is the head of the merged ranking, and no candidate of either source
    has a higher similarity score. No list is read outside its range on
    the way: the [try] block never ends with an [IndexError], and for
    every index that is not a float the chain of range checks itself
    selects the head of the merged ranking, no list of a source being
    read. *)
Theorem C4_invalid_pointer_falls_back_to_top :
  forall env input_address match_results w top rest text parsed,
    let golden := Agent.top10 (golden_source_matches match_results) in
    let internal := Agent.top10 (internal_matches match_results) in
    let all_matches := Agent.top10 (top :: rest) in
    let prompt := Agent.build_prompt (store w) input_address golden internal in
    Agent.merged_ranking (store w) match_results = top :: rest ->
    messages_create env prompt = inr text ->
    Parser._parse_claude_response (json_loads env) text = PDict parsed ->
    pointer_invalid parsed (length golden) (length internal) ->
    (exists review,
        Agent._review_fuzzy_matches_with_claude env input_address
          all_matches golden internal w =
        (inr review, after_request w prompt) /\
        dict_get review "best_match" = Some (PRec top)) /\
    (forall r,
        In r (golden_source_matches match_results
              ++ internal_matches match_results) ->
        (Agent.score_of (store w) r <= Agent.score_of (store w) top)%Q) /\
    (forall e,
        fst (Agent.review_body env input_address all_matches golden internal w)
        = inl e ->
        exn_kind e <> IndexError) /\
    (forall index,
        py_sub1 (dict_get_or parsed "best_match_index" (PInt 1)) = inr index ->
        (forall q, index <> PFloat q) ->
        Agent.recommended_match_of
          (dict_get_or parsed "best_match_source" (PStr "golden_source"))
          index all_matches golden internal = inr (PRec top)).
Proof.
  intros env input mr w top rest text parsed golden internal all_matches
         prompt Hall Hreply Hparse Hinv.
  split; [| split; [| split]].
  - rewrite AgentFacts.review_run, AgentFacts.review_body_run. cbn zeta.
    fold golden internal prompt. rewrite Hreply, Hparse. cbn [fst].
    destruct (Agent.review_parsed env (store w) parsed all_matches golden
                                  internal) as [e | d] eqn:R.
    + eexists. split; reflexivity.
    + unfold all_matches in R. rewrite AgentFacts.top10_cons in R.
      destruct (AgentFacts.review_parsed_invalid env _ _ _ _ _ _ _ Hinv R)
        as [converted ->].
      eexists. split; reflexivity.
  - exact (AgentFacts.sort_desc_head_max _ _ _ _ Hall).
  - intros e. rewrite AgentFacts.review_body_run. cbn zeta.
    fold golden internal prompt. rewrite Hreply, Hparse. cbn [fst].
    apply AgentFacts.review_parsed_error.
  - intros index Hsub Hnf. unfold all_matches.
    rewrite AgentFacts.top10_cons.
    exact (proj2 (AgentFacts.recommended_invalid _ _ _ _ _ _ Hinv Hsub) Hnf).
Qed.

Lemma C4_invalid_pointer_falls_back_to_top_witness :
  (exists review,
      Agent._review_fuzzy_matches_with_claude Demo.env_index5 "100 main st"
        [1; 2; 0; 3] [0; 2; 3] [1] Demo.world =
      (inr review,
       after_request Demo.world
         (Agent.build_prompt Demo.candidates "100 main st" [0; 2; 3] [1])) /\
      dict_get review "best_match" = Some (PRec 1)) /\
  Agent.recommended_match_of (PStr "golden_source") (PInt 4)
                             [1; 2; 0; 3] [0; 2; 3] [1] = inr (PRec 1).
Proof.
  destruct (C4_invalid_pointer_falls_back_to_top
              Demo.env_index5 "100 main st" Demo.three_golden Demo.world
              1 [2; 0; 3] Demo.verdict_index5
              [("best_match_source", PStr "golden_source");
               ("best_match_index", PInt 5); ("confidence", PInt 70)])
    as (Hreview & _ & _ & Hchain).
  - vm_compute. reflexivity.
  - reflexivity.
  - vm_compute. reflexivity.
  - right. right. exists 5%Z. split; [reflexivity |].
    left. split; [reflexivity |]. right. vm_compute. reflexivity.
  - split; [exact Hreview |].
    apply (Hchain (PInt 4)); [reflexivity | intros q; discriminate].
Defined.

(** C5. With at least one candidate the review never raises: it always
    returns a dictionary. Whenever the [try] block ends with an exception
    -- in particular when the client raises while the request is sent or
    the response awaited -- the review returns the fallback whose best
    match is the first candidate, whose confidence is that candidate's
    similarity score and whose reasoning contains the text of the
    exception. *)
Theorem C5_review_converts_exceptions_into_fallback :
  forall env input_address top rest golden internal w,
    let prompt := Agent.build_prompt (store w) input_address golden internal in
    (exists review,
        Agent._review_fuzzy_matches_with_claude env input_address
          (top :: rest) golden internal w =
        (inr review, after_request w prompt)) /\
    (forall e w1,
        Agent.review_body env input_address (top :: rest) golden internal w =
        (inl e, w1) ->
        exists review,
          Agent._review_fuzzy_matches_with_claude env input_address
            (top :: rest) golden internal w = (inr review, w1) /\
          dict_get review "best_match" = Some (PRec top) /\
          dict_get review "confidence" =
          Some (PFloat (Agent.score_of (store w) top)) /\
          dict_get review "reasoning" =
          Some (PStr ("Using fuzzy match result (Claude review failed: "
                      ++ exn_str e ++ ")"))) /\
    (forall e,
        messages_create env prompt = inl e ->
        Agent.review_body env input_address (top :: rest) golden internal w =
        (inl e, after_request w prompt)).
Proof.
  intros env input top rest golden internal w prompt.
  split; [| split].
  - destruct (AgentFacts.review_outcome env input top rest golden internal w)
      as (d & Hd & _).
    exists d. exact Hd.
  - intros e w1 Hbody.
    rewrite AgentFacts.review_run. rewrite Hbody. cbn [fst].
    rewrite AgentFacts.review_body_run in Hbody.
    injection Hbody as _ Hw. rewrite <- Hw.
    eexists. split; [reflexivity |].
    repeat split.
  - intros e Hreply.
    rewrite AgentFacts.review_body_run. cbn zeta.
    fold prompt. rewrite Hreply. reflexivity.
Qed.

Lemma C5_review_converts_exceptions_into_fallback_witness :
  exists review,
    Agent._review_fuzzy_matches_with_claude Demo.env_down "100 main st"
      [1; 2; 0; 3] [0; 2; 3] [1] Demo.world =
    (inr review,
     after_request Demo.world
       (Agent.build_prompt Demo.candidates "100 main st" [0; 2; 3] [1])) /\
    dict_get review "best_match" = Some (PRec 1) /\
    dict_get review "confidence" = Some (PFloat (90 # 1)) /\
    dict_get review "reasoning" =
    Some (PStr "Using fuzzy match result (Claude review failed: Connection error.)").
Proof.
  destruct (C5_review_converts_exceptions_into_fallback
              Demo.env_down "100 main st" 1 [2; 0; 3] [0; 2; 3] [1] Demo.world)
    as (_ & Hfallback & Hdown).
  apply (Hfallback (mkExn ClientError "Connection error.")).
  apply Hdown. reflexivity.
Defined.

(** C1 (what the code does at the failing input). The response is plain
    prose: the whole text is not JSON, it holds no fenced block and no
    brace, so the parser returns the sentinel. The merged ranking puts the
    internal candidate (score 90) before the golden-source candidate
    (score 60), and [match_address] returns the golden-source candidate as
    best match with confidence 90, the score of the other candidate. *)
Theorem C1_unparsed_response_is_read_as_a_verdict :
  Parser.tier2 Demo.prose = None /\
  Parser.tier3 Demo.prose = None /\
  Parser._parse_claude_response Demo.loads Demo.prose =
  Parser.sentinel Demo.prose /\
  Agent.merged_ranking Demo.candidates Demo.one_each = [1; 0] /\
  Agent.score_of Demo.candidates 1 = (90 # 1)%Q /\
  Agent.score_of Demo.candidates 0 = (60 # 1)%Q /\
  exists result w',
    Agent.match_address Demo.env_prose "100 main st" Demo.one_each Demo.world =
    (inr result, w') /\
    dict_get result "match_found" = Some (PBool true) /\
    dict_get result "best_match" = Some (PRec 0) /\
    dict_get result "confidence" = Some (PFloat (90 # 1)) /\
    dict_get result "reasoning" = Some (PStr "Claude reviewed the matches").
Proof.
  repeat (split; [vm_compute; reflexivity |]).
  eexists. eexists. split; [vm_compute; reflexivity |].
  repeat split.
Qed.

Module CliFacts.
Import Cli.

Lemma report_no_match input :
  snd (report (Agent.no_match_result input)) =
  Some (mkExn KeyError "'claude_response'").
Proof. reflexivity. Qed.

Lemma report_match threshold input mr best_match best_score reasoning review flag :
  snd (report (Agent.match_result threshold input mr best_match best_score
                                  reasoning review flag)) =
  Some (mkExn KeyError "'claude_response'").
Proof. reflexivity. Qed.

(** No dictionary returned by [match_address] has the key the report
    reads. *)
Lemma report_of_result env input mr w result w' :
  Agent.match_address env input mr w = (inr result, w') ->
  snd (report result) = Some (mkExn KeyError "'claude_response'").
Proof.
  intros H. destruct (total_matches mr =? 0)%Z eqn:Ht.
  - rewrite (AgentFacts.match_address_none env _ _ _ Ht) in H.
    inversion H. apply report_no_match.
  - destruct (AgentFacts.match_address_found env _ _ _ _ _ Ht H)
      as (top & rest & review & st' & bm & bs & reasoning & score
          & _ & _ & _ & _ & _ & ->).
    apply report_match.
Qed.

End CliFacts.

(** C3 (what the code does). [main] never exits with status 0. In
    particular, whenever [match_address] returns a result, the report
    reads the key [claude_response], which no result has, and [main]
    prints the error of the failed lookup and exits with status 1. *)
Theorem C3_main_exits_with_1_after_a_result :
  forall env fuzzy_match_addresses argv table_alt w,
    Cli.exit_code (fst (Cli.main env fuzzy_match_addresses argv table_alt w))
    = 1%Z /\
    forall input_address table_name result w',
      Cli.parse_args argv table_alt = Some (input_address, table_name) ->
      Agent.match_address env input_address
                          (fuzzy_match_addresses input_address) w =
      (inr result, w') ->
      last (Cli.stdout
              (fst (Cli.main env fuzzy_match_addresses argv table_alt w)))
           (Cli.Line EmptyString) =
      Cli.LineVal "Error: " (PStr "'claude_response'").
Proof.
  intros env retrieve argv table_alt w. unfold Cli.main. split.
  - destruct (Cli.parse_args argv table_alt) as [[input table] |];
      [| reflexivity].
    destruct (Agent.match_address env input (retrieve input) w)
      as [[e | result] w1] eqn:H; [reflexivity |].
    pose proof (CliFacts.report_of_result env _ _ _ _ _ H) as Hr.
    destruct (Cli.report result) as [out [e |]]; [reflexivity |].
    discriminate Hr.
  - intros input table result w' Hargs H. rewrite Hargs, H.
    pose proof (CliFacts.report_of_result env _ _ _ _ _ H) as Hr.
    destruct (Cli.report result) as [out [e |]]; [| discriminate Hr].
    cbn [snd] in Hr. inversion Hr. subst e. cbn [fst Cli.stdout exn_str].
    rewrite !app_assoc. apply last_last.
Qed.

Lemma C3_main_exits_with_1_after_a_result_witness :
  last (Cli.stdout
          (fst (Cli.main Demo.env_index5 (fun _ => Demo.three_golden)
                         ["main_alt.py"; "100 main st"] None Demo.world)))
       (Cli.Line EmptyString) =
  Cli.LineVal "Error: " (PStr "'claude_response'").
Proof.
  eapply (proj2 (C3_main_exits_with_1_after_a_result
                   Demo.env_index5 (fun _ => Demo.three_golden)
                   ["main_alt.py"; "100 main st"] None Demo.world)).
  - reflexivity.
  - vm_compute. reflexivity.
Defined.

(* ================================================================== *)
(** * Further properties of the code *)
(* ================================================================== *)

(** ** The merged ranking *)

Module RankingFacts.
Import Agent.

Lemma insert_desc_perm key x l : Permutation (insert_desc key x l) (x :: l).
Proof.
  induction l as [| y l IH]; simpl; [reflexivity |].
  destruct (Qltb (key x) (key y)); [| reflexivity].
  rewrite IH. apply perm_swap.
Qed.

Lemma sort_desc_perm key l : Permutation (sort_desc key l) l.
Proof.
  induction l as [| x l IH]; simpl; [reflexivity |].
  rewrite insert_desc_perm. constructor. exact IH.
Qed.

Lemma insert_desc_sorted key x l :
  StronglySorted (above key) l -> StronglySorted (above key) (insert_desc key x l).
Proof.
  induction l as [| y l IH]; intros Hs; simpl.
  - constructor; constructor.
  - inversion Hs as [| ? ? Hl Hy]; subst.
    destruct (Qltb (key x) (key y)) eqn:C.
    + constructor; [apply IH; exact Hl |].
      apply Forall_forall. intros z Hz.
      apply AgentFacts.insert_desc_in in Hz. destruct Hz as [-> | Hz].
      * unfold above. apply Qlt_le_weak. apply AgentFacts.Qltb_true. exact C.
      * rewrite Forall_forall in Hy. apply Hy. exact Hz.
    + constructor; [exact Hs |].
      apply AgentFacts.Qltb_false in C.
      constructor; [exact C |].
      rewrite Forall_forall in Hy |- *. intros z Hz.
      unfold above in *. apply Qle_trans with (key y); auto.
Qed.

Lemma sort_desc_sorted key l : StronglySorted (above key) (sort_desc key l).
Proof.
  induction l as [| x l IH]; simpl; [constructor |].
  apply insert_desc_sorted. exact IH.
Qed.

Lemma insert_desc_filter_same key q x l :
  Qeq_bool (key x) q = true ->
  filter (fun y => Qeq_bool (key y) q) (insert_desc key x l) =
  x :: filter (fun y => Qeq_bool (key y) q) l.
Proof.
  intros Hx. induction l as [| y l IH]; simpl.
  - rewrite Hx. reflexivity.
  - destruct (Qltb (key x) (key y)) eqn:C; simpl.
    + destruct (Qeq_bool (key y) q) eqn:Hy.
      * exfalso. apply AgentFacts.Qltb_true in C.
        apply Qeq_bool_iff in Hx. apply Qeq_bool_iff in Hy.
        rewrite Hx, Hy in C. exact (Qlt_irrefl _ C).
      * exact IH.
    + rewrite Hx. reflexivity.
Qed.

Lemma insert_desc_filter_other key q x l :
  Qeq_bool (key x) q = false ->
  filter (fun y => Qeq_bool (key y) q) (insert_desc key x l) =
  filter (fun y => Qeq_bool (key y) q) l.
Proof.
  intros Hx. induction l as [| y l IH]; simpl.
  - rewrite Hx. reflexivity.
  - destruct (Qltb (key x) (key y)); simpl.
    + rewrite IH. reflexivity.
    + rewrite Hx. reflexivity.
Qed.

Lemma sort_desc_stable key q l :
  filter (fun y => Qeq_bool (key y) q) (sort_desc key l) =
  filter (fun y => Qeq_bool (key y) q) l.
Proof.
  induction l as [| x l IH]; simpl; [reflexivity |].
  destruct (Qeq_bool (key x) q) eqn:Hx.
  - rewrite (insert_desc_filter_same _ _ _ _ Hx), IH. reflexivity.
  - rewrite (insert_desc_filter_other _ _ _ _ Hx), IH. reflexivity.
Qed.

Lemma sorted_app_above key l1 l2 :
  StronglySorted (above key) (l1 ++ l2) ->
  forall a b, In a l1 -> In b l2 -> (key b <= key a)%Q.
Proof.
  induction l1 as [| x l1 IH]; intros Hs a b Ha Hb; [destruct Ha |].
  simpl in Hs. inversion Hs as [| ? ? Hl Hx]; subst.
  destruct Ha as [-> | Ha].
  - rewrite Forall_forall in Hx. apply Hx. apply in_or_app. right. exact Hb.
  - exact (IH Hl a b Ha Hb).
Qed.

End RankingFacts.

(** X1. The merged ranking holds exactly the candidates of the two
    sources, each as often as the sources hold it: sorting loses and
    duplicates nothing. *)
Theorem X1_merged_ranking_is_a_permutation :
  forall st match_results,
    Permutation (Agent.merged_ranking st match_results)
                (golden_source_matches match_results
                 ++ internal_matches match_results).
Proof. intros. apply RankingFacts.sort_desc_perm. Qed.

(** X2. In the merged ranking every candidate has a similarity score at
    least as high as each candidate that comes after it. *)
Theorem X2_merged_ranking_is_descending :
  forall st match_results,
    StronglySorted
      (fun a b => (Agent.score_of st b <= Agent.score_of st a)%Q)
      (Agent.merged_ranking st match_results).
Proof. intros. apply RankingFacts.sort_desc_sorted. Qed.

(** X3. The sort is stable: for every score, the candidates with that
    score stand in the merged ranking in the order they have in the
    concatenation golden source, then internal. Among equal scores the
    golden-source candidates therefore come first. *)
Theorem X3_merged_ranking_is_stable :
  forall st match_results q,
    filter (fun r => Qeq_bool (Agent.score_of st r) q)
           (Agent.merged_ranking st match_results) =
    filter (fun r => Qeq_bool (Agent.score_of st r) q)
           (golden_source_matches match_results
            ++ internal_matches match_results).
Proof. intros. apply RankingFacts.sort_desc_stable. Qed.

(** X4. The ten candidates of the merged ranking handed to the review are
    the best ones: no candidate left out has a strictly higher score than
    one that is kept. *)
Theorem X4_top_ten_keeps_the_highest_scores :
  forall st match_results kept dropped,
    In kept (Agent.top10 (Agent.merged_ranking st match_results)) ->
    In dropped (skipn 10 (Agent.merged_ranking st match_results)) ->
    (Agent.score_of st dropped <= Agent.score_of st kept)%Q.
Proof.
  intros st mr kept dropped Hk Hd.
  apply (RankingFacts.sorted_app_above (Agent.score_of st)
           (Agent.top10 (Agent.merged_ranking st mr))
           (skipn 10 (Agent.merged_ranking st mr))); auto.
  unfold Agent.top10. rewrite firstn_skipn.
  apply RankingFacts.sort_desc_sorted.
Qed.

Lemma X4_top_ten_keeps_the_highest_scores_witness :
  (Agent.score_of Demo2.graded 0 <= Agent.score_of Demo2.graded 11)%Q.
Proof.
  apply (X4_top_ten_keeps_the_highest_scores Demo2.graded Demo2.twelve 11 0).
  - vm_compute. tauto.
  - vm_compute. tauto.
Defined.

(** ** Effects of [match_address] *)

Module EffectFacts.
Import Agent.

Lemma same_but_analysis_refl st : same_but_analysis st st.
Proof. intros r. auto. Qed.

Lemma same_but_analysis_trans st1 st2 st3 :
  same_but_analysis st1 st2 -> same_but_analysis st2 st3 ->
  same_but_analysis st1 st3.
Proof.
  intros H12 H23 r.
  destruct (H12 r) as (A1 & A2 & A3 & A4).
  destruct (H23 r) as (B1 & B2 & B3 & B4).
  repeat split; congruence.
Qed.

(** One attachment loop changes the analyses of the candidates it walks
    over and nothing else. *)
Lemma attach_analyses_frame tag analyses idx matches w :
  exists st',
    attach_analyses tag analyses idx matches w =
    (inr tt, mkWorld st' (requests w)) /\
    same_but_analysis (store w) st' /\
    forall r, ~ In r matches -> st' r = store w r.
Proof.
  revert idx w. induction matches as [| m matches IH]; intros idx w; simpl.
  - exists (store w). destruct w. simpl.
    split; [reflexivity |]. split; [apply same_but_analysis_refl | auto].
  - unfold bind.
    destruct (dict_get analyses _) as [a |].
    + unfold set_ai_analysis at 1. simpl.
      match goal with
      | |- context [attach_analyses tag analyses (S idx) matches ?w1] =>
          destruct (IH (S idx) w1) as (st' & E & Hsame & Hframe)
      end.
      exists st'. split; [exact E |]. simpl in Hsame, Hframe. split.
      * eapply same_but_analysis_trans; [| exact Hsame].
        intros r. destruct (Nat.eqb r m); simpl; auto.
      * intros r Hr. rewrite Hframe by tauto.
        destruct (Nat.eqb r m) eqn:E1; [| reflexivity].
        apply Nat.eqb_eq in E1. subst. tauto.
    + unfold ret at 1.
      destruct (IH (S idx) w) as (st' & E & Hsame & Hframe).
      exists st'. split; [exact E |]. split; [exact Hsame |].
      intros r Hr. apply Hframe. tauto.
Qed.

(** What a loop leaves at the candidates it walks over, when no candidate
    occurs twice. *)
Lemma attach_analyses_lookup tag analyses matches :
  NoDup matches ->
  forall idx w i r,
    nth_error matches i = Some r ->
    ai_analysis (store (snd (attach_analyses tag analyses idx matches w)) r) =
    match dict_get analyses (tag ++ PyStr.str_of_Z (Z.of_nat (idx + i))) with
    | Some a => Some a
    | None => ai_analysis (store w r)
    end.
Proof.
  induction 1 as [| m matches Hm Hnd IH]; intros idx w i r Hi.
  - destruct i; discriminate.
  - simpl. unfold bind.
    destruct i as [| i]; simpl in Hi.
    + inversion Hi; subst m. rewrite Nat.add_0_r.
      destruct (dict_get analyses _) as [a |].
      * unfold set_ai_analysis at 1. simpl.
        match goal with
        | |- context [attach_analyses tag analyses (S idx) matches ?w1] =>
            destruct (attach_analyses_frame tag analyses (S idx) matches w1)
              as (st' & E & _ & Hframe)
        end.
        rewrite E. simpl. rewrite (Hframe r Hm). simpl.
        rewrite Nat.eqb_refl. reflexivity.
      * unfold ret at 1.
        destruct (attach_analyses_frame tag analyses (S idx) matches w)
          as (st' & E & _ & Hframe).
        rewrite E. simpl. rewrite (Hframe r Hm). reflexivity.
    + assert (Hneq : Nat.eqb r m = false).
      { apply Nat.eqb_neq. intros ->. apply Hm.
        eapply nth_error_In. exact Hi. }
      replace (idx + S i) with (S idx + i) by lia.
      destruct (dict_get analyses (tag ++ PyStr.str_of_Z (Z.of_nat idx)))
        as [a |].
      * unfold set_ai_analysis at 1. simpl.
        rewrite (IH (S idx) _ i r Hi). simpl. rewrite Hneq. reflexivity.
      * unfold ret at 1. apply (IH (S idx) w i r Hi).
Qed.

Section WithEnv.
Variable env : Collaborators.

(** [match_address] with candidates: as [match_address_run], with what the
    attachment loops may have changed. *)
Lemma match_address_run_frame input mr w :
  (total_matches mr =? 0)%Z = false ->
  exists review st',
    let prompt :=
      build_prompt (store w) input (top10 (golden_source_matches mr))
                   (top10 (internal_matches mr)) in
    _review_fuzzy_matches_with_claude env input
      (top10 (merged_ranking (store w) mr))
      (top10 (golden_source_matches mr)) (top10 (internal_matches mr)) w =
    (review, after_request w prompt) /\
    match_address env input mr w =
    match review with
    | inl e => (inl e, after_request w prompt)
    | inr d =>
        (assemble env st' input mr d (merged_ranking (store w) mr),
         mkWorld st' (requests w ++ [prompt]))
    end /\
    same_but_analysis (store w) st' /\
    (forall r,
        ~ In r (top10 (golden_source_matches mr)) ->
        ~ In r (top10 (internal_matches mr)) -> st' r = store w r) /\
    (forall d, review = inr d ->
       st' = store (snd (attach_analyses "int_" (match_analyses_of d) 0
                           (top10 (internal_matches mr))
                           (snd (attach_analyses "gs_" (match_analyses_of d) 0
                                   (top10 (golden_source_matches mr))
                                   (after_request w prompt)))))).
Proof.
  intros Ht. unfold match_address. rewrite Ht.
  unfold bind, get_store, lift.
  rewrite AgentFacts.review_run. cbn zeta.
  destruct (match fst (review_body env input _ _ _ w) with
            | inl e => _ | inr d => _ end) as [e | d].
  - exists (inl e), (store w). repeat split; auto.
    discriminate.
  - destruct (attach_analyses_frame "gs_" (match_analyses_of d) 0
                (top10 (golden_source_matches mr))
                (after_request w
                   (build_prompt (store w) input
                      (top10 (golden_source_matches mr))
                      (top10 (internal_matches mr)))))
      as (st1 & E1 & S1 & F1).
    rewrite E1.
    destruct (attach_analyses_frame "int_" (match_analyses_of d) 0
                (top10 (internal_matches mr))
                (mkWorld st1 (requests w ++
                   [build_prompt (store w) input
                      (top10 (golden_source_matches mr))
                      (top10 (internal_matches mr))])))
      as (st2 & E2 & S2 & F2).
    cbn [after_request requests store] in *. rewrite E2.
    exists (inr d), st2. repeat split; auto.
    + destruct (S1 r) as (A1 & _). destruct (S2 r) as (B1 & _). congruence.
    + destruct (S1 r) as (_ & A1 & _). destruct (S2 r) as (_ & B1 & _). congruence.
    + destruct (S1 r) as (_ & _ & A1 & _). destruct (S2 r) as (_ & _ & B1 & _).
      congruence.
    + destruct (S1 r) as (_ & _ & _ & A1). destruct (S2 r) as (_ & _ & _ & B1).
      congruence.
    + intros r Hg Hi. rewrite (F2 r Hi). apply F1. exact Hg.
    + intros d' Hd. inversion Hd; subst d'. rewrite E1. cbn [snd].
      rewrite E2. reflexivity.
Qed.

End WithEnv.

End EffectFacts.

(** X5. Whenever the retriever reports a non-zero total, [match_address]
    sends exactly one request to the reasoning model, whatever the reply
    and also when the call ends with an exception; the request carries the
    input address and the first ten candidates of each source. *)
Theorem X5_exactly_one_request_per_match :
  forall env input_address match_results w,
    total_matches match_results <> 0%Z ->
    requests (snd (Agent.match_address env input_address match_results w)) =
    requests w
    ++ [Agent.build_prompt (store w) input_address
          (Agent.top10 (golden_source_matches match_results))
          (Agent.top10 (internal_matches match_results))].
Proof.
  intros env input mr w Ht.
  apply Z.eqb_neq in Ht.
  destruct (AgentFacts.match_address_run env input mr w Ht)
    as (review & st' & _ & E).
  cbn zeta in E. rewrite E. destruct review; reflexivity.
Qed.

Lemma X5_exactly_one_request_per_match_witness :
  requests (snd (Agent.match_address Demo.env_down "100 main st"
                   Demo.three_golden Demo.world)) =
  [Agent.build_prompt Demo.candidates "100 main st" [0; 2; 3] [1]].
Proof.
  apply (X5_exactly_one_request_per_match
           Demo.env_down "100 main st" Demo.three_golden Demo.world).
  discriminate.
Defined.

(** X6. [match_address] changes no candidate's address text, similarity
    score, source type or source table, and a candidate outside the first
    ten of both source lists is left exactly as it was: the only mutation
    is the attached analysis. *)
Theorem X6_match_address_only_attaches_analyses :
  forall env input_address match_results w,
    let w' := snd (Agent.match_address env input_address match_results w) in
    same_but_analysis (store w) (store w') /\
    forall r,
      ~ In r (Agent.top10 (golden_source_matches match_results)) ->
      ~ In r (Agent.top10 (internal_matches match_results)) ->
      store w' r = store w r.
Proof.
  intros env input mr w w'. subst w'.
  destruct (total_matches mr =? 0)%Z eqn:Ht.
  - rewrite (AgentFacts.match_address_none env input mr w Ht). simpl.
    split; [apply EffectFacts.same_but_analysis_refl | reflexivity].
  - destruct (EffectFacts.match_address_run_frame env input mr w Ht)
      as (review & st' & _ & E & Hsame & Hframe & _).
    cbn zeta in E. rewrite E. destruct review as [e | d]; simpl.
    + split; [apply EffectFacts.same_but_analysis_refl | reflexivity].
    + split; [exact Hsame | exact Hframe].
Qed.

Lemma X6_match_address_only_attaches_analyses_witness :
  store (snd (Agent.match_address Demo2.env_analyses "1 grade st"
                Demo2.twelve (mkWorld Demo2.graded []))) 40 =
  Demo2.graded 40.
Proof.
  apply (proj2 (X6_match_address_only_attaches_analyses
                  Demo2.env_analyses "1 grade st" Demo2.twelve
                  (mkWorld Demo2.graded []))).
  - vm_compute. intuition discriminate.
  - vm_compute. intuition discriminate.
Defined.

(** X7. If the retriever reports a non-zero total but both candidate
    lists are empty, [match_address] does not return: it raises an
    [IndexError], and the request to the reasoning model has been sent by
    then. *)
Theorem X7_no_candidates_behind_a_total_raises :
  forall env input_address total w,
    total <> 0%Z ->
    exists e w',
      Agent.match_address env input_address (mkResults [] [] total) w =
      (inl e, w') /\
      exn_kind e = IndexError /\
      requests w' =
      requests w ++ [Agent.build_prompt (store w) input_address [] []].
Proof.
  intros env input total w Ht. apply Z.eqb_neq in Ht.
  destruct (AgentFacts.match_address_run env input (mkResults [] [] total) w Ht)
    as (review & st' & R & E).
  cbn zeta in R, E. cbn [golden_source_matches internal_matches] in R, E.
  change (Agent.top10 (Agent.merged_ranking (store w) (mkResults [] [] total)))
    with (@nil nat) in R.
  change (Agent.merged_ranking (store w) (mkResults [] [] total))
    with (@nil nat) in E.
  change (Agent.top10 (@nil nat)) with (@nil nat) in R, E.
  rewrite E. destruct review as [e | d].
  - exists e. eexists. split; [reflexivity |]. split; [| reflexivity].
    rewrite AgentFacts.review_run in R. injection R as R.
    destruct (fst (Agent.review_body env input [] [] [] w)) as [e0 | d0];
      [| discriminate].
    cbn in R. inversion R. reflexivity.
  - unfold Agent.assemble, Agent.choose_best, ebind. cbn [Agent.first_match].
    destruct (py_truthy _); eexists; eexists;
      (split; [reflexivity |]); split; reflexivity.
Qed.

Lemma X7_no_candidates_behind_a_total_raises_witness :
  exists e w',
    Agent.match_address Demo.env_index5 "100 main st" (mkResults [] [] 3)
                        Demo.world = (inl e, w') /\
    exn_kind e = IndexError /\
    requests w' =
    requests Demo.world
    ++ [Agent.build_prompt (store Demo.world) "100 main st" [] []].
Proof.
  apply (X7_no_candidates_behind_a_total_raises
           Demo.env_index5 "100 main st" 3 Demo.world).
  discriminate.
Defined.

(** X8. A review whose [match_found] is falsy (the model answered that no
    candidate matches) does not lead to a no-match result:
    [match_address] returns [match_found = true] with the head of the
    merged ranking as best match, that candidate's similarity score as
    confidence and the review's reasoning. *)
Theorem X8_negative_verdict_still_returns_top_candidate :
  forall env input_address match_results w top rest review w1,
    total_matches match_results <> 0%Z ->
    Agent.merged_ranking (store w) match_results = top :: rest ->
    Agent._review_fuzzy_matches_with_claude env input_address
      (Agent.top10 (top :: rest))
      (Agent.top10 (golden_source_matches match_results))
      (Agent.top10 (internal_matches match_results)) w = (inr review, w1) ->
    py_truthy (dict_get_or review "match_found" PNone) = false ->
    exists result w',
      Agent.match_address env input_address match_results w =
      (inr result, w') /\
      dict_get result "match_found" = Some (PBool true) /\
      dict_get result "best_match" = Some (PRec top) /\
      dict_get result "confidence" =
      Some (PFloat (Agent.score_of (store w) top)) /\
      dict_get result "reasoning" =
      Some (dict_get_or review "reasoning" (PStr "Fuzzy match result")).
Proof.
  intros env input mr w top rest review w1 Ht Hall R Hfalse.
  apply Z.eqb_neq in Ht.
  destruct (EffectFacts.match_address_run_frame env input mr w Ht)
    as (review' & st' & R' & E & Hsame & _).
  cbn zeta in R', E. rewrite Hall in R', E. rewrite R in R'.
  injection R' as <- _. rewrite E.
  unfold Agent.assemble, Agent.choose_best, ebind.
  rewrite Hfalse. cbn.
  destruct (Hsame top) as (_ & Hscore & _).
  unfold Agent.score_of. rewrite Hscore.
  eexists. eexists. split; [reflexivity |]. repeat split.
Qed.

Lemma X8_negative_verdict_still_returns_top_candidate_witness :
  exists result w',
    Agent.match_address Demo2.env_no_match "100 main st" Demo.three_golden
                        Demo.world = (inr result, w') /\
    dict_get result "match_found" = Some (PBool true) /\
    dict_get result "best_match" = Some (PRec 1) /\
    dict_get result "confidence" = Some (PFloat (90 # 1)) /\
    dict_get result "reasoning" =
    Some (PStr "None of these is the address").
Proof.
  edestruct (X8_negative_verdict_still_returns_top_candidate
               Demo2.env_no_match "100 main st" Demo.three_golden Demo.world
               1 [2; 0; 3]) as (result & w' & E & A & B & C & D).
  - discriminate.
  - vm_compute. reflexivity.
  - vm_compute. reflexivity.
  - reflexivity.
  - exists result, w'.
    split; [exact E |]. split; [exact A |]. split; [exact B |].
    split; [exact C | exact D].
Defined.

(** X9. A review with a truthy [match_found] whose confidence is not a
    number makes [match_address] raise when the score is formatted with
    [:.2f] -- a [ValueError] when the confidence is text, a [TypeError]
    when it is null, a list or an object -- so no result is returned. *)
Theorem X9_confidence_in_words_raises :
  forall env input_address match_results w top rest review w1 confidence,
    total_matches match_results <> 0%Z ->
    Agent.merged_ranking (store w) match_results = top :: rest ->
    Agent._review_fuzzy_matches_with_claude env input_address
      (Agent.top10 (top :: rest))
      (Agent.top10 (golden_source_matches match_results))
      (Agent.top10 (internal_matches match_results)) w = (inr review, w1) ->
    py_truthy (dict_get_or review "match_found" PNone) = true ->
    dict_get review "confidence" = Some confidence ->
    num_of confidence = None ->
    exists e w',
      Agent.match_address env input_address match_results w = (inl e, w') /\
      exn_kind e =
      match confidence with
      | PStr _ => ValueError
      | _ => TypeError
      end.
Proof.
  intros env input mr w top rest review w1 confidence Ht Hall R Htrue Hc Hnum.
  apply Z.eqb_neq in Ht.
  destruct (AgentFacts.match_address_run env input mr w Ht)
    as (review' & st' & R' & E).
  cbn zeta in R', E. rewrite Hall in R', E. rewrite R in R'.
  injection R' as <- _. rewrite E.
  destruct (AgentFacts.review_outcome env input top (firstn 9 rest)
              (Agent.top10 (golden_source_matches mr))
              (Agent.top10 (internal_matches mr)) w) as (d & Hd & Hshape).
  change (top :: firstn 9 rest) with (Agent.top10 (top :: rest)) in Hd, Hshape.
  rewrite Hd in R. injection R as <- _.
  destruct Hshape as [[text ->] | (parsed & r & conv & -> & _)].
  - cbn in Hc. inversion Hc; subst confidence. discriminate Hnum.
  - assert (Hconf : forall default,
               dict_get_or (Agent.reviewed_dict parsed (store w)
                              (Agent.top10 (top :: rest)) (PRec r) conv)
                           "confidence" default = confidence).
    { intros default. unfold dict_get_or. rewrite Hc. reflexivity. }
    unfold Agent.assemble, Agent.choose_best, ebind.
    rewrite Htrue. cbn [Agent.first_match]. rewrite Hconf.
    destruct confidence; try discriminate Hnum;
      cbn; eexists; eexists; split; reflexivity.
Qed.

Lemma X9_confidence_in_words_raises_witness :
  exists e w',
    Agent.match_address Demo2.env_in_words "100 main st" Demo.three_golden
                        Demo.world = (inl e, w') /\
    exn_kind e = ValueError.
Proof.
  eapply (X9_confidence_in_words_raises
            Demo2.env_in_words "100 main st" Demo.three_golden Demo.world
            1 [2; 0; 3] _ _ (PStr "high")).
  - discriminate.
  - vm_compute. reflexivity.
  - vm_compute. reflexivity.
  - reflexivity.
  - reflexivity.
  - reflexivity.
Defined.

(** X10. When the response is valid JSON that is not an object (an array,
    a number, a text, null), the review takes the branch for an unusable
    response: it returns the first candidate with that candidate's own
    score as confidence and the reasoning "review unavailable". *)
Theorem X10_json_that_is_no_object_falls_back :
  forall env input_address top rest golden internal w text,
    messages_create env
      (Agent.build_prompt (store w) input_address golden internal) =
    inr text ->
    (forall parsed,
        Parser._parse_claude_response (json_loads env) text <> PDict parsed) ->
    Agent._review_fuzzy_matches_with_claude env input_address (top :: rest)
      golden internal w =
    (inr (Agent.fallback_dict (store w) top Agent.unavailable_reasoning),
     after_request w
       (Agent.build_prompt (store w) input_address golden internal)).
Proof.
  intros env input top rest golden internal w text Hreply Hnot.
  rewrite AgentFacts.review_run, AgentFacts.review_body_run. cbn zeta.
  rewrite Hreply.
  destruct (Parser._parse_claude_response (json_loads env) text)
    as [| | | | | | parsed |]; try reflexivity.
  exfalso. exact (Hnot parsed eq_refl).
Qed.

Lemma X10_json_that_is_no_object_falls_back_witness :
  Agent._review_fuzzy_matches_with_claude Demo2.env_array "100 main st"
    [1; 2; 0; 3] [0; 2; 3] [1] Demo.world =
  (inr (Agent.fallback_dict Demo.candidates 1 Agent.unavailable_reasoning),
   after_request Demo.world
     (Agent.build_prompt Demo.candidates "100 main st" [0; 2; 3] [1])).
Proof.
  apply (X10_json_that_is_no_object_falls_back
           Demo2.env_array "100 main st" 1 [2; 0; 3] [0; 2; 3] [1] Demo.world
           "[1, 2]").
  - reflexivity.
  - intros parsed. vm_compute. discriminate.
Defined.

Lemma nodup_app_disjoint {A} (l1 l2 : list A) :
  NoDup (l1 ++ l2) -> forall a, In a l1 -> In a l2 -> False.
Proof.
  induction l1 as [| x l1 IH]; intros Hnd a H1 H2; [destruct H1 |].
  simpl in Hnd. inversion Hnd as [| ? ? Hx Hrest]; subst.
  destruct H1 as [-> | H1].
  - apply Hx. apply in_or_app. right. exact H2.
  - exact (IH Hrest a H1 H2).
Qed.

(** X11. After [match_address] returned, when no candidate occurs twice
    among the first ten of the two lists, the candidate at position [i]
    of the golden-source list carries the analysis the review stored under
    [gs_i], the candidate at position [i] of the internal list the one
    stored under [int_i], and a candidate without such an entry keeps the
    analysis it had. *)
Theorem X11_analyses_are_attached_by_position :
  forall env input_address match_results w result w' review,
    Agent.match_address env input_address match_results w = (inr result, w') ->
    dict_get result "claude_review" = Some (PDict review) ->
    NoDup (Agent.top10 (golden_source_matches match_results)
           ++ Agent.top10 (internal_matches match_results)) ->
    (forall i r,
        nth_error (Agent.top10 (golden_source_matches match_results)) i
        = Some r ->
        ai_analysis (store w' r) =
        match dict_get (Agent.match_analyses_of review)
                       ("gs_" ++ PyStr.str_of_Z (Z.of_nat i)) with
        | Some a => Some a
        | None => ai_analysis (store w r)
        end) /\
    (forall i r,
        nth_error (Agent.top10 (internal_matches match_results)) i = Some r ->
        ai_analysis (store w' r) =
        match dict_get (Agent.match_analyses_of review)
                       ("int_" ++ PyStr.str_of_Z (Z.of_nat i)) with
        | Some a => Some a
        | None => ai_analysis (store w r)
        end).
Proof.
  intros env input mr w result w' review H Hreview Hnd.
  assert (Ht : (total_matches mr =? 0)%Z = false).
  { destruct (total_matches mr =? 0)%Z eqn:Ht; [| reflexivity].
    rewrite (AgentFacts.match_address_none env input mr w Ht) in H.
    inversion H; subst. discriminate Hreview. }
  destruct (EffectFacts.match_address_run_frame env input mr w Ht)
    as (rv & st' & _ & E & _ & _ & Hst).
  cbn zeta in E, Hst. rewrite E in H.
  destruct rv as [e | d]; [discriminate |].
  injection H as Ha Hw.
  destruct (AgentFacts.assemble_result env _ _ _ _ _ _ Ha)
    as (bm & bs & reasoning & score & _ & _ & Hres).
  rewrite Hres in Hreview. cbn in Hreview. inversion Hreview; subst review.
  subst w'. cbn [store]. rewrite (Hst d eq_refl).
  set (gs := Agent.top10 (golden_source_matches mr)) in *.
  set (ints := Agent.top10 (internal_matches mr)) in *.
  set (w0 := after_request w (Agent.build_prompt (store w) input gs ints)).
  set (w1 := snd (Agent.attach_analyses "gs_" (Agent.match_analyses_of d) 0 gs w0)).
  pose proof (NoDup_app_remove_r _ _ Hnd) as Hgs.
  pose proof (NoDup_app_remove_l _ _ Hnd) as Hints.
  split.
  - intros i r Hi.
    assert (Hr : In r gs) by (eapply nth_error_In; exact Hi).
    destruct (EffectFacts.attach_analyses_frame "int_"
                (Agent.match_analyses_of d) 0 ints w1)
      as (st2 & E2 & _ & F2).
    rewrite E2. cbn [snd store]. rewrite F2.
    + unfold w1.
      rewrite (EffectFacts.attach_analyses_lookup "gs_" _ gs Hgs 0 w0 i r Hi).
      reflexivity.
    + intros Hin. exact (nodup_app_disjoint gs ints Hnd r Hr Hin).
  - intros i r Hi.
    assert (Hr : In r ints) by (eapply nth_error_In; exact Hi).
    rewrite (EffectFacts.attach_analyses_lookup "int_" _ ints Hints 0 w1 i r Hi).
    destruct (EffectFacts.attach_analyses_frame "gs_"
                (Agent.match_analyses_of d) 0 gs w0)
      as (st1 & E1 & _ & F1).
    unfold w1. rewrite E1. cbn [snd store]. rewrite F1; [reflexivity |].
    intros Hin. exact (nodup_app_disjoint gs ints Hnd r Hin Hr).
Qed.

Lemma X11_analyses_are_attached_by_position_witness :
  ai_analysis
    (store (snd (Agent.match_address Demo2.env_analyses "100 main st"
                   Demo.three_golden Demo.world)) 3) =
  Some (PDict [("confidence", PInt 50)]).
Proof.
  edestruct (X11_analyses_are_attached_by_position
               Demo2.env_analyses "100 main st" Demo.three_golden Demo.world)
    as [Hgs _].
  - vm_compute. reflexivity.
  - reflexivity.
  - vm_compute.
    repeat (constructor; [simpl; intuition discriminate |]). constructor.
  - exact (Hgs 2 3 eq_refl).
Defined.

(** ** Schema mapper: partial mappings *)

Module MapperMoreFacts.
Import PyStr SchemaMapper.

Lemma scan_columns_bound test items b :
  scan_columns test items (Some b) = Some b.
Proof.
  induction items as [| [k v] items IH]; simpl; [reflexivity |].
  rewrite andb_false_r. exact IH.
Qed.

Lemma scan_patterns_bound test patterns items b :
  scan_patterns test patterns items (Some b) = Some b.
Proof.
  induction patterns as [| p patterns IH]; simpl; [reflexivity |].
  rewrite scan_columns_bound. destruct (truthy (Some b)); [reflexivity | exact IH].
Qed.

Lemma scan_patterns_found test patterns items v :
  scan_patterns test patterns items None = Some v ->
  exists p k, In p patterns /\ In (k, v) items /\ test p k = true.
Proof.
  induction patterns as [| p patterns IH]; simpl; [discriminate |].
  destruct (scan_columns (test p) items None) as [b |] eqn:E.
  - intros H.
    assert (b = v).
    { destruct (truthy (Some b)); [congruence |].
      rewrite scan_patterns_bound in H. congruence. }
    subst b.
    destruct (SchemaMapperFacts.scan_columns_found _ _ _ E) as (k & Hin & Ht).
    exists p, k. auto.
  - simpl. intros H. destruct (IH H) as (p' & k & Hp & Hin & Ht).
    exists p', k. auto.
Qed.

Lemma scan_patterns_none test patterns items :
  scan_patterns test patterns items None = None ->
  forall p k v, In p patterns -> In (k, v) items -> test p k = false.
Proof.
  induction patterns as [| p patterns IH]; simpl; [intros _ ? ? ? [] |].
  destruct (scan_columns (test p) items None) as [b |] eqn:E.
  - intros H. exfalso.
    destruct (truthy (Some b)); [discriminate |].
    rewrite scan_patterns_bound in H. discriminate.
  - simpl. intros H p' k v [<- | Hp] Hin.
    + destruct (test p k) eqn:T; [| reflexivity].
      destruct (SchemaMapperFacts.scan_columns_finds _ _ _ _ Hin T) as [v' E'].
      congruence.
    + exact (IH H p' k v Hp Hin).
Qed.

(** A bound field holds a column of the table that satisfies one of the
    field's patterns. *)
Lemma bound_is_like test patterns columns v :
  scan_patterns test patterns (columns_lower columns) None = Some v ->
  In v columns /\ like test patterns v = true.
Proof.
  intros H. destruct (scan_patterns_found _ _ _ _ H) as (p & k & Hp & Hin & Ht).
  destruct (SchemaMapperFacts.columns_lower_sound _ _ _ Hin) as [Hv Hk].
  split; [exact Hv |]. apply SchemaMapperFacts.like_spec.
  exists p. rewrite Hk. auto.
Qed.

(** A field stays unbound exactly when no column satisfies its patterns. *)
Lemma unbound_iff_none_like test patterns columns :
  scan_patterns test patterns (columns_lower columns) None = None <->
  filter (like test patterns) columns = [].
Proof.
  split.
  - intros H.
    destruct (filter (like test patterns) columns) as [| c l] eqn:F;
      [reflexivity |].
    assert (Hc : In c columns /\ like test patterns c = true).
    { apply filter_In. rewrite F. left. reflexivity. }
    destruct Hc as [Hin Hlike].
    apply SchemaMapperFacts.like_spec in Hlike. destruct Hlike as (p & Hp & Ht).
    destruct (SchemaMapperFacts.columns_lower_complete _ _ Hin) as [v Hv].
    rewrite (scan_patterns_none _ _ _ H p _ v Hp Hv) in Ht. discriminate.
  - intros F.
    destruct (scan_patterns test patterns (columns_lower columns) None)
      as [v |] eqn:E; [| reflexivity].
    destruct (bound_is_like _ _ _ _ E) as [Hin Hlike].
    assert (Hf : In v (filter (like test patterns) columns))
      by (apply filter_In; auto).
    rewrite F in Hf. destruct Hf.
Qed.

End MapperMoreFacts.

(** X12. Whatever the columns of the table, a field the mapper binds is
    bound to a column of that table whose lower-cased name satisfies one
    of the field's patterns; the mapper never invents a name or binds a
    column that matches no pattern of the field. *)
Theorem X12_bound_columns_come_from_the_table :
  forall columns,
    let mapping := fst (SchemaMapper._get_pinellas_column_mapping columns) in
    (forall a, SchemaMapper.address mapping = Some a ->
               In a columns /\ SchemaMapper.address_like a = true) /\
    (forall c, SchemaMapper.city mapping = Some c ->
               In c columns /\ SchemaMapper.city_like c = true) /\
    (forall s, SchemaMapper.state mapping = Some s ->
               In s columns /\ SchemaMapper.state_like s = true) /\
    (forall z, SchemaMapper.zip mapping = Some z ->
               In z columns /\ SchemaMapper.zip_like z = true).
Proof.
  intros columns mapping. subst mapping.
  unfold SchemaMapper._get_pinellas_column_mapping.
  cbn [fst snd SchemaMapper.address SchemaMapper.city SchemaMapper.state
       SchemaMapper.zip].
  split; [| split; [| split]]; intros v H;
    apply (MapperMoreFacts.bound_is_like _ _ _ _ H).
Qed.

Lemma X12_bound_columns_come_from_the_table_witness :
  In "Street" ["Street"; "City"; "St"; "Zip"] /\
  SchemaMapper.state_like "Street" = true.
Proof.
  apply (proj1 (proj2 (proj2 (X12_bound_columns_come_from_the_table
                                ["Street"; "City"; "St"; "Zip"])))).
  reflexivity.
Defined.

(** X13. The mapping is partial rather than failing: each of the four
    fields is left unbound exactly when no column of the table satisfies
    the field's patterns, and the column list is returned unchanged. *)
Theorem X13_field_unbound_iff_no_column_matches :
  forall columns,
    let mapping := fst (SchemaMapper._get_pinellas_column_mapping columns) in
    (SchemaMapper.address mapping = None <->
     filter SchemaMapper.address_like columns = []) /\
    (SchemaMapper.city mapping = None <->
     filter SchemaMapper.city_like columns = []) /\
    (SchemaMapper.state mapping = None <->
     filter SchemaMapper.state_like columns = []) /\
    (SchemaMapper.zip mapping = None <->
     filter SchemaMapper.zip_like columns = []) /\
    snd (SchemaMapper._get_pinellas_column_mapping columns) = columns.
Proof.
  intros columns mapping. subst mapping.
  unfold SchemaMapper._get_pinellas_column_mapping.
  cbn [fst snd SchemaMapper.address SchemaMapper.city SchemaMapper.state
       SchemaMapper.zip].
  split; [| split; [| split; [| split]]];
    try apply MapperMoreFacts.unbound_iff_none_like.
  reflexivity.
Qed.

Lemma X13_field_unbound_iff_no_column_matches_witness :
  SchemaMapper.address
    (fst (SchemaMapper._get_pinellas_column_mapping
            ["owner"; "City"; "parcel_id"])) = None.
Proof.
  apply (proj2 (proj1 (X13_field_unbound_iff_no_column_matches
                         ["owner"; "City"; "parcel_id"]))).
  reflexivity.
Defined.

(** X29. For every column list in which exactly one column satisfies the
    mapper's address patterns, exactly one its city patterns, exactly one
    its state patterns and exactly one its zip patterns -- in the mapper's
    own sense, where a name counts for every field whose pattern it
    contains, compared in lower case -- the mapping binds each of the four
    fields to that column, whatever the casing and the order of the
    columns. *)
Theorem X29_fields_with_one_matching_column_are_bound :
  forall (columns : list string) (a c s z : string),
    filter SchemaMapper.address_like columns = [a] ->
    filter SchemaMapper.city_like columns = [c] ->
    filter SchemaMapper.state_like columns = [s] ->
    filter SchemaMapper.zip_like columns = [z] ->
    SchemaMapper._get_pinellas_column_mapping columns =
    (SchemaMapper.mkMapping (Some a) (Some c) (Some s) (Some z), columns).
Proof.
  intros columns a c s z Ha Hc Hs Hz.
  unfold SchemaMapper._get_pinellas_column_mapping.
  rewrite (SchemaMapperFacts.scan_patterns_one_like
             SchemaMapper.substring_test SchemaMapper.address_patterns columns a eq_refl Ha).
  rewrite (SchemaMapperFacts.scan_patterns_one_like
             SchemaMapper.substring_test SchemaMapper.city_patterns columns c eq_refl Hc).
  rewrite (SchemaMapperFacts.scan_patterns_one_like
             SchemaMapper.state_test SchemaMapper.state_patterns columns s eq_refl Hs).
  rewrite (SchemaMapperFacts.scan_patterns_one_like
             SchemaMapper.substring_test SchemaMapper.zip_patterns columns z eq_refl Hz).
  reflexivity.
Qed.

Lemma X29_fields_with_one_matching_column_are_bound_witness :
  SchemaMapper._get_pinellas_column_mapping
    ["ZIP_Code"; "owner"; "STATE"; "Mailing_City"; "Addr1"] =
  (SchemaMapper.mkMapping (Some "Addr1") (Some "Mailing_City") (Some "STATE")
                          (Some "ZIP_Code"),
   ["ZIP_Code"; "owner"; "STATE"; "Mailing_City"; "Addr1"]).
Proof.
  apply (X29_fields_with_one_matching_column_are_bound
           ["ZIP_Code"; "owner"; "STATE"; "Mailing_City"; "Addr1"]
           "Addr1" "Mailing_City" "STATE" "ZIP_Code");
    vm_compute; reflexivity.
Defined.

(** ** Exact-match verifier: fields without a column *)

Module SniffFacts.
Import PyStr ExactMatch.

Lemma sniff_key_keeps f acc key :
  names_field f key = false ->
  sniffed_col f (sniff_key acc key) = sniffed_col f acc.
Proof.
  unfold names_field, sniff_key.
  destruct (key_field (lower key)) as [[] |]; destruct f;
    simpl; try reflexivity; discriminate.
Qed.

Lemma sniff_fold_keeps f keys acc :
  forallb (fun key => negb (names_field f key)) keys = true ->
  sniffed_col f (fold_left sniff_key keys acc) = sniffed_col f acc.
Proof.
  revert acc. induction keys as [| key keys IH]; intros acc H; simpl.
  - reflexivity.
  - simpl in H. apply andb_true_iff in H. destruct H as [Hk Hrest].
    rewrite (IH _ Hrest). apply sniff_key_keeps.
    apply negb_true_iff. exact Hk.
Qed.

Lemma fields_agree_field f golden cols r :
  fields_agree golden cols r ->
  golden_field golden (golden_key f) = internal_field r (sniffed_col f cols).
Proof. intros (A & B & C & D). destruct f; assumption. Qed.

End SniffFacts.

(** X14. The verifier reads a field of the internal records only through
    a column its sniffing recognises in the first record. When no key of
    the first record names a field (for the state: a key equal to state or
    st in any casing; State_Code does not count), the internal value of
    that field is taken as empty, and no candidate is an exact match
    unless the golden record's field is blank: absent, empty or
    whitespace only. *)
Theorem X14_field_without_column_blocks_exact_match :
  forall f golden internal_matches,
    forallb (fun key => negb (names_field f key))
            (map fst (hd [] internal_matches)) = true ->
    ~ VerifierSpec.blank
        (VerifierSpec.field_text golden (Some (golden_key f))) ->
    ExactMatch.is_exact_match
      (ExactMatch._check_exact_match golden internal_matches) = false.
Proof.
  intros f golden l Hkeys Hblank.
  assert (Hgolden : ExactMatch.golden_field golden (golden_key f)
                    <> EmptyString).
  { intros H. apply Hblank.
    rewrite VerifierSpecFacts.golden_field_text in H.
    exact (VerifierSpecFacts.normal_form_empty _ H). }
  destruct (ExactMatch.is_exact_match (ExactMatch._check_exact_match golden l))
    eqn:E; [| reflexivity].
  exfalso. apply Hgolden.
  rewrite ExactMatchFacts.check_is_scan in E.
  destruct (ExactMatchFacts.scan_internal_hit _ _ _ E)
    as (before & r & after & _ & _ & Hr & _).
  apply ExactMatchFacts.all_fields_match_iff in Hr.
  rewrite (SniffFacts.fields_agree_field f _ _ _ Hr).
  unfold sniffed_of, ExactMatch.sniff_columns.
  rewrite (SniffFacts.sniff_fold_keeps f _ _ Hkeys).
  destruct f; reflexivity.
Qed.

Lemma X14_field_without_column_blocks_exact_match_witness :
  ExactMatch.is_exact_match
    (ExactMatch._check_exact_match
       [("address1", ExactMatch.CStr "100 Main St");
        ("Mailing City", ExactMatch.CStr "Tampa");
        ("state", ExactMatch.CStr "FL");
        ("zipcode", ExactMatch.CStr "33601")]
       [[("Address", ExactMatch.CStr "100 Main St");
         ("City", ExactMatch.CStr "Tampa");
         ("State_Code", ExactMatch.CStr "FL");
         ("Zip", ExactMatch.CStr "33601")]]) = false.
Proof.
  apply (X14_field_without_column_blocks_exact_match ExactMatch.FState).
  - reflexivity.
  - unfold VerifierSpec.blank. vm_compute. discriminate.
Defined.

(** ** Street-address decomposition: what is accepted and what comes out *)

Module DecomposerMoreFacts.
Import PyStr Decomposer.

Lemma dot_plus_eol_nonempty r x : dot_plus_eol r = Some x -> x <> EmptyString.
Proof.
  unfold dot_plus_eol.
  destruct (span (fun c => negb (is_newline c)) r) as [a tl].
  destruct a as [| c a]; simpl; [discriminate |].
  destruct tl as [| c' [| c'' tl]]; intros H; inversion H; discriminate.
Qed.

Lemma ws_then_rest_nonempty r x : ws_then_rest r = Some x -> x <> EmptyString.
Proof.
  induction r as [| c t IH]; simpl; [discriminate |].
  destruct (is_space c); [| discriminate].
  destruct (ws_then_rest t) as [g |].
  - intros H. inversion H; subst. apply IH. reflexivity.
  - apply dot_plus_eol_nonempty.
Qed.

Lemma join_cons_nonempty w ws : w <> EmptyString -> join " " (w :: ws) <> EmptyString.
Proof.
  intros Hw. destruct ws as [| w2 ws]; [exact Hw |].
  rewrite TextFacts.join_cons2. destruct w; [congruence | discriminate].
Qed.

Lemma strip_street_type_nonempty full :
  full <> EmptyString -> strip_street_type full <> EmptyString.
Proof.
  intros Hfull. unfold strip_street_type.
  destruct (split (strip full)) as [| w1 [| w2 ws]] eqn:E; simpl; try exact Hfull.
  destruct (is_street_type _); [| exact Hfull].
  assert (Hw1 : w1 <> EmptyString).
  { apply (TextFacts.split_nonempty (strip full)). rewrite E. left. reflexivity. }
  change (removelast (w1 :: w2 :: ws)) with (w1 :: removelast (w2 :: ws)).
  apply join_cons_nonempty. exact Hw1.
Qed.

Lemma stripped_lstrip a : lstrip (strip a) = strip a.
Proof.
  destruct (strip a) as [| c t] eqn:S; [reflexivity |].
  simpl. rewrite (TextFacts.strip_head _ _ _ S). reflexivity.
Qed.

(** The two ways a street number and a name are extracted. *)
Lemma decompose_groups address1 d :
  decompose address1 = Some d ->
  street_name_core d = strip_street_type (street_name_full d) /\
  isdigit (street_number d) = true /\
  street_name_full d <> EmptyString /\
  exists rest, strip address1 = (street_number d ++ rest)%string.
Proof.
  unfold decompose, re_match_number_name.
  destruct (span is_decimal (strip address1)) as [digits r] eqn:Sp.
  assert (Hcat : (digits ++ r)%string = strip address1).
  { pose proof (TextFacts.span_concat is_decimal (strip address1)) as H.
    rewrite Sp in H. exact H. }
  assert (Hdig : all_chars is_digit digits = true).
  { pose proof (TextFacts.span_prefix_all is_decimal (strip address1)) as H.
    rewrite Sp in H.
    exact (TextFacts.all_chars_weaken _ _ _ TextFacts.decimal_is_digit H). }
  assert (Hfallback :
    match split_once (strip address1) with
    | p0 :: p1 :: _ => if isdigit p0 then Some (p0, p1) else None
    | _ => None
    end = None \/
    exists p0 p1,
      match split_once (strip address1) with
      | p0 :: p1 :: _ => if isdigit p0 then Some (p0, p1) else None
      | _ => None
      end = Some (p0, p1) /\
      isdigit p0 = true /\ p1 <> EmptyString /\
      exists rest, strip address1 = (p0 ++ rest)%string).
  { unfold split_once. rewrite stripped_lstrip.
    destruct (is_empty (strip address1)); [left; reflexivity |].
    destruct (span (fun c => negb (is_space c)) (strip address1))
      as [first rest] eqn:Sp2.
    destruct (is_empty (lstrip rest)) eqn:Er; [left; reflexivity |].
    destruct (isdigit first) eqn:Ed; [| left; reflexivity].
    right. exists first, (lstrip rest). repeat split; auto.
    - intros Hx. rewrite Hx in Er. discriminate.
    - exists rest.
      pose proof (TextFacts.span_concat (fun c => negb (is_space c))
                                        (strip address1)) as H.
      rewrite Sp2 in H. symmetry. exact H. }
  destruct (is_empty digits) eqn:Ee.
  - destruct Hfallback as [-> | (p0 & p1 & -> & Hp0 & Hp1 & Hpre)];
      [discriminate |].
    intros H. inversion H. simpl. auto.
  - destruct (ws_then_rest r) as [name |] eqn:W.
    + intros H. inversion H. simpl.
      split; [reflexivity |]. split.
      * apply TextFacts.all_isdigit; [| exact Hdig].
        intros ->. discriminate.
      * split; [exact (ws_then_rest_nonempty _ _ W) |].
        exists r. symmetry. exact Hcat.
    + destruct Hfallback as [-> | (p0 & p1 & -> & Hp0 & Hp1 & Hpre)];
        [discriminate |].
      intros H. inversion H. simpl. auto.
Qed.

(** The pattern needs decimal digits: a number holding a superscript
    digit is not matched by it. *)
Lemma regex_needs_decimals number rest :
  all_chars is_digit number = true ->
  all_chars is_decimal number = false ->
  re_match_number_name (number ++ rest) = None.
Proof.
  intros Hd Hn. unfold re_match_number_name.
  assert (H : ws_then_rest (snd (span is_decimal (number ++ rest))) = None).
  { induction number as [| c t IH]; [discriminate |].
    simpl in Hd. apply andb_true_iff in Hd. destruct Hd as [Hc Ht].
    change (String c t ++ rest)%string with (String c (t ++ rest)).
    cbn [span]. destruct (is_decimal c) eqn:E.
    - simpl in Hn. rewrite E in Hn. simpl in Hn. specialize (IH Ht Hn).
      destruct (span is_decimal (t ++ rest)) as [a b]. exact IH.
    - cbn [snd ws_then_rest].
      rewrite (TextFacts.digit_is_not_space _ Hc). reflexivity. }
  destruct (span is_decimal (number ++ rest)) as [d r]. simpl in H.
  rewrite H. destruct (is_empty d); reflexivity.
Qed.

(** The fallback on the first token. *)
Lemma split_once_number_name number c t :
  number <> EmptyString ->
  all_chars is_digit number = true ->
  is_space c = false ->
  split_once (number ++ String " " (String c t)) = [number; String c t].
Proof.
  intros Hne Hd Hc. unfold split_once.
  assert (Hns : all_chars (fun x => negb (is_space x)) number = true).
  { refine (TextFacts.all_chars_weaken _ _ _ _ Hd).
    intros x Hx. cbv beta. rewrite (TextFacts.digit_is_not_space _ Hx).
    reflexivity. }
  assert (Hl : lstrip (number ++ String " " (String c t))
               = (number ++ String " " (String c t))%string).
  { destruct number as [| d0 dt]; [congruence |].
    simpl in Hns. apply andb_true_iff in Hns. destruct Hns as [H0 _].
    apply negb_true_iff in H0. simpl. rewrite H0. reflexivity. }
  rewrite Hl.
  replace (is_empty (number ++ String " " (String c t))) with false
    by (destruct number; [congruence | reflexivity]).
  rewrite (TextFacts.span_all_then _ number " " (String c t) Hns eq_refl).
  cbn [lstrip]. change (is_space " ") with true. cbv iota.
  rewrite Hc. reflexivity.
Qed.

End DecomposerMoreFacts.

(** X15. An address whose trimmed text is empty or does not start with a
    digit -- a decimal digit or one of the superscript digits
    [str.isdigit] accepts -- is not decomposed: neither the pattern nor
    the fallback on the first token applies, so the lookup in the
    secondary table is skipped. *)
Theorem X15_no_leading_digit_no_decomposition :
  forall address1,
    (forall c t, PyStr.strip address1 = String c t -> PyStr.is_digit c = false) ->
    Decomposer.decompose address1 = None.
Proof.
  intros a H. unfold Decomposer.decompose, Decomposer.re_match_number_name.
  destruct (PyStr.strip a) as [| c t] eqn:S; [reflexivity |].
  pose proof (H c t eq_refl) as Hd.
  pose proof (TextFacts.strip_head _ _ _ S) as Hs.
  assert (Hdec : PyStr.is_decimal c = false).
  { destruct (PyStr.is_decimal c) eqn:E; [| reflexivity].
    rewrite (TextFacts.decimal_is_digit _ E) in Hd. discriminate. }
  cbn [PyStr.span]. rewrite Hdec. cbn [PyStr.is_empty].
  unfold PyStr.split_once. cbn [PyStr.lstrip]. rewrite Hs.
  cbn [PyStr.is_empty PyStr.span]. rewrite Hs. cbn [negb].
  destruct (PyStr.span (fun c0 => negb (PyStr.is_space c0)) t) as [first rest].
  assert (Hnot : PyStr.isdigit (String c first) = false).
  { unfold PyStr.isdigit. cbn [PyStr.span]. rewrite Hd. reflexivity. }
  destruct (PyStr.is_empty (PyStr.lstrip rest)); [reflexivity |].
  rewrite Hnot. reflexivity.
Qed.

Lemma X15_no_leading_digit_no_decomposition_witness :
  Decomposer.decompose "  Rural Route 5 Box 12" = None.
Proof.
  apply X15_no_leading_digit_no_decomposition.
  vm_compute. intros c t H. inversion H. reflexivity.
Defined.

(** X16. Whenever an address is decomposed, the street number is a
    non-empty run of digits, in the sense of [str.isdigit], with which
    the trimmed address starts, and neither the street name nor its core
    is empty. *)
Theorem X16_decomposition_is_never_empty :
  forall address1 d,
    Decomposer.decompose address1 = Some d ->
    PyStr.isdigit (Decomposer.street_number d) = true /\
    (exists rest,
        PyStr.strip address1 = (Decomposer.street_number d ++ rest)%string) /\
    Decomposer.street_name_full d <> EmptyString /\
    Decomposer.street_name_core d <> EmptyString.
Proof.
  intros a d H.
  destruct (DecomposerMoreFacts.decompose_groups a d H)
    as (Hcore & Hnum & Hfull & Hpre).
  repeat split; auto.
  rewrite Hcore. apply DecomposerMoreFacts.strip_street_type_nonempty.
  exact Hfull.
Qed.

Lemma X16_decomposition_is_never_empty_witness :
  PyStr.isdigit "77" = true /\
  (exists rest, PyStr.strip " 77 Sunset BLVD. " = ("77" ++ rest)%string) /\
  "Sunset BLVD." <> EmptyString /\ "Sunset" <> EmptyString.
Proof.
  apply (X16_decomposition_is_never_empty
           " 77 Sunset BLVD. "
           (Decomposer.mkDecomposed "77" "Sunset BLVD." "Sunset")).
  reflexivity.
Defined.

(** The decomposition of number, words and street type joined by single
    spaces. *)
Lemma decompose_number_words_type :
  forall number words street_type,
    PyStr.isdigit number = true ->
    words <> [] ->
    forallb is_token words = true ->
    is_token street_type = true ->
    Decomposer.is_street_type
      (PyStr.rstrip_dot (PyStr.lower street_type)) = true ->
    Decomposer.decompose
      (number ++ " " ++ PyStr.join " " (words ++ [street_type])) =
    Some (Decomposer.mkDecomposed
            number (PyStr.join " " (words ++ [street_type]))
            (PyStr.join " " words)).
Proof.
  intros number words ty Hnum Hwords Htok Hty Htype.
  set (name := PyStr.join " " (words ++ [ty])).
  assert (Hall : forallb is_token (words ++ [ty]) = true).
  { rewrite forallb_app, Htok. simpl. rewrite Hty. reflexivity. }
  assert (Hne : words ++ [ty] <> []) by (destruct words; discriminate).
  destruct (TextFacts.isdigit_all _ Hnum) as [Hn0 Hdigits].
  destruct (TextFacts.join_head _ Hne Hall) as (nc & nt & Hname & Hnc).
  pose proof (TextFacts.join_ends _ Hne Hall) as Hends.
  fold name in Hname, Hends.
  assert (Hstrip_name : PyStr.strip name = name).
  { rewrite Hname. apply TextFacts.strip_fixed; [exact Hnc |].
    rewrite <- Hname. exact Hends. }
  assert (Hstrip : PyStr.strip (number ++ " " ++ name) = (number ++ " " ++ name)%string).
  { destruct number as [| d0 dt]; [congruence |].
    simpl in Hdigits. apply andb_true_iff in Hdigits. destruct Hdigits as [Hd0 _].
    change (String d0 dt ++ " " ++ name)%string
      with (String d0 (dt ++ " " ++ name)).
    apply TextFacts.strip_fixed.
    - apply TextFacts.digit_is_not_space. exact Hd0.
    - change (String d0 (dt ++ " " ++ name))
        with (String d0 dt ++ (" " ++ name))%string.
      apply TextFacts.ends_in_text_app. apply TextFacts.ends_in_text_app.
      exact Hends. }
  unfold Decomposer.decompose. rewrite Hstrip.
  change (" " ++ name)%string with (String " " name).
  assert (Hrest : Decomposer.ws_then_rest (String " " name) = Some name).
  { cbn [Decomposer.ws_then_rest].
    change (PyStr.is_space " ") with true. cbv iota.
    rewrite Hname. cbn [Decomposer.ws_then_rest]. rewrite Hnc.
    rewrite <- Hname. unfold Decomposer.dot_plus_eol.
    assert (Hnl : all_chars (fun c => negb (PyStr.is_newline c)) name = true).
    { unfold name. apply TextFacts.join_all_chars; [reflexivity |].
      rewrite forallb_forall in Hall |- *. intros w Hw.
      specialize (Hall w Hw). unfold is_token in Hall.
      apply andb_true_iff in Hall. destruct Hall as [_ Hall].
      refine (TextFacts.all_chars_weaken _ _ _ _ Hall).
      intros c Hc. cbv beta in Hc |- *.
      destruct (PyStr.is_newline c) eqn:El; [| reflexivity].
      rewrite (TextFacts.newline_is_space _ El) in Hc. discriminate. }
    rewrite (TextFacts.span_all _ _ Hnl). rewrite Hname. reflexivity. }
  assert (Hgroups :
    match Decomposer.re_match_number_name (number ++ String " " name) with
    | Some g => Some g
    | None =>
        match PyStr.split_once (number ++ String " " name) with
        | p0 :: p1 :: _ => if PyStr.isdigit p0 then Some (p0, p1) else None
        | _ => None
        end
    end = Some (number, name)).
  { destruct (all_chars PyStr.is_decimal number) eqn:Hdec.
    - unfold Decomposer.re_match_number_name.
      rewrite (TextFacts.span_all_then PyStr.is_decimal number " " name
                 Hdec eq_refl).
      replace (PyStr.is_empty number) with false
        by (destruct number; [congruence | reflexivity]).
      rewrite Hrest. reflexivity.
    - rewrite (DecomposerMoreFacts.regex_needs_decimals _ _ Hdigits Hdec).
      rewrite Hname.
      rewrite (DecomposerMoreFacts.split_once_number_name _ _ _ Hn0 Hdigits Hnc).
      rewrite Hnum. reflexivity. }
  rewrite Hgroups.
  rewrite (DecomposerFacts.strip_street_type_many name words ty).
  - rewrite Htype. reflexivity.
  - rewrite Hstrip_name. unfold name. apply TextFacts.split_join. exact Hall.
  - exact Hwords.
Qed.

(** X17. The decomposition bridges street-type notations: for a street
    number made of digits, a street name of one or more words -- non-empty
    texts without whitespace of any kind -- and a last word that is a
    street type in any casing, with or without trailing periods, the
    address number, name, type -- separated by single spaces -- is
    decomposed into that number and that name. Two addresses that differ
    in the street type only therefore have the same number and core. *)
Theorem X17_street_type_does_not_change_the_core :
  forall number words street_type,
    PyStr.isdigit number = true ->
    words <> [] ->
    forallb is_token words = true ->
    is_token street_type = true ->
    Decomposer.is_street_type
      (PyStr.rstrip_dot (PyStr.lower street_type)) = true ->
    Decomposer.decompose
      (number ++ " " ++ PyStr.join " " (words ++ [street_type])) =
    Some (Decomposer.mkDecomposed
            number (PyStr.join " " (words ++ [street_type]))
            (PyStr.join " " words)).
Proof. exact decompose_number_words_type. Qed.

Lemma X17_street_type_does_not_change_the_core_witness :
  Decomposer.decompose ("4521" ++ " " ++ PyStr.join " " (["Old"; "Mill"] ++ ["Rd."])) =
  Some (Decomposer.mkDecomposed
          "4521" (PyStr.join " " (["Old"; "Mill"] ++ ["Rd."]))
          (PyStr.join " " ["Old"; "Mill"])).
Proof.
  apply X17_street_type_does_not_change_the_core.
  - reflexivity.
  - discriminate.
  - reflexivity.
  - reflexivity.
  - reflexivity.
Defined.

(** ** Recovery of the verdict: what the second and third tier find *)

Module ParserFacts.
Import PyStr Parser.

Lemma append_assoc (a b c : string) : ((a ++ b) ++ c = a ++ b ++ c)%string.
Proof. induction a as [| x a IH]; simpl; [reflexivity | rewrite IH; reflexivity]. Qed.

Lemma eqb_other (a c : ascii) : negb (Ascii.eqb c a) = true -> Ascii.eqb a c = false.
Proof.
  intros H. apply negb_true_iff in H.
  destruct (Ascii.eqb_spec a c) as [-> | _]; [| reflexivity].
  rewrite Ascii.eqb_refl in H. discriminate.
Qed.

Lemma space_is_not c (x : ascii) :
  is_space x = false -> is_space c = true -> Ascii.eqb x c = false.
Proof.
  intros Hx Hc. destruct (Ascii.eqb_spec x c) as [-> | _]; [congruence | reflexivity].
Qed.

Lemma lstrip_spaces_then ws c t :
  all_chars is_space ws = true -> is_space c = false ->
  lstrip (ws ++ String c t) = String c t.
Proof.
  intros Hws Hc. induction ws as [| x ws IH]; simpl.
  - rewrite Hc. reflexivity.
  - simpl in Hws. apply andb_true_iff in Hws. destruct Hws as [Hx Hws].
    rewrite Hx. exact (IH Hws).
Qed.

(** Before the closing brace of the body no fence can follow. *)
Lemma no_fence_inside body rest :
  all_chars not_backtick body = true ->
  String.prefix "```" (lstrip (body ++ String "}" rest)) = false.
Proof.
  induction body as [| x body IH]; intros H.
  - reflexivity.
  - simpl in H. apply andb_true_iff in H. destruct H as [Hx Hb].
    change (String x body ++ String "}" rest)%string
      with (String x (body ++ String "}" rest)).
    cbn [lstrip]. destruct (is_space x); [exact (IH Hb) |].
    cbn [String.prefix]. destruct (Ascii.ascii_dec "`" x) as [<- | _];
      [discriminate Hx | reflexivity].
Qed.

Lemma body_to_fence_found body ws2 after :
  all_chars not_backtick body = true ->
  all_chars is_space ws2 = true ->
  body_to_fence (body ++ String "}" (ws2 ++ "```" ++ after)) =
  Some (body ++ String "}" EmptyString)%string.
Proof.
  intros Hb Hws. induction body as [| x body IH].
  - cbn [append body_to_fence]. rewrite Ascii.eqb_refl.
    change ("```" ++ after)%string with (String "`" (String "`" (String "`" after))).
    rewrite (lstrip_spaces_then ws2 "`" _ Hws eq_refl).
    cbn. destruct after; reflexivity.
  - simpl in Hb. apply andb_true_iff in Hb. destruct Hb as [Hx Hb].
    change (String x body ++ String "}" (ws2 ++ "```" ++ after))%string
      with (String x (body ++ String "}" (ws2 ++ "```" ++ after))).
    cbn [body_to_fence]. rewrite (no_fence_inside body _ Hb).
    rewrite andb_false_r. rewrite (IH Hb). reflexivity.
Qed.

Lemma code_block_at_fenced label ws1 body ws2 after :
  label = EmptyString \/ label = "json" ->
  all_chars is_space ws1 = true ->
  all_chars not_backtick body = true ->
  all_chars is_space ws2 = true ->
  code_block_at
    ("```" ++ label ++ ws1 ++ String "{" (body ++ String "}" (ws2 ++ "```" ++ after))) =
  Some (String "{" (body ++ String "}" EmptyString)).
Proof.
  intros Hl H1 Hb H2. unfold code_block_at.
  change (strip_prefix "```" ("```" ++ ?x)) with (Some x).
  cbv iota beta.
  assert (Hskip :
    match strip_prefix "json"
            (label ++ ws1 ++ String "{" (body ++ String "}" (ws2 ++ "```" ++ after))) with
    | Some r' => r'
    | None => (label ++ ws1 ++ String "{" (body ++ String "}" (ws2 ++ "```" ++ after)))%string
    end = (ws1 ++ String "{" (body ++ String "}" (ws2 ++ "```" ++ after)))%string).
  { destruct Hl as [-> | ->]; [| reflexivity].
    cbn [append]. destruct ws1 as [| c ws1']; [reflexivity |].
    simpl in H1. apply andb_true_iff in H1. destruct H1 as [Hc _].
    cbn [append strip_prefix].
    rewrite (space_is_not c "j" eq_refl Hc). reflexivity. }
  rewrite Hskip.
  rewrite (lstrip_spaces_then ws1 "{" _ H1 eq_refl).
  rewrite Ascii.eqb_refl.
  rewrite (body_to_fence_found body ws2 after Hb H2). reflexivity.
Qed.

Lemma search_skips before rest :
  all_chars not_backtick before = true ->
  search_code_block (before ++ rest) = search_code_block rest.
Proof.
  induction before as [| c before IH]; intros H; [reflexivity |].
  simpl in H. apply andb_true_iff in H. destruct H as [Hc Hb].
  change (String c before ++ rest)%string with (String c (before ++ rest)).
  cbn [search_code_block]. unfold code_block_at at 1.
  cbn [strip_prefix]. rewrite (eqb_other "`" c Hc).
  exact (IH Hb).
Qed.

Lemma search_at s g : code_block_at s = Some g -> search_code_block s = Some g.
Proof.
  intros H. destruct s; cbn [search_code_block]; rewrite H; reflexivity.
Qed.

Lemma from_first_brace_spec s s' :
  from_first_brace s = Some s' ->
  exists pre t,
    s = (pre ++ s')%string /\ s' = String "{" t /\
    all_chars not_open_brace pre = true.
Proof.
  induction s as [| c s IH]; simpl; [discriminate |].
  destruct (Ascii.eqb_spec c "{") as [-> | Hne].
  - intros H. inversion H; subst. exists EmptyString, s. auto.
  - intros H. destruct (IH H) as (pre & t & -> & -> & Hpre).
    exists (String c pre), t. repeat split.
    simpl. rewrite Hpre. unfold not_open_brace.
    destruct (Ascii.eqb_spec c "{"); [contradiction | reflexivity].
Qed.

Lemma from_first_brace_skips pre t :
  all_chars not_open_brace pre = true ->
  from_first_brace (pre ++ String "{" t) = Some (String "{" t).
Proof.
  induction pre as [| c pre IH]; intros H; [reflexivity |].
  simpl in H. apply andb_true_iff in H. destruct H as [Hc Hp].
  simpl. unfold not_open_brace in Hc. apply negb_true_iff in Hc.
  rewrite Hc. exact (IH Hp).
Qed.

Lemma from_first_brace_none s :
  all_chars not_open_brace s = true -> from_first_brace s = None.
Proof.
  induction s as [| c s IH]; intros H; [reflexivity |].
  simpl in H. apply andb_true_iff in H. destruct H as [Hc Hp].
  simpl. unfold not_open_brace in Hc. apply negb_true_iff in Hc.
  rewrite Hc. exact (IH Hp).
Qed.

Lemma option_map_prefix c (x : option string) j :
  option_map (String c) x = Some j ->
  exists j', x = Some j' /\ j = String c j'.
Proof. destruct x; simpl; intros H; inversion H; eauto. Qed.

(** What the bracket counting returns is a prefix of the text it reads,
    ending with a closing brace. *)
Lemma balanced_prefix_spec s :
  forall count in_string escape j,
    balanced_prefix s count in_string escape = Some j ->
    exists j0 post,
      j = (j0 ++ String "}" EmptyString)%string /\ s = (j ++ post)%string.
Proof.
  induction s as [| c s IH]; intros count in_string escape j; simpl;
    [discriminate |].
  assert (Hstep : forall count' in' esc',
             option_map (String c) (balanced_prefix s count' in' esc') = Some j ->
             exists j0 post,
               j = (j0 ++ String "}" EmptyString)%string /\
               String c s = (j ++ post)%string).
  { intros count' in' esc' H.
    destruct (option_map_prefix _ _ _ H) as (j' & Hj' & ->).
    destruct (IH _ _ _ _ Hj') as (j0 & post & -> & ->).
    exists (String c j0), post. split; reflexivity. }
  destruct escape; [apply Hstep |].
  destruct (Ascii.eqb c "\"); [apply Hstep |].
  destruct (Ascii.eqb c quote_char); [apply Hstep |].
  destruct (negb in_string); [| apply Hstep].
  destruct (Ascii.eqb c "{"); [apply Hstep |].
  destruct (Ascii.eqb_spec c "}") as [-> | _]; [| apply Hstep].
  destruct (count - 1 =? 0)%Z; [| apply Hstep].
  intros H. inversion H; subst. exists EmptyString, s. split; reflexivity.
Qed.

Lemma option_map_append (a : string) (x : option string) c :
  option_map (String c) (option_map (append a) x) =
  option_map (append (String c a)) x.
Proof. destruct x; reflexivity. Qed.

(** Plain text outside a string literal is copied without changing the
    count. *)
Lemma balanced_plain text rest count :
  all_chars plain_char text = true ->
  balanced_prefix (text ++ rest) count false false =
  option_map (append text) (balanced_prefix rest count false false).
Proof.
  induction text as [| c text IH]; intros H.
  - simpl. destruct (balanced_prefix rest count false false); reflexivity.
  - simpl in H. apply andb_true_iff in H. destruct H as [Hc Ht].
    unfold plain_char in Hc.
    apply andb_true_iff in Hc. destruct Hc as [Hc H4].
    apply andb_true_iff in Hc. destruct Hc as [Hc H3].
    apply andb_true_iff in Hc. destruct Hc as [H1 H2].
    apply negb_true_iff in H1, H2, H3, H4.
    change (String c text ++ rest)%string with (String c (text ++ rest)).
    cbn [balanced_prefix]. rewrite H4, H3, H1, H2. cbn [negb].
    rewrite (IH Ht). apply option_map_append.
Qed.

(** Inside a string literal braces are copied without being counted. *)
Lemma balanced_literal text rest count :
  all_chars literal_char text = true ->
  balanced_prefix (text ++ rest) count true false =
  option_map (append text) (balanced_prefix rest count true false).
Proof.
  induction text as [| c text IH]; intros H.
  - simpl. destruct (balanced_prefix rest count true false); reflexivity.
  - simpl in H. apply andb_true_iff in H. destruct H as [Hc Ht].
    unfold literal_char in Hc.
    apply andb_true_iff in Hc. destruct Hc as [H3 H4].
    apply negb_true_iff in H3, H4.
    change (String c text ++ rest)%string with (String c (text ++ rest)).
    cbn [balanced_prefix]. rewrite H4, H3. cbn [negb].
    rewrite (IH Ht). apply option_map_append.
Qed.

Lemma balanced_piece p rest count :
  piece_ok p = true ->
  balanced_prefix (render_piece p ++ rest) count false false =
  option_map (append (render_piece p)) (balanced_prefix rest count false false).
Proof.
  destruct p as [text | text]; intros H; simpl in H.
  - apply balanced_plain. exact H.
  - cbn [render_piece].
    change (String quote_char (text ++ String quote_char EmptyString) ++ rest)%string
      with (String quote_char ((text ++ String quote_char EmptyString) ++ rest)).
    rewrite append_assoc.
    change (String quote_char EmptyString ++ rest)%string
      with (String quote_char rest).
    cbn [balanced_prefix].
    change (Ascii.eqb quote_char "\") with false.
    rewrite Ascii.eqb_refl. cbn [negb].
    rewrite (balanced_literal text _ count H).
    cbn [balanced_prefix].
    change (Ascii.eqb quote_char "\") with false.
    rewrite Ascii.eqb_refl. cbn [negb].
    destruct (balanced_prefix rest count false false) as [j |]; [| reflexivity].
    simpl. rewrite append_assoc. reflexivity.
Qed.

Lemma balanced_pieces pieces rest count :
  forallb piece_ok pieces = true ->
  balanced_prefix (render pieces ++ rest) count false false =
  option_map (append (render pieces)) (balanced_prefix rest count false false).
Proof.
  induction pieces as [| p pieces IH]; intros H.
  - simpl. destruct (balanced_prefix rest count false false); reflexivity.
  - simpl in H. apply andb_true_iff in H. destruct H as [Hp Hrest].
    cbn [render]. rewrite append_assoc.
    rewrite (balanced_piece p _ count Hp), (IH Hrest).
    destruct (balanced_prefix rest count false false) as [j |]; [| reflexivity].
    simpl. rewrite append_assoc. reflexivity.
Qed.

End ParserFacts.

(** X18. A verdict in a fenced block inside prose is recovered as the
    verdict alone is. When the prose before the fence has no backtick, the
    fence is labelled json or not labelled, and the object between the
    braces has no backtick, the second tier extracts exactly the object,
    whatever follows the closing fence; if the whole text is not JSON and
    the object is, the parser returns the value of the object, the same
    value it returns for the object given alone. *)
Theorem X18_fenced_object_is_recovered :
  forall loads before label ws1 body ws2 after v,
    all_chars not_backtick before = true ->
    label = EmptyString \/ label = "json" ->
    all_chars PyStr.is_space ws1 = true ->
    all_chars not_backtick body = true ->
    all_chars PyStr.is_space ws2 = true ->
    let object := ("{" ++ body ++ "}")%string in
    let text :=
      (before ++ "```" ++ label ++ ws1 ++ "{" ++ body ++ "}" ++ ws2 ++ "```"
       ++ after)%string in
    loads (PyStr.strip text) = None ->
    loads object = Some v ->
    Parser.tier2 text = Some object /\
    Parser._parse_claude_response loads text = v /\
    Parser._parse_claude_response loads object = v.
Proof.
  intros loads before label ws1 body ws2 after v Hb Hl H1 Hbody H2 object text
         Hwhole Hobject.
  assert (Ht2 : Parser.tier2 text = Some object).
  { unfold Parser.tier2, text.
    rewrite (ParserFacts.search_skips before _ Hb).
    apply ParserFacts.search_at.
    exact (ParserFacts.code_block_at_fenced label ws1 body ws2 after
             Hl H1 Hbody H2). }
  split; [exact Ht2 |]. split.
  - unfold Parser._parse_claude_response, Parser.tier1, Parser.try_loads.
    rewrite Hwhole, Ht2, Hobject. reflexivity.
  - unfold Parser._parse_claude_response, Parser.tier1, Parser.try_loads.
    assert (Hstrip : PyStr.strip object = object).
    { unfold object. apply TextFacts.strip_fixed; [reflexivity |].
      apply (TextFacts.ends_in_text_app (String "{" body) "}"). reflexivity. }
    rewrite Hstrip, Hobject. reflexivity.
Qed.

Lemma X18_fenced_object_is_recovered_witness :
  Parser._parse_claude_response
    (fun text => if String.eqb text "{}" then Some (PDict []) else None)
    ("Here is my answer: " ++ "```" ++ "json" ++ " " ++ "{" ++ EmptyString
     ++ "}" ++ " " ++ "```" ++ " I hope it helps.") =
  PDict [].
Proof.
  apply (X18_fenced_object_is_recovered
           (fun text => if String.eqb text "{}" then Some (PDict []) else None)
           "Here is my answer: " "json" " " EmptyString " "
           " I hope it helps." (PDict []));
    try reflexivity.
  right. reflexivity.
Defined.

(** X19. The third tier hands to the JSON parser a part of the response
    only: the text from the first opening brace of the response up to a
    closing brace. A response without an opening brace gives no
    candidate. *)
Theorem X19_third_tier_reads_from_the_first_brace :
  forall text,
    (forall candidate,
        Parser.tier3 text = Some candidate ->
        exists before inner after,
          text = (before ++ candidate ++ after)%string /\
          all_chars not_open_brace before = true /\
          candidate = ("{" ++ inner ++ "}")%string) /\
    (all_chars not_open_brace text = true -> Parser.tier3 text = None).
Proof.
  intros text. unfold Parser.tier3. split.
  - intros j H.
    destruct (Parser.from_first_brace text) as [s' |] eqn:F; [| discriminate].
    destruct (ParserFacts.from_first_brace_spec _ _ F) as (pre & t & -> & -> & Hpre).
    destruct (ParserFacts.balanced_prefix_spec _ _ _ _ _ H)
      as (j0 & post & -> & Hs).
    destruct j0 as [| x inner].
    + simpl in Hs. inversion Hs.
    + simpl in Hs. inversion Hs; subst x.
      exists pre, inner, post. repeat split; auto.
  - intros H. rewrite (ParserFacts.from_first_brace_none _ H). reflexivity.
Qed.

Lemma X19_third_tier_reads_from_the_first_brace_witness :
  Parser.tier3 "The best match is the second one." = None.
Proof.
  apply (proj2 (X19_third_tier_reads_from_the_first_brace
                  "The best match is the second one.")).
  reflexivity.
Defined.

(** X20. The bracket counting is aware of string literals: for an object
    whose content is made of text without braces, quotes and backslashes
    and of quoted literals without quotes and backslashes -- whatever
    braces the literals hold -- preceded by prose without an opening
    brace, the third tier extracts exactly the object, whatever follows
    it. *)
Theorem X20_braces_in_string_literals_are_not_counted :
  forall before pieces after,
    all_chars not_open_brace before = true ->
    forallb piece_ok pieces = true ->
    Parser.tier3 (before ++ "{" ++ render pieces ++ "}" ++ after) =
    Some ("{" ++ render pieces ++ "}")%string.
Proof.
  intros before pieces after Hb Hp. unfold Parser.tier3.
  change ("{" ++ render pieces ++ "}" ++ after)%string
    with (String "{" (render pieces ++ String "}" after)).
  rewrite (ParserFacts.from_first_brace_skips before _ Hb).
  cbn [Parser.balanced_prefix].
  change (Ascii.eqb "{" "\") with false.
  change (Ascii.eqb "{" Parser.quote_char) with false.
  rewrite Ascii.eqb_refl. cbn [negb].
  rewrite (ParserFacts.balanced_pieces pieces _ _ Hp).
  cbn [Parser.balanced_prefix].
  change (Ascii.eqb "}" "\") with false.
  change (Ascii.eqb "}" Parser.quote_char) with false.
  change (Ascii.eqb "}" "{") with false.
  rewrite Ascii.eqb_refl. cbn [negb].
  change (0 + 1 - 1 =? 0)%Z with true. reflexivity.
Qed.

Lemma X20_braces_in_string_literals_are_not_counted_witness :
  Parser.tier3
    ("Verdict: " ++ "{"
     ++ render [Quoted "reasoning"; Plain ": "; Quoted "unit {B} } of {A"]
     ++ "}" ++ " as requested {see above}") =
  Some ("{"
        ++ render [Quoted "reasoning"; Plain ": "; Quoted "unit {B} } of {A"]
        ++ "}")%string.
Proof.
  apply (X20_braces_in_string_literals_are_not_counted
           "Verdict: "
           [Quoted "reasoning"; Plain ": "; Quoted "unit {B} } of {A"]
           " as requested {see above}").
  - reflexivity.
  - reflexivity.
Defined.

(** ** Rows and queries *)

Module RetrievalFacts.
Import PyStr ExactMatch Retrieval.

Lemma dict_set_fresh {V} (d : dict V) k (v : V) :
  ~ In k (map fst d) -> dict_set d k v = d ++ [(k, v)].
Proof.
  induction d as [| [k0 v0] d IH]; simpl; intros H; [reflexivity |].
  destruct (String.eqb_spec k0 k) as [-> | _]; [tauto |].
  rewrite IH by tauto. reflexivity.
Qed.

Lemma row_dict_short columns row acc :
  length row < length columns ->
  row_dict columns row acc = inl (mkExn IndexError "tuple index out of range").
Proof.
  revert row acc. induction columns as [| c columns IH]; intros row acc H;
    simpl in H; [lia |].
  destruct row as [| v row]; simpl; [reflexivity |].
  apply IH. simpl in H. lia.
Qed.

Lemma row_dict_distinct columns row acc :
  NoDup columns ->
  (forall c, In c columns -> ~ In c (map fst acc)) ->
  length columns <= length row ->
  row_dict columns row acc = inr (acc ++ combine columns row).
Proof.
  intros Hnd. revert row acc.
  induction Hnd as [| c columns Hc Hnd IH]; intros row acc Hfresh Hlen; simpl.
  - rewrite app_nil_r. reflexivity.
  - destruct row as [| v row]; simpl in Hlen; [lia |].
    rewrite IH.
    + rewrite dict_set_fresh by (apply Hfresh; left; reflexivity).
      rewrite <- app_assoc. reflexivity.
    + intros c' Hc'. rewrite dict_set_fresh by (apply Hfresh; left; reflexivity).
      rewrite map_app, in_app_iff. simpl. intros [H | [H | []]].
      * apply (Hfresh c'); [right; exact Hc' | exact H].
      * subst c'. exact (Hc Hc').
    + lia.
Qed.

Lemma combine_lookup columns (row : list Cell) :
  NoDup columns ->
  forall i c v,
    nth_error columns i = Some c -> nth_error row i = Some v ->
    dict_get (combine columns row) c = Some v.
Proof.
  intros Hnd. revert row.
  induction Hnd as [| c0 columns Hc0 Hnd IH]; intros row i c v Hc Hv.
  - destruct i; discriminate.
  - destruct row as [| v0 row]; [destruct i; discriminate |].
    destruct i as [| i]; simpl in Hc, Hv.
    + inversion Hc; inversion Hv; subst. simpl.
      rewrite String.eqb_refl. reflexivity.
    + simpl. destruct (String.eqb_spec c0 c) as [-> | _].
      * exfalso. apply Hc0. eapply nth_error_In. exact Hc.
      * exact (IH row i c v Hc Hv).
Qed.

Lemma contains_self p : contains p p = true.
Proof.
  destruct p as [| c p]; [reflexivity |].
  cbn [contains]. replace (String.prefix (String c p) (String c p)) with true;
    [reflexivity |].
  symmetry. induction (String c p) as [| x s IH]; [reflexivity |].
  simpl. destruct (Ascii.ascii_dec x x); [exact IH | congruence].
Qed.

Lemma contains_app_r p a s : contains p s = true -> contains p (a ++ s) = true.
Proof.
  intros H. induction a as [| c a IH]; [exact H |].
  simpl. rewrite IH. apply orb_true_r.
Qed.

End RetrievalFacts.

(** X21. A row is turned into a dictionary by reading it at every index of
    the column list. A row shorter than the column list raises an
    [IndexError]; with distinct column names and a row at least as long,
    the dictionary pairs each column with the cell at its position
    (further cells are dropped), so looking up the i-th column gives the
    i-th cell. *)
Theorem X21_rows_are_read_by_column_position :
  forall columns row,
    (length row < length columns ->
     Retrieval.row_to_dict columns row =
     inl (mkExn IndexError "tuple index out of range")) /\
    (NoDup columns -> length columns <= length row ->
     Retrieval.row_to_dict columns row = inr (combine columns row) /\
     forall i c v,
       nth_error columns i = Some c -> nth_error row i = Some v ->
       dict_get (combine columns row) c = Some v).
Proof.
  intros columns row. split.
  - apply RetrievalFacts.row_dict_short.
  - intros Hnd Hlen. split.
    + unfold Retrieval.row_to_dict.
      rewrite (RetrievalFacts.row_dict_distinct columns row [] Hnd);
        [reflexivity | intros c _ [] | exact Hlen].
    + apply RetrievalFacts.combine_lookup. exact Hnd.
Qed.

Lemma X21_rows_are_read_by_column_position_witness :
  Retrieval.row_to_dict ["address1"; "state"; "zipcode"]
    [ExactMatch.CStr "100 Main St"; ExactMatch.CStr "FL"] =
  inl (mkExn IndexError "tuple index out of range") /\
  Retrieval.row_to_dict ["address1"; "state"]
    [ExactMatch.CStr "100 Main St"; ExactMatch.CStr "FL"; ExactMatch.CInt 1] =
  inr [("address1", ExactMatch.CStr "100 Main St");
       ("state", ExactMatch.CStr "FL")].
Proof.
  split.
  - apply (proj1 (X21_rows_are_read_by_column_position
                    ["address1"; "state"; "zipcode"]
                    [ExactMatch.CStr "100 Main St"; ExactMatch.CStr "FL"])).
    simpl. lia.
  - apply (proj2 (X21_rows_are_read_by_column_position
                    ["address1"; "state"]
                    [ExactMatch.CStr "100 Main St"; ExactMatch.CStr "FL";
                     ExactMatch.CInt 1])).
    + repeat (constructor; [simpl; intuition discriminate |]). constructor.
    + simpl. lia.
Defined.

(** X22. When the secondary table has no column the mapper recognises as
    the street address, or none it recognises as the state,
    [get_pinellas_matches] returns the empty list and the only statement
    it executes is the introspection of the table: no select is sent. *)
Theorem X22_unmapped_table_is_not_queried :
  forall cfg db golden_address columns,
    Retrieval.cursor_error db = None ->
    Retrieval.column_names db
      (Retrieval.introspection cfg
         (fst (Retrieval.table_parts (Retrieval.PINELLAS_TABLE cfg)))
         (snd (Retrieval.table_parts (Retrieval.PINELLAS_TABLE cfg)))
         (Retrieval.PINELLAS_TABLE cfg)) = inr columns ->
    filter SchemaMapper.address_like columns = [] \/
    filter SchemaMapper.state_like columns = [] ->
    Retrieval.get_pinellas_matches cfg db golden_address =
    ([],
     [Retrieval.introspection cfg
        (fst (Retrieval.table_parts (Retrieval.PINELLAS_TABLE cfg)))
        (snd (Retrieval.table_parts (Retrieval.PINELLAS_TABLE cfg)))
        (Retrieval.PINELLAS_TABLE cfg)]).
Proof.
  intros cfg db golden columns Hcur Hcols Hnone.
  unfold Retrieval.get_pinellas_matches. rewrite Hcur.
  destruct (Retrieval.table_parts (Retrieval.PINELLAS_TABLE cfg))
    as [schema table]. cbn [fst snd] in Hcols. rewrite Hcols.
  unfold SchemaMapper._get_pinellas_column_mapping.
  cbn [fst SchemaMapper.address SchemaMapper.state].
  destruct Hnone as [Ha | Hs].
  - apply MapperMoreFacts.unbound_iff_none_like in Ha.
    unfold SchemaMapper.address_like in Ha. rewrite Ha. reflexivity.
  - apply MapperMoreFacts.unbound_iff_none_like in Hs.
    unfold SchemaMapper.state_like in Hs. rewrite Hs.
    destruct (negb (SchemaMapper.truthy _)); reflexivity.
Qed.

Lemma X22_unmapped_table_is_not_queried_witness :
  Retrieval.get_pinellas_matches
    (Retrieval.mkSettings "postgresql" "public.golden" "public.pinellas")
    (Retrieval.mkDatabase None (fun _ => inr ["owner"; "City"; "parcel_id"])
                          (fun _ => inr []))
    [("address1", ExactMatch.CStr "100 Main St");
     ("state", ExactMatch.CStr "FL")] =
  ([], [Retrieval.InfoSchemaColumns (Some "public") "pinellas"]).
Proof.
  apply (X22_unmapped_table_is_not_queried
           (Retrieval.mkSettings "postgresql" "public.golden" "public.pinellas")
           (Retrieval.mkDatabase None
              (fun _ => inr ["owner"; "City"; "parcel_id"]) (fun _ => inr []))
           [("address1", ExactMatch.CStr "100 Main St");
            ("state", ExactMatch.CStr "FL")]
           ["owner"; "City"; "parcel_id"]).
  - reflexivity.
  - reflexivity.
  - left. reflexivity.
Defined.

(** X23. The lookup in the secondary table does not depend on the street
    type of the golden address: two golden records with the same state
    whose street lines are the same number and words followed by street
    types -- any two of the vocabulary, in any casing -- make
    [get_pinellas_matches] execute the same statements and return the
    same records. *)
Theorem X23_lookup_ignores_the_street_type :
  forall cfg db golden1 golden2 number words type1 type2 state,
    dict_get golden1 "address1" =
    Some (ExactMatch.CStr
            (number ++ " " ++ PyStr.join " " (words ++ [type1]))) ->
    dict_get golden2 "address1" =
    Some (ExactMatch.CStr
            (number ++ " " ++ PyStr.join " " (words ++ [type2]))) ->
    dict_get golden1 "state" = Some state ->
    dict_get golden2 "state" = Some state ->
    PyStr.isdigit number = true ->
    words <> [] ->
    forallb is_token words = true ->
    is_token type1 = true ->
    is_token type2 = true ->
    Decomposer.is_street_type (PyStr.rstrip_dot (PyStr.lower type1)) = true ->
    Decomposer.is_street_type (PyStr.rstrip_dot (PyStr.lower type2)) = true ->
    Retrieval.get_pinellas_matches cfg db golden1 =
    Retrieval.get_pinellas_matches cfg db golden2.
Proof.
  intros cfg db g1 g2 number words t1 t2 state A1 A2 S1 S2 Hnum Hw Htok
         Ht1 Ht2 Hs1 Hs2.
  unfold Retrieval.get_pinellas_matches.
  destruct (Retrieval.cursor_error db); [reflexivity |].
  destruct (Retrieval.table_parts (Retrieval.PINELLAS_TABLE cfg))
    as [schema table].
  destruct (Retrieval.column_names db _) as [e | columns]; [reflexivity |].
  destruct (negb (SchemaMapper.truthy _)); [reflexivity |].
  destruct (negb (SchemaMapper.truthy _)); [reflexivity |].
  unfold dict_get_or. rewrite A1, A2, S1, S2.
  assert (Htruthy : forall ty,
             Retrieval.cell_truthy
               (ExactMatch.CStr
                  (number ++ " " ++ PyStr.join " " (words ++ [ty]))) = true).
  { intros ty. destruct (TextFacts.isdigit_all _ Hnum) as [Hn _].
    destruct number; [congruence | reflexivity]. }
  rewrite !Htruthy. cbn [negb orb ExactMatch.py_str].
  rewrite (decompose_number_words_type number words t1 Hnum Hw Htok Ht1 Hs1).
  rewrite (decompose_number_words_type number words t2 Hnum Hw Htok Ht2 Hs2).
  reflexivity.
Qed.

Lemma X23_lookup_ignores_the_street_type_witness :
  let cfg := Retrieval.mkSettings "sqlite" "golden" "pinellas" in
  let db :=
    Retrieval.mkDatabase None (fun _ => inr ["Site_Address"; "State"])
      (fun _ => inr [[ExactMatch.CStr "12 Village Rd"; ExactMatch.CStr "FL"]]) in
  Retrieval.get_pinellas_matches cfg db
    [("address1",
      ExactMatch.CStr ("12" ++ " " ++ PyStr.join " " (["Village"] ++ ["LN"])));
     ("state", ExactMatch.CStr "FL")] =
  Retrieval.get_pinellas_matches cfg db
    [("address1",
      ExactMatch.CStr ("12" ++ " " ++ PyStr.join " " (["Village"] ++ ["Road"])));
     ("state", ExactMatch.CStr "FL")].
Proof.
  intros cfg db.
  apply (X23_lookup_ignores_the_street_type
           cfg db _ _ "12" ["Village"] "LN" "Road" (ExactMatch.CStr "FL"));
    try reflexivity.
  discriminate.
Defined.

(** X24. In the filter built by [get_filtered_addresses] the placeholders
    and the parameters agree: the WHERE clause holds exactly as many
    placeholders as the parameter list has entries, whatever criteria are
    given; without a truthy criterion there is neither clause nor
    parameter. *)
Theorem X24_placeholders_match_parameters :
  forall search_criteria,
    count_occurrences "%s" (Retrieval.where_clause search_criteria) =
    length (Retrieval.filter_params search_criteria) /\
    (Retrieval.filter_params search_criteria = [] ->
     Retrieval.where_clause search_criteria = EmptyString).
Proof.
  intros criteria.
  unfold Retrieval.where_clause, Retrieval.where_parts,
    Retrieval.filter_params, Retrieval.and_conditions,
    Retrieval.address1_or_conditions, Retrieval.criterion.
  destruct (Retrieval.cell_truthy (dict_get_or criteria "state" ExactMatch.CNone));
    destruct (Retrieval.cell_truthy (dict_get_or criteria "city" ExactMatch.CNone));
    destruct (Retrieval.cell_truthy
                (dict_get_or criteria "street_name" ExactMatch.CNone));
    destruct (Retrieval.cell_truthy
                (dict_get_or criteria "street_type" ExactMatch.CNone));
    (split; [vm_compute; reflexivity |]);
    cbn; intros H; try discriminate H; reflexivity.
Qed.

Lemma X24_placeholders_match_parameters_witness :
  Retrieval.where_clause [("zip_code", ExactMatch.CStr "33601")] = EmptyString.
Proof.
  apply (proj2 (X24_placeholders_match_parameters
                  [("zip_code", ExactMatch.CStr "33601")])).
  reflexivity.
Defined.

(** ** Opening the connection *)

Module ConnectorFacts.
Import PyStr Connector.

Lemma missing_names_a_variable c text :
  missing_credential c = Some text ->
  exists variable,
    In variable ["GOLDEN_SOURCE_HOST"; "GOLDEN_SOURCE_DATABASE";
                 "GOLDEN_SOURCE_USER"; "GOLDEN_SOURCE_PASSWORD"] /\
    text = (variable ++ " environment variable is not set")%string.
Proof.
  unfold missing_credential.
  destruct (unset (GOLDEN_SOURCE_HOST c)).
  { intros H. inversion H. exists "GOLDEN_SOURCE_HOST". simpl. auto. }
  destruct (unset (GOLDEN_SOURCE_DATABASE c)).
  { intros H. inversion H. exists "GOLDEN_SOURCE_DATABASE". simpl. auto. }
  destruct (unset (GOLDEN_SOURCE_USER c)).
  { intros H. inversion H. exists "GOLDEN_SOURCE_USER". simpl. auto. }
  destruct (unset (GOLDEN_SOURCE_PASSWORD c)).
  { intros H. inversion H. exists "GOLDEN_SOURCE_PASSWORD". simpl. auto 6. }
  discriminate.
Qed.

Lemma missing_iff_unset c :
  missing_credential c = None <->
  unset (GOLDEN_SOURCE_HOST c) = false /\
  unset (GOLDEN_SOURCE_DATABASE c) = false /\
  unset (GOLDEN_SOURCE_USER c) = false /\
  unset (GOLDEN_SOURCE_PASSWORD c) = false.
Proof.
  unfold missing_credential.
  destruct (unset (GOLDEN_SOURCE_HOST c));
    destruct (unset (GOLDEN_SOURCE_DATABASE c));
    destruct (unset (GOLDEN_SOURCE_USER c));
    destruct (unset (GOLDEN_SOURCE_PASSWORD c));
    split; intros H; try discriminate; try tauto;
    destruct H as (? & ? & ? & ?); discriminate.
Qed.

Lemma postgresql_failure_embeds c e :
  contains (error_msg e) (postgresql_failure c e) = true.
Proof.
  unfold postgresql_failure.
  destruct (String.eqb (type_name e) "OperationalError"
            || contains "OperationalError" (type_str e));
    [destruct (contains "password authentication failed" (lower (error_msg e)));
     [| destruct (contains "could not connect" (lower (error_msg e))
                 || contains "connection refused" (lower (error_msg e)))] |];
    repeat apply RetrievalFacts.contains_app_r;
    apply RetrievalFacts.contains_self.
Qed.

Lemma mysql_failure_embeds c e :
  contains (error_msg e) (mysql_failure c e) = true.
Proof.
  unfold mysql_failure.
  destruct (is_mysql_error e);
    [destruct (contains "access denied" (lower (error_msg e))
               || contains "authentication" (lower (error_msg e))) |];
    repeat apply RetrievalFacts.contains_app_r;
    apply RetrievalFacts.contains_self.
Qed.

End ConnectorFacts.

(** X25. For PostgreSQL and MySQL (the database type is compared without
    regard to case), [_connect] calls the driver only when host, database,
    user and password are all set. If one of them is unset or empty and
    the driver is installed, it raises a [ValueError] naming a missing
    variable and no connect call is made. *)
Theorem X25_no_connect_without_credentials :
  forall c drivers,
    let kind := PyStr.lower (Connector.GOLDEN_SOURCE_DB_TYPE c) in
    kind = "postgresql" \/ kind = "mysql" ->
    (snd (Connector._connect c drivers) <> [] ->
     Connector.unset (Connector.GOLDEN_SOURCE_HOST c) = false /\
     Connector.unset (Connector.GOLDEN_SOURCE_DATABASE c) = false /\
     Connector.unset (Connector.GOLDEN_SOURCE_USER c) = false /\
     Connector.unset (Connector.GOLDEN_SOURCE_PASSWORD c) = false) /\
    (Connector.missing_credential c <> None ->
     (kind = "postgresql" -> Connector.psycopg2_installed drivers = true) ->
     (kind = "mysql" -> Connector.mysql_installed drivers = true) ->
     exists variable,
       In variable ["GOLDEN_SOURCE_HOST"; "GOLDEN_SOURCE_DATABASE";
                    "GOLDEN_SOURCE_USER"; "GOLDEN_SOURCE_PASSWORD"] /\
       Connector._connect c drivers =
       (inl (Connector.ValueError
               (variable ++ " environment variable is not set")),
        [])).
Proof.
  intros c drivers kind Hkind. subst kind. unfold Connector._connect.
  destruct Hkind as [-> | ->]; cbn [String.eqb Ascii.eqb Bool.eqb].
  - split.
    + destruct (negb (Connector.psycopg2_installed drivers));
        [intros H; exfalso; apply H; reflexivity |].
      destruct (Connector.missing_credential c) eqn:M;
        [intros H; exfalso; apply H; reflexivity |].
      intros _. apply ConnectorFacts.missing_iff_unset. exact M.
    + intros Hmiss Hpg _. rewrite (Hpg eq_refl). cbn [negb].
      destruct (Connector.missing_credential c) as [text |] eqn:M;
        [| congruence].
      destruct (ConnectorFacts.missing_names_a_variable _ _ M)
        as (variable & Hin & ->).
      exists variable. auto.
  - split.
    + destruct (negb (Connector.mysql_installed drivers));
        [intros H; exfalso; apply H; reflexivity |].
      destruct (Connector.missing_credential c) eqn:M;
        [intros H; exfalso; apply H; reflexivity |].
      intros _. apply ConnectorFacts.missing_iff_unset. exact M.
    + intros Hmiss _ Hmy. rewrite (Hmy eq_refl). cbn [negb].
      destruct (Connector.missing_credential c) as [text |] eqn:M;
        [| congruence].
      destruct (ConnectorFacts.missing_names_a_variable _ _ M)
        as (variable & Hin & ->).
      exists variable. auto.
Qed.

Lemma X25_no_connect_without_credentials_witness :
  exists variable,
    In variable ["GOLDEN_SOURCE_HOST"; "GOLDEN_SOURCE_DATABASE";
                 "GOLDEN_SOURCE_USER"; "GOLDEN_SOURCE_PASSWORD"] /\
    Connector._connect
      (Connector.mkCredentials "PostgreSQL" (Some "db.example.org") "5432"
                               (Some "addresses") None (Some "secret"))
      (Connector.mkDrivers true (fun _ => inr 7) false (fun _ => inr 8)
                           true (fun _ => inr 9)) =
    (inl (Connector.ValueError
            (variable ++ " environment variable is not set")),
     []).
Proof.
  apply (proj2 (X25_no_connect_without_credentials
                  (Connector.mkCredentials "PostgreSQL" (Some "db.example.org")
                     "5432" (Some "addresses") None (Some "secret"))
                  (Connector.mkDrivers true (fun _ => inr 7) false
                     (fun _ => inr 8) true (fun _ => inr 9))
                  (or_introl eq_refl))).
  - discriminate.
  - reflexivity.
  - discriminate.
Defined.

(** X26. For PostgreSQL and MySQL, an exception raised by the driver's
    connect call never leaves [_connect] as it is: whatever its type and
    text, [_connect] raises a [ValueError] whose message contains the text
    of the driver's exception, after that one connect call. *)
Theorem X26_driver_errors_become_value_errors :
  forall c drivers e,
    Connector.missing_credential c = None ->
    (PyStr.lower (Connector.GOLDEN_SOURCE_DB_TYPE c) = "postgresql" ->
     Connector.psycopg2_installed drivers = true ->
     Connector.psycopg2_connect drivers (Connector.connect_args c) = inl e ->
     exists text,
       Connector._connect c drivers =
       (inl (Connector.ValueError text),
        [Connector.Psycopg2 (Connector.connect_args c)]) /\
       PyStr.contains (Connector.error_msg e) text = true) /\
    (PyStr.lower (Connector.GOLDEN_SOURCE_DB_TYPE c) = "mysql" ->
     Connector.mysql_installed drivers = true ->
     Connector.mysql_connect drivers (Connector.connect_args c) = inl e ->
     exists text,
       Connector._connect c drivers =
       (inl (Connector.ValueError text),
        [Connector.MySql (Connector.connect_args c)]) /\
       PyStr.contains (Connector.error_msg e) text = true).
Proof.
  intros c drivers e Hcred. unfold Connector._connect. split.
  - intros -> Hinst Hconn. cbn [String.eqb Ascii.eqb Bool.eqb].
    rewrite Hinst, Hcred, Hconn. cbn [negb].
    eexists. split; [reflexivity |].
    apply ConnectorFacts.postgresql_failure_embeds.
  - intros -> Hinst Hconn. cbn [String.eqb Ascii.eqb Bool.eqb].
    rewrite Hinst, Hcred, Hconn. cbn [negb].
    eexists. split; [reflexivity |].
    apply ConnectorFacts.mysql_failure_embeds.
Qed.

Lemma X26_driver_errors_become_value_errors_witness :
  let c :=
    Connector.mkCredentials "postgresql" (Some "db.example.org") "5432"
                            (Some "addresses") (Some "reader") (Some "secret") in
  let e :=
    Connector.mkDriverError "OperationalError"
      "<class 'psycopg2.OperationalError'>"
      "FATAL:  password authentication failed for user reader" false in
  let drivers :=
    Connector.mkDrivers true (fun _ => inl e) false (fun _ => inr 8)
                        true (fun _ => inr 9) in
  exists text,
    Connector._connect c drivers =
    (inl (Connector.ValueError text),
     [Connector.Psycopg2 (Connector.connect_args c)]) /\
    PyStr.contains (Connector.error_msg e) text = true.
Proof.
  intros c e drivers.
  apply (proj1 (X26_driver_errors_become_value_errors c drivers e eq_refl));
    reflexivity.
Defined.

(** ** Exact-match verifier: case and padding *)


(** X27. The verdict of the exact-match verifier does not depend on the
    letter case or on surrounding whitespace of a text value of the golden
    record: replacing the value under any key by its upper-case or
    lower-case form, padded with whitespace on both sides, leaves the
    result of [_check_exact_match] unchanged. *)
Theorem X27_verdict_ignores_case_and_padding :
  forall golden internal_matches key s ws1 ws2,
    dict_get golden key = Some (ExactMatch.CStr s) ->
    all_chars PyStr.is_space ws1 = true ->
    all_chars PyStr.is_space ws2 = true ->
    ExactMatch._check_exact_match
      (dict_set golden key (ExactMatch.CStr (ws1 ++ PyStr.upper s ++ ws2)))
      internal_matches =
    ExactMatch._check_exact_match golden internal_matches /\
    ExactMatch._check_exact_match
      (dict_set golden key (ExactMatch.CStr (ws1 ++ PyStr.lower s ++ ws2)))
      internal_matches =
    ExactMatch._check_exact_match golden internal_matches.
Proof.
  intros golden l key s ws1 ws2 Hget H1 H2.
  destruct (NormalFacts.norm_insensitive ws1 s ws2 H1 H2) as [Hup Hlow].
  rewrite !ExactMatchFacts.check_is_scan. split.
  - apply NormalFacts.scan_internal_ext. intros k.
    apply (NormalFacts.golden_field_replaced golden key s _ k Hget Hup).
  - apply NormalFacts.scan_internal_ext. intros k.
    apply (NormalFacts.golden_field_replaced golden key s _ k Hget Hlow).
Qed.

Lemma X27_verdict_ignores_case_and_padding_witness :
  let golden :=
    [("address1", ExactMatch.CStr "100 Main St");
     ("state", ExactMatch.CStr "Fl")] in
  let internal :=
    [[("Street", ExactMatch.CStr "100 main st"); ("St", ExactMatch.CStr "FL")]] in
  ExactMatch._check_exact_match
    (dict_set golden "address1"
              (ExactMatch.CStr ("  " ++ PyStr.upper "100 Main St" ++ " ")))
    internal =
  ExactMatch._check_exact_match golden internal.
Proof.
  intros golden internal.
  apply (proj1 (X27_verdict_ignores_case_and_padding
                  golden internal "address1" "100 Main St" "  " " "
                  eq_refl eq_refl eq_refl)).
Defined.

(** ** Command line *)

(** X28. The table name [main] hands on is never empty, whatever the
    arguments and the environment variable; and when the last of two or
    more arguments contains a dot it is taken as the table name and is not
    part of the address, also when it was meant as the end of the address
    (as in 123 Main St.). *)
Theorem X28_table_name_from_the_arguments :
  forall argv table_alt,
    (forall input_address table_name,
        Cli.parse_args argv table_alt = Some (input_address, table_name) ->
        table_name <> EmptyString) /\
    (3 <= length argv ->
     PyStr.contains "." (last argv EmptyString) = true ->
     Cli.parse_args argv table_alt =
     Some (PyStr.join " " (removelast (tl argv)), last argv EmptyString)).
Proof.
  intros argv table_alt. unfold Cli.parse_args. split.
  - intros input table.
    destruct (length argv <? 2); [discriminate |].
    destruct (if 3 <=? length argv then _ else _) as [input' table'].
    intros H. inversion H as [[Hi Ht]]. clear H Hi.
    destruct table' as [t |].
    + destruct t as [| c t]; cbn [PyStr.is_empty].
      * destruct table_alt as [[| c a] |]; discriminate.
      * discriminate.
    + destruct table_alt as [[| c a] |]; discriminate.
  - intros Hlen Hdot.
    replace (length argv <? 2) with false
      by (symmetry; apply Nat.ltb_ge; lia).
    replace (3 <=? length argv) with true
      by (symmetry; apply Nat.leb_le; exact Hlen).
    rewrite Hdot. cbn [orb].
    destruct (last argv EmptyString) as [| c t] eqn:L; [discriminate Hdot |].
    reflexivity.
Qed.

Lemma X28_table_name_from_the_arguments_witness :
  Cli.parse_args ["main_alt.py"; "123"; "Main"; "St."] None =
  Some ("123 Main", "St.").
Proof.
  apply (proj2 (X28_table_name_from_the_arguments
                  ["main_alt.py"; "123"; "Main"; "St."] None)).
  - simpl. lia.
  - reflexivity.
Defined.
